(** * The Mamba mixer of megatron/core/ssm/mamba_mixer.py

    A shallow embedding of the [Mamba] layer (constructor, forward pass,
    reference selective scan, single-step decode and inference cache) and
    the properties its specification states about it.

    Conventions.
    - Tensor elements are real numbers ([R]): rounding, overflow and
      underflow of the floating-point formats are not part of the model,
      and the dtype/device conversions ([.float()], [.to(dtype)]) are the
      identity.
    - A tensor of rank k is a k-fold nested list, outermost axis first.
      The extent of an inner axis is read off the first element, so the
      model is meant at tensors with non-empty leading axes.
    - Python exceptions are values of [exn]; a computation that may raise
      returns a [result].  Code that mutates tensors or the session
      dictionary in place runs in the state-and-error monad [M] over a
      [Store]; the store survives an exception, as the Python heap does. *)

From Stdlib Require Import Reals Lra Lia ZArith List String.
From stdpp Require Import base gmap strings list.
Import ListNotations.

Local Open Scope R_scope.

(** ** Tensors and scalars *)

Abbreviation T1 := (list R).
Abbreviation T2 := (list (list R)).
Abbreviation T3 := (list (list (list R))).
Abbreviation T4 := (list (list (list (list R)))).

(** [torch.nn.functional.softplus] with its defaults [beta=1],
    [threshold=20]: linear above the threshold. *)
Definition softplus_threshold : R := 20.

Definition softplus (x : R) : R :=
  if Rlt_dec softplus_threshold x then x else ln (1 + exp x).

(** [torch.expm1]. *)
Definition expm1 (x : R) : R := exp x - 1.

(** [F.silu] / [nn.SiLU]: x * sigmoid(x). *)
Definition sigmoid (x : R) : R := / (1 + exp (- x)).
Definition silu (x : R) : R := x * sigmoid x.

(** The inverse of softplus used for [dt_bias] (line 143):
    [dt + torch.log(-torch.expm1(-dt))]. *)
Definition inv_softplus (dt : R) : R := dt + ln (- expm1 (- dt)).

(** ** Exceptions and the error monad *)

Inductive exn : Type :=
| AssertionError
| AttributeError (name : string)
| UnboundLocalError (name : string)
| ZeroDivisionError
| ValueError
| IndexError
| RuntimeError.

Inductive result (A : Type) : Type :=
| Ok (a : A)
| Err (e : exn).
Arguments Ok {A} a.
Arguments Err {A} e.

#[global] Instance result_ret : MRet result := fun _ a => Ok a.
#[global] Instance result_bind : MBind result := fun _ _ f r =>
  match r with
  | Ok a => f a
  | Err e => Err e
  end.

#[global] Instance result_fmap : FMap result := fun _ _ f r =>
  match r with
  | Ok a => Ok (f a)
  | Err e => Err e
  end.

Definition assert (b : bool) : result unit :=
  if b then Ok tt else Err AssertionError.

(** [mapM] of the error monad, left to right. *)
Fixpoint mapR {A B : Type} (f : A -> result B) (l : list A) : result (list B) :=
  match l with
  | [] => Ok []
  | a :: l' => b ← f a; bs ← mapR f l'; Ok (b :: bs)
  end.

(** ** Tensor operations *)

Definition zeros1 (n : nat) : T1 := repeat 0 n.
Definition zeros2 (n m : nat) : T2 := repeat (zeros1 m) n.
Definition zeros3 (n m k : nat) : T3 := repeat (zeros2 m k) n.

Definition ones1 (n : nat) : T1 := repeat 1 n.

Definition rsum (l : T1) : R := fold_right Rplus 0 l.

(** Extents of the inner axes, read off the first element. *)
Definition size1 {A : Type} (t : list (list A)) : nat := length (hd [] t).
Definition size2 {A : Type} (t : list (list (list A))) : nat := size1 (hd [] t).

(** [t[i]]: indexing the leading axis. *)
Definition index {A : Type} (t : list A) (i : nat) : result A :=
  match t !! i with
  | Some a => Ok a
  | None => Err IndexError
  end.

(** Broadcasting of one axis: equal extents are paired, an axis of
    extent one is repeated, anything else is a shape error. *)
Definition bcast {A B C : Type} (f : A -> B -> result C)
    (la : list A) (lb : list B) : result (list C) :=
  if Nat.eqb (length la) (length lb) then
    mapR (fun ab => f ab.1 ab.2) (zip la lb)
  else
    match la, lb with
    | [a], _ => mapR (f a) lb
    | _, [b] => mapR (fun a => f a b) la
    | _, _ => Err RuntimeError
    end.

Definition bc1 (op : R -> R -> R) : T1 -> T1 -> result T1 :=
  bcast (fun a b => Ok (op a b)).
Definition bc2 (op : R -> R -> R) : T2 -> T2 -> result T2 := bcast (bc1 op).
Definition bc3 (op : R -> R -> R) : T3 -> T3 -> result T3 := bcast (bc2 op).

Definition map2 (f : R -> R) : T2 -> T2 := map (map f).
Definition map3 (f : R -> R) : T3 -> T3 := map (map2 f).

(** [torch.einsum('bdn,bn->bd', x, c)]. *)
Definition einsum_bdn_bn_bd (x : T3) (c : T2) : result T2 :=
  bcast (fun xb cb => mapR (fun xd => rsum <$> bc1 Rmult xd cb) xb) x c.

(** [torch.stack] of a Python list of rank-2 tensors. *)
Definition stack (ys : list T2) : result T3 :=
  match ys with
  | [] => Err RuntimeError
  | _ => Ok ys
  end.

(** ** The reference selective scan (lines 284-351)

    Shapes of the docstring's second block: [u], [delta], [z] are
    (L, B, D); [A] is (D, N); [B], [C] are (L, B, N); [D], [delta_bias]
    are (D).  The result is [out], paired with [last_state] when
    [return_last_state] is set ([None] otherwise). *)

(** The loop of lines 333-345.  The state [x] is read at every iteration
    and assigned by none: the update statements are commented out in the
    source. *)
Fixpoint scan_loop (x : T3) (C : T3) (L : nat) (idx : list nat)
    (ys : list T2) (last_state : option T3) : result (list T2 * option T3) :=
  match idx with
  | [] => Ok (ys, last_state)
  | i :: idx' =>
      Ci ← index C i;
      y ← einsum_bdn_bn_bd x Ci;
      let last_state := if Nat.eqb i (L - 1) then Some x else last_state in
      scan_loop x C L idx' (ys ++ [y]) last_state
  end.

Definition selective_scan_ref (u delta : T3) (A : T2) (B C : T3)
    (D : option T1) (z : option T3) (delta_bias : option T1)
    (delta_softplus return_last_state : bool) : result (T3 * option T3) :=
  delta ← match delta_bias with
          | Some b => bc3 Rplus delta [[b]]
          | None => Ok delta
          end;
  let delta := if delta_softplus then map3 softplus delta else delta in
  let batch := size1 u in
  let dim := length A in
  let dstate := size1 A in
  let x := zeros3 batch dim dstate in
  '(ys, last_state) ← scan_loop x C (length u) (seq 0 (length u)) [] None;
  y ← stack ys;
  out ← match D with
        | None => Ok y
        | Some D => uD ← bc3 Rmult u [[D]]; bc3 Rplus y uD
        end;
  out ← match z with
        | Some z => bc3 Rmult out (map3 silu z)
        | None => Ok out
        end;
  Ok (out, if return_last_state then last_state else None).

(** ** The recurrence of the Selective Scan Core, as the specification
    writes it

    One lane is one (batch, channel) pair: its state is a vector over the
    [N] state dimensions, and a token carries what the lane reads at one
    timestep.

      dt_eff  = softplus(dt_raw + dt_bias)
      A_disc  = exp(dt_eff * A)
      state_t = A_disc * state_{t-1} + dt_eff * B_t * x_t
      y_t     = C_t . state_t + D * x_t
      y_t     = y_t * SiLU(gate_t)        (when gated inside the scan) *)

Record token : Type := {
  tok_dt : R;            (* raw timestep input *)
  tok_x : R;             (* signal *)
  tok_B : T1;            (* input gate, one entry per state dimension *)
  tok_C : T1;            (* output gate, one entry per state dimension *)
  tok_z : option R       (* gate, when the scan applies it *)
}.

Record lane : Type := {
  lane_A : T1;           (* decay, one entry per state dimension *)
  lane_D : R;            (* skip weight *)
  lane_dt_bias : R
}.

Section Recurrence.
Variable N : nat.
Variable p : lane.

Definition dt_eff (k : token) : R := softplus (tok_dt k + lane_dt_bias p).

Definition A_disc (k : token) (n : nat) : R :=
  exp (dt_eff k * nth n (lane_A p) 0).

Definition inject (k : token) (n : nat) : R :=
  dt_eff k * nth n (tok_B k) 0 * tok_x k.

Definition ssm_step (h : T1) (k : token) : T1 :=
  map (fun n => A_disc k n * nth n h 0 + inject k n) (seq 0 N).

Definition ssm_out (h : T1) (k : token) : R :=
  let y := rsum (map (fun n => nth n (tok_C k) 0 * nth n h 0) (seq 0 N))
           + lane_D p * tok_x k in
  match tok_z k with
  | Some z => y * silu z
  | None => y
  end.

(** The pure sequential recurrence: per-token outputs and final state. *)
Fixpoint ssm_scan (h : T1) (ks : list token) : list R * T1 :=
  match ks with
  | [] => ([], h)
  | k :: ks' =>
      let h' := ssm_step h k in
      let '(ys, hf) := ssm_scan h' ks' in
      (ssm_out h' k :: ys, hf)
  end.

(** *** The chunked scan *)

(** Product of the transition factors of a run of tokens. *)
Definition decay_prod (ks : list token) (n : nat) : R :=
  fold_right (fun k acc => A_disc k n * acc) 1 ks.

(** What the tokens of a run contribute to the state after the run:
    each injection decayed by the tokens that follow it. *)
Definition contrib (ks : list token) (n : nat) : R :=
  rsum (imap (fun s k => decay_prod (drop (S s) ks) n * inject k n) ks).

(** Modelled from the spec: the intra-chunk part of
    mamba_chunk_scan_fused (src.ops.triton.flashmamba, not among the
    sources).  The state after position [j] of a chunk is computed
    from the state entering the chunk alone, so the positions of a
    chunk do not wait for one another (section 4.3, chunked/parallel
    mode: intra-chunk recurrence in parallel). *)
Definition intra_state (h_in : T1) (chunk : list token) (j : nat) : T1 :=
  let run := take (S j) chunk in
  map (fun n => decay_prod run n * nth n h_in 0 + contrib run n) (seq 0 N).

Definition chunk_scan (h_in : T1) (chunk : list token) : list R * T1 :=
  (imap (fun j k => ssm_out (intra_state h_in chunk j) k) chunk,
   match chunk with
   | [] => h_in
   | _ => intra_state h_in chunk (length chunk - 1)
   end).

(** Consecutive chunks of [chunk_size] tokens; the last one may be
    shorter. *)
Fixpoint chunks_fuel (fuel chunk_size : nat) (ks : list token)
    : list (list token) :=
  match fuel, ks with
  | S fuel', _ :: _ =>
      take chunk_size ks :: chunks_fuel fuel' chunk_size (drop chunk_size ks)
  | _, _ => []
  end.

Definition chunks (chunk_size : nat) (ks : list token) : list (list token) :=
  chunks_fuel (length ks) chunk_size ks.

(** Inter-chunk state carried sequentially (section 4.3). *)
Fixpoint carry_chunks (h : T1) (cs : list (list token)) : list R * T1 :=
  match cs with
  | [] => ([], h)
  | c :: cs' =>
      let '(ys, h') := chunk_scan h c in
      let '(ys', hf) := carry_chunks h' cs' in
      (ys ++ ys', hf)
  end.

(** Modelled from the spec: mamba_chunk_scan_fused on one lane, from
    the zero state, returning the outputs and the final state. *)
Definition mamba_chunk_scan (chunk_size : nat) (ks : list token)
    : list R * T1 :=
  carry_chunks (zeros1 N) (chunks chunk_size ks).

End Recurrence.

(** The recurrence at the tensor layout of [selective_scan_ref]: lane
    (b, d) reads [delta[t][b][d]], [u[t][b][d]], [B[t][b]], [C[t][b]] and
    [z[t][b][d]], with [A[d]], [D[d]] and [delta_bias[d]]. *)
Definition get3 (t : T3) (i j k : nat) : R := nth k (nth j (nth i t []) []) 0.
Definition get2 (t : T3) (i j : nat) : T1 := nth j (nth i t []) [].

Definition lane_of (A : T2) (D delta_bias : option T1) (d : nat) : lane :=
  {| lane_A := nth d A [];
     lane_D := from_option (fun D => nth d D 0) 0 D;
     lane_dt_bias := from_option (fun b => nth d b 0) 0 delta_bias |}.

Definition lane_tokens (u delta B C : T3) (z : option T3) (b d : nat)
    : list token :=
  map (fun t => {| tok_dt := get3 delta t b d;
                   tok_x := get3 u t b d;
                   tok_B := get2 B t b;
                   tok_C := get2 C t b;
                   tok_z := (fun z => get3 z t b d) <$> z |})
      (seq 0 (length u)).

Definition spec_selective_scan (u delta : T3) (A : T2) (B C : T3)
    (D : option T1) (z : option T3) (delta_bias : option T1) : T3 * T3 :=
  let N := size1 A in
  let run b d :=
    ssm_scan N (lane_of A D delta_bias d) (zeros1 N)
             (lane_tokens u delta B C z b d) in
  (map (fun t =>
     map (fun b =>
       map (fun d => nth t (run b d).1 0) (seq 0 (length A)))
       (seq 0 (size1 u)))
     (seq 0 (length u)),
   map (fun b => map (fun d => (run b d).2) (seq 0 (length A)))
       (seq 0 (size1 u))).

(** ** Python integers and floats *)

Local Open Scope Z_scope.

(** [a % b] and [a // b] on Python ints: floor division, the remainder
    takes the sign of the divisor, a zero divisor raises. *)
Definition py_mod (a b : Z) : result Z :=
  if Z.eqb b 0 then Err ZeroDivisionError else Ok (a mod b).

Definition py_floordiv (a b : Z) : result Z :=
  if Z.eqb b 0 then Err ZeroDivisionError else Ok (a / b).

Local Close Scope Z_scope.

(** [math.log]: a domain error outside the positive reals. *)
Definition math_log (x : R) : result R :=
  if Rlt_dec 0 x then Ok (ln x) else Err ValueError.

#[global] Instance Rlt_decision : RelDecision Rlt := Rlt_dec.
#[global] Instance Rle_decision : RelDecision Rle := Rle_dec.

(** [torch.Tensor.clamp(min=m)]. *)
Definition clamp_min (m : R) (x : R) : R := Rmax x m.

Definition tabulate {A : Type} (n : Z) (f : nat -> A) : list A :=
  map f (seq 0 (Z.to_nat n)).

(** ** The layer object *)

(** Of the transformer configuration the mixer's control flow reads
    [sequence_parallel]; [params_dtype] and the init methods only choose
    the initial weights, which are given as [Draws] below. *)
Record TransformerConfig : Type := {
  sequence_parallel : bool
}.

Record Linear : Type := {
  weight : T2               (* (out_features, in_features) *)
}.

Record Conv1d : Type := {
  conv_weight : T2;         (* (channels, 1, width) with the unit axis dropped *)
  conv_bias : option T1;
  conv_padding : Z          (* zeros added on both sides *)
}.

Record RMSNorm : Type := {
  norm_weight : T1;
  norm_eps : R
}.

(** The constructor's parameters (lines 45-72).  [dt_init], [dt_scale],
    [device] and [dtype] are accepted and never read. *)
Record MambaArgs : Type := {
  arg_config : TransformerConfig;
  arg_d_model : Z;
  arg_d_state : Z;
  arg_d_conv : Z;
  arg_conv_init : option R;
  arg_expand : Z;
  arg_headdim : Z;
  arg_ngroups : Z;
  arg_A_init_range : R * R;
  arg_D_has_hdim : bool;
  arg_rmsnorm : bool;
  arg_norm_before_gate : bool;
  arg_dt_min : R;
  arg_dt_max : R;
  arg_dt_init_floor : R;
  arg_bias : bool;
  arg_conv_bias : bool;
  arg_chunk_size : Z;
  arg_use_fast_path : bool;
  arg_layer_idx : option Z
}.

(** The defaults of the signature, for a given configuration and model
    width. *)
Definition default_args (cfg : TransformerConfig) (d_model : Z) : MambaArgs :=
  {| arg_config := cfg;
     arg_d_model := d_model;
     arg_d_state := 128;
     arg_d_conv := 4;
     arg_conv_init := None;
     arg_expand := 2;
     arg_headdim := 64;
     arg_ngroups := 1;
     arg_A_init_range := (1, 16);
     arg_D_has_hdim := false;
     arg_rmsnorm := true;
     arg_norm_before_gate := false;
     arg_dt_min := 1 / 1000;
     arg_dt_max := 1 / 10;
     arg_dt_init_floor := 1 / 10000;
     arg_bias := false;
     arg_conv_bias := true;
     arg_chunk_size := 128;
     arg_use_fast_path := true;
     arg_layer_idx := None |}.

(** What the random number generator and the framework's init methods
    hand to the constructor. *)
Record Draws : Type := {
  rand_dt : nat -> R;                  (* torch.rand, in [0, 1) *)
  rand_A : nat -> R;                   (* unit draws behind uniform_(lo, hi) *)
  rand_conv : nat -> nat -> R;         (* unit draws behind nn.init.uniform_ *)
  in_proj_init : nat -> nat -> R;
  conv_weight_init : nat -> nat -> R;
  conv_bias_init : nat -> R;
  out_proj_init : nat -> nat -> R
}.

(** [Tensor.uniform_(lo, hi)] from a unit draw. *)
Definition uniform (lo hi u : R) : R := lo + (hi - lo) * u.

Record Mamba : Type := {
  config : TransformerConfig;
  d_model : Z;
  d_state : Z;
  d_conv : Z;
  conv_init : option R;
  expand : Z;
  d_inner : Z;
  headdim : Z;
  ngroups : Z;
  nheads : Z;
  D_has_hdim : bool;
  rmsnorm : bool;
  norm_before_gate : bool;
  chunk_size : Z;
  use_fast_path : bool;
  layer_idx : option Z;
  tensor_model_parallel_size : Z;
  d_inner_local : Z;
  ngroups_local : Z;
  nheads_local : Z;
  in_proj : Linear;
  conv1d : Conv1d;
  activation : string;
  dt_bias : T1;
  A_log : T1;
  D : T1;
  norm : option RMSNorm;
  out_proj : Linear
}.

(** The timestep sampled for head [i] (lines 138-141) and the bias
    stored for it (line 143). *)
Definition dt_sample (log_dt_min log_dt_max dt_init_floor r : R) : R :=
  clamp_min dt_init_floor (exp (r * (log_dt_max - log_dt_min) + log_dt_min)).

(** [Mamba.__init__] (lines 45-180).  [world_size] is what
    get_tensor_model_parallel_world_size() returns.  The framework's
    constructors (ColumnParallelLinear, nn.Conv1d, RMSNormGated,
    RowParallelLinear) and [torch.rand] are taken to succeed, as they do
    at positive sizes; at a zero or negative size they raise (ValueError
    at line 116, RuntimeError at line 139) where this definition goes
    on, so a property of the error a construction ends in is stated at
    positive sizes. *)
Definition __init__ (world_size : Z) (draws : Draws) (a : MambaArgs)
    : result Mamba :=
  let d_inner := (arg_expand a * arg_d_model a)%Z in
  r ← py_mod d_inner (arg_headdim a);
  _ ← assert (Z.eqb r 0);
  nheads ← py_floordiv d_inner (arg_headdim a);
  let tp := world_size in
  r ← py_mod d_inner tp;
  _ ← assert (Z.eqb r 0);
  r ← py_mod (arg_ngroups a) tp;
  _ ← assert (Z.eqb r 0);
  r ← py_mod nheads tp;
  _ ← assert (Z.eqb r 0);
  _ ← assert (negb (arg_bias a));
  d_inner_local ← py_floordiv d_inner tp;
  ngroups_local ← py_floordiv (arg_ngroups a) tp;
  nheads_local ← py_floordiv nheads tp;
  proj_out ← py_floordiv
    (d_inner * 2 + 2 * arg_ngroups a * arg_d_state a + nheads)%Z tp;
  let in_proj :=
    {| weight := tabulate proj_out (fun i =>
                   tabulate (arg_d_model a) (in_proj_init draws i)) |} in
  let conv_dim := (d_inner_local + 2 * ngroups_local * arg_d_state a)%Z in
  let conv_b :=
    if arg_conv_bias a then Some (tabulate conv_dim (conv_bias_init draws))
    else None in
  (* setattr(self.conv1d.bias, 'tensor_model_parallel', True) *)
  _ ← match conv_b with
      | Some _ => Ok tt
      | None => Err (AttributeError "tensor_model_parallel")
      end;
  let conv_w :=
    match arg_conv_init a with
    | Some c => tabulate conv_dim (fun i =>
                  tabulate (arg_d_conv a) (fun j =>
                    uniform (- c) c (rand_conv draws i j)))
    | None => tabulate conv_dim (fun i =>
                tabulate (arg_d_conv a) (conv_weight_init draws i))
    end in
  log_dt_max ← math_log (arg_dt_max a);
  log_dt_min ← math_log (arg_dt_min a);
  let dt := tabulate nheads_local (fun i =>
              dt_sample log_dt_min log_dt_max (arg_dt_init_floor a)
                        (rand_dt draws i)) in
  let inv_dt := map inv_softplus dt in
  let '(lo, hi) := arg_A_init_range a in
  _ ← assert (bool_decide (0 < lo) && bool_decide (lo <= hi));
  let A := tabulate nheads_local (fun i => uniform lo hi (rand_A draws i)) in
  let A_log := map ln A in
  let D := ones1 (Z.to_nat (if arg_D_has_hdim a then d_inner_local
                            else nheads_local)) in
  let norm :=
    if arg_rmsnorm a then
      Some {| norm_weight := ones1 (Z.to_nat d_inner_local);
              norm_eps := 1 / 100000 |}
    else None in
  out_proj_in ← py_floordiv d_inner tp;
  let out_proj :=
    {| weight := tabulate (arg_d_model a) (fun i =>
                   tabulate out_proj_in (out_proj_init draws i)) |} in
  Ok {| config := arg_config a;
        d_model := arg_d_model a;
        d_state := arg_d_state a;
        d_conv := arg_d_conv a;
        conv_init := arg_conv_init a;
        expand := arg_expand a;
        d_inner := d_inner;
        headdim := arg_headdim a;
        ngroups := arg_ngroups a;
        nheads := nheads;
        D_has_hdim := arg_D_has_hdim a;
        rmsnorm := arg_rmsnorm a;
        norm_before_gate := arg_norm_before_gate a;
        chunk_size := arg_chunk_size a;
        use_fast_path := arg_use_fast_path a;
        layer_idx := arg_layer_idx a;
        tensor_model_parallel_size := tp;
        d_inner_local := d_inner_local;
        ngroups_local := ngroups_local;
        nheads_local := nheads_local;
        in_proj := in_proj;
        conv1d := {| conv_weight := conv_w; conv_bias := conv_b;
                     conv_padding := arg_d_conv a - 1 |};
        activation := "silu";
        dt_bias := inv_dt;
        A_log := A_log;
        D := D;
        norm := norm;
        out_proj := out_proj |}.

(** *** Attribute lookup

    Reading [self.name] succeeds for the names the constructor binds and
    raises AttributeError for any other name (the base classes bind none
    of the names read below).  [instance_dict] lists the bindings of
    [__init__] in source order; attributes the methods read and
    [__init__] binds are read from the record directly. *)

#[local] Set Warnings "-register-all".

Inductive pyval : Type :=
| PNone
| PBool (b : bool)
| PInt (z : Z)
| PFloat (r : R)
| PStr (s : string)
| PTensor1 (t : T1)
| PTensor2 (t : T2)
| PObject (attrs : list (string * pyval)).

Fixpoint assoc (name : string) (d : list (string * pyval)) : option pyval :=
  match d with
  | [] => None
  | (k, v) :: d' => if String.eqb k name then Some v else assoc name d'
  end.

Definition popt {A : Type} (f : A -> pyval) (o : option A) : pyval :=
  from_option f PNone o.

Definition linear_obj (l : Linear) : pyval :=
  PObject [("weight"%string, PTensor2 (weight l))].

Definition instance_dict (self : Mamba) : list (string * pyval) :=
  [ ("config", PObject [("sequence_parallel",
                         PBool (sequence_parallel (config self)))]);
    ("d_model", PInt (d_model self));
    ("d_state", PInt (d_state self));
    ("d_conv", PInt (d_conv self));
    ("conv_init", popt PFloat (conv_init self));
    ("expand", PInt (expand self));
    ("d_inner", PInt (d_inner self));
    ("headdim", PInt (headdim self));
    ("ngroups", PInt (ngroups self));
    ("nheads", PInt (nheads self));
    ("D_has_hdim", PBool (D_has_hdim self));
    ("rmsnorm", PBool (rmsnorm self));
    ("norm_before_gate", PBool (norm_before_gate self));
    ("chunk_size", PInt (chunk_size self));
    ("use_fast_path", PBool (use_fast_path self));
    ("layer_idx", popt PInt (layer_idx self));
    ("tensor_model_parallel_size", PInt (tensor_model_parallel_size self));
    ("d_inner_local", PInt (d_inner_local self));
    ("ngroups_local", PInt (ngroups_local self));
    ("nheads_local", PInt (nheads_local self));
    ("in_proj", linear_obj (in_proj self));
    ("conv1d", PObject [("weight", PTensor2 (conv_weight (conv1d self)));
                        ("bias", popt PTensor1 (conv_bias (conv1d self)))]);
    ("activation", PStr (activation self));
    ("act", PObject []);
    ("dt_bias", PTensor1 (dt_bias self));
    ("A_log", PTensor1 (A_log self));
    ("D", PTensor1 (D self)) ]%string
  ++ match norm self with
     | Some n => [("norm"%string,
                   PObject [("weight"%string, PTensor1 (norm_weight n));
                            ("eps"%string, PFloat (norm_eps n))])]
     | None => []
     end
  ++ [("out_proj"%string, linear_obj (out_proj self))].

Definition attr (o : pyval) (name : string) : result pyval :=
  match o with
  | PObject d =>
      match assoc name d with
      | Some v => Ok v
      | None => Err (AttributeError name)
      end
  | _ => Err (AttributeError name)
  end.

Definition getattr (self : Mamba) (name : string) : result pyval :=
  attr (PObject (instance_dict self)) name.

(** A local variable of a method body: [None] until its first
    assignment. *)
Definition local {A : Type} (name : string) (v : option A) : result A :=
  match v with
  | Some a => Ok a
  | None => Err (UnboundLocalError name)
  end.

(** ** The store: tensor buffers and the session dictionary *)

(** Tensor buffers live in a heap indexed by allocation order. *)
Definition loc : Type := nat.

(** The session object passed as [inference_params]: its dictionary is
    mutated through the reference and lives in the store; its offset
    counter is only read. *)
Record InferenceParams : Type := {
  seqlen_offset : Z
}.

Record Store : Type := {
  heap : list (list (list (list R)));
  key_value_memory_dict : gmap Z (loc * loc)
}.

Definition M (A : Type) : Type := Store -> result A * Store.

#[global] Instance M_ret : MRet M := fun _ a σ => (Ok a, σ).
#[global] Instance M_bind : MBind M := fun _ _ f m σ =>
  match m σ with
  | (Ok a, σ') => f a σ'
  | (Err e, σ') => (Err e, σ')
  end.

Definition liftR {A : Type} (r : result A) : M A := fun σ => (r, σ).

Definition alloc (t : T3) : M loc := fun σ =>
  (Ok (length (heap σ)),
   {| heap := heap σ ++ [t];
      key_value_memory_dict := key_value_memory_dict σ |}).

Definition load (l : loc) : M T3 := fun σ => (Ok (heap σ !!! l), σ).

Definition store (l : loc) (t : T3) : M unit := fun σ =>
  (Ok tt, {| heap := <[l := t]> (heap σ);
             key_value_memory_dict := key_value_memory_dict σ |}).

Definition dict_get (k : Z) : M (option (loc * loc)) := fun σ =>
  (Ok (key_value_memory_dict σ !! k), σ).

Definition dict_set (k : Z) (v : loc * loc) : M unit := fun σ =>
  (Ok tt, {| heap := heap σ;
             key_value_memory_dict := <[k := v]> (key_value_memory_dict σ) |}).

(** One-directional broadcasting: the source is expanded to the extent
    of the destination. *)
Definition bcast_to {A B C : Type} (f : A -> B -> result C)
    (dst : list A) (src : list B) : result (list C) :=
  if Nat.eqb (length dst) (length src) then
    mapR (fun ab => f ab.1 ab.2) (zip dst src)
  else
    match src with
    | [b] => mapR (fun a => f a b) dst
    | _ => Err RuntimeError
    end.

Definition expand_as3 : T3 -> T3 -> result T3 :=
  bcast_to (bcast_to (bcast_to (fun (_ s : R) => Ok s))).

(** [dst.copy_(src)]. *)
Definition copy_ (dst : loc) (src : T3) : M unit :=
  d ← load dst;
  t ← liftR (expand_as3 d src);
  store dst t.

(** [t.zero_()]. *)
Definition zero_ (l : loc) : M unit :=
  t ← load l;
  store l (map3 (fun _ => 0) t).

Inductive dtype : Type := float32 | float16 | bfloat16.

(** ** The inference cache (lines 415-452) *)

Definition allocate_inference_cache (self : Mamba) (batch_size : nat)
    (max_seqlen : nat) (dt : option dtype) : M (loc * loc) :=
  conv_state ← alloc (zeros3 batch_size (Z.to_nat (d_inner_local self))
                             (Z.to_nat (d_conv self)));
  _ ← match dt with
      | None => liftR (m ← getattr self "dt_proj"; attr m "weight")
      | Some _ => mret PNone
      end;
  ssm_state ← alloc (zeros3 batch_size (Z.to_nat (d_inner_local self))
                            (Z.to_nat (d_state self)));
  mret (conv_state, ssm_state).

Definition _get_states_from_cache (self : Mamba) (batch_size : nat)
    (initialize_states : bool) : M (loc * loc) :=
  match layer_idx self with
  | None => liftR (Err AssertionError)
  | Some idx =>
      entry ← dict_get idx;
      match entry with
      | None =>
          conv_state ← alloc (zeros3 batch_size
                                     (Z.to_nat (d_inner_local self))
                                     (Z.to_nat (d_conv self)));
          _ ← liftR (m ← getattr self "dt_proj"; attr m "weight");
          ssm_state ← alloc (zeros3 batch_size
                                    (Z.to_nat (d_inner_local self))
                                    (Z.to_nat (d_state self)));
          _ ← dict_set idx (conv_state, ssm_state);
          mret (conv_state, ssm_state)
      | Some (conv_state, ssm_state) =>
          _ ← (if initialize_states
               then (_ ← zero_ conv_state; zero_ ssm_state)
               else mret tt);
          mret (conv_state, ssm_state)
      end
  end.

(** ** Tensor plumbing of the forward pass *)

Definition dot (a b : T1) : result R :=
  if Nat.eqb (length a) (length b) then Ok (rsum (zip_with Rmult a b))
  else Err RuntimeError.

(** [x @ w.t()] for a matrix [x] of rows and a weight (out, in). *)
Definition matmul_t (x : T2) (w : T2) : result T2 :=
  mapR (fun row => mapR (dot row) w) x.

Definition matmul3_t (x : T3) (w : T2) : result T3 :=
  mapR (fun m => matmul_t m w) x.

Fixpoint transpose {A : Type} (rows : list (list A)) : list (list A) :=
  match rows with
  | [] => []
  | [r] => map (fun a => [a]) r
  | r :: rs => zip_with cons r (transpose rs)
  end.

(** [rearrange(t, "l b d -> b d l")] and its inverse. *)
Definition rearrange_lbd_bdl (t : T3) : T3 := map transpose (transpose t).
Definition rearrange_bdl_lbd (t : T3) : T3 := transpose (map transpose t).

(** [torch.split(t, sizes, dim=-1)] on one row: the sizes must add up
    to the extent. *)
Fixpoint split_row (sizes : list Z) (row : T1) : result (list T1) :=
  match sizes with
  | [] => if Nat.eqb (length row) 0 then Ok [] else Err RuntimeError
  | s :: sizes' =>
      if (s <? 0)%Z || (Z.of_nat (length row) <? s)%Z then Err RuntimeError
      else parts ← split_row sizes' (drop (Z.to_nat s) row);
           Ok (take (Z.to_nat s) row :: parts)
  end.

Definition split3 (s1 s2 s3 : Z) (t : T3) : result (T3 * T3 * T3) :=
  parts ← mapR (mapR (split_row [s1; s2; s3])) t;
  let pick i := map (map (fun ps => nth i ps [])) parts in
  Ok (pick 0%nat, pick 1%nat, pick 2%nat).

(** Splitting an axis "(h p)" into "h p" for a given [p]. *)
Fixpoint groups_fuel (fuel p : nat) (row : T1) : T2 :=
  match fuel, row with
  | S fuel', _ :: _ => take p row :: groups_fuel fuel' p (drop p row)
  | _, _ => []
  end.

Definition unflatten (p : Z) (row : T1) : result T2 :=
  if (p <=? 0)%Z then Err RuntimeError
  else if Nat.eqb (length row mod Z.to_nat p) 0
       then Ok (groups_fuel (length row) (Z.to_nat p) row)
       else Err RuntimeError.

(** [rearrange(t, "l b (h p) -> b l h p", p=p)]. *)
Definition rearrange_lbhp_blhp (p : Z) (t : T3) : result T4 :=
  mapR (mapR (unflatten p)) (transpose t).

(** [rearrange(t, "b l h p -> b l (h p)")]. *)
Definition rearrange_blhp_bld (t : T4) : T3 := map (map (@concat R)) t.

(** [F.pad(t, (n, 0))] on the last axis: [n] zeros on the left, or a
    crop from the left when [n] is negative. *)
Definition pad_left (n : Z) (row : T1) : T1 :=
  if (0 <=? n)%Z then zeros1 (Z.to_nat n) ++ row
  else drop (Z.to_nat (- n)) row.

(** ** The causal convolution (lines 116-125 and 225-227)

    [nn.Conv1d] with [groups] equal to the channel count: channel [c] is
    correlated with its own kernel [weight[c]] after [padding] zeros are
    added on both sides; the constructor asks for [padding = d_conv - 1]. *)
Definition conv1d_channel (padding : nat) (w : T1) (b : R) (x : T1)
    : result T1 :=
  let padded := zeros1 padding ++ x ++ zeros1 padding in
  if Nat.ltb (length padded) (length w) then Err RuntimeError
  else Ok (map (fun j => b + rsum (zip_with Rmult w (drop j padded)))
               (seq 0 (length padded + 1 - length w))).

Definition Conv1d_forward (c : Conv1d) (x : T3) : result T3 :=
  mapR (fun xb =>
    if Nat.eqb (length xb) (length (conv_weight c)) then
      mapR (fun '(i, xc) =>
              conv1d_channel (Z.to_nat (conv_padding c))
                (nth i (conv_weight c) [])
                (from_option (fun b => nth i b 0) 0 (conv_bias c)) xc)
           (imap pair xb)
    else Err RuntimeError) x.

(** Line 227: [self.act(self.conv1d(xBC)[..., :seqlen])]. *)
Definition conv_act (self : Mamba) (xBC : T3) : result T3 :=
  let seqlen := size2 xBC in
  y ← Conv1d_forward (conv1d self) xBC;
  Ok (map3 silu (map (map (take seqlen)) y)).

(** The decay parameter at its use (lines 200 and 393):
    [A = -torch.exp(self.A_log.float())], over the reals: the underflow
    of the float32 exponential to zero (for [A_log] of about -104 and
    below) and its overflow are not shown. *)
Definition decay (A_log : T1) : T1 := map (fun a => - exp a) A_log.

(** ** Single-step decode and the forward pass

    The kernels and collectives the module imports from other packages
    are parameters: an optional import is an [option], absent when the
    import failed. *)

(** [t.chunk(2, dim=-1)], unpacked into two names. *)
Definition chunk2 (t : T2) : result (T2 * T2) :=
  let w := size1 t in
  if Nat.eqb w 1 then Err ValueError
  else let h := ((w + 1) / 2)%nat in Ok (map (take h) t, map (drop h) t).

(** [torch.roll(t, shifts=-1, dims=-1)]. *)
Definition roll_last (t : T3) : T3 :=
  map (map (fun row => drop 1 row ++ take 1 row)) t.

(** [t[:, :, -1] = x]. *)
Definition set_last (row : T1) (v : R) : result T1 :=
  match row with
  | [] => Err IndexError
  | _ => Ok (take (length row - 1) row ++ [v])
  end.

Definition setitem_last (t : T3) (x : T2) : result T3 :=
  bcast_to (bcast_to set_last) t x.

Section Kernels.
Variable causal_conv1d_fn :
  option (T3 -> T2 -> option T1 -> string -> result T3).
Variable causal_conv1d_update :
  option (T2 -> loc -> T2 -> option T1 -> string -> M T2).
Variable mamba_chunk_scan_fused :
  T4 -> T3 -> T1 -> T4 -> T4 -> Z -> T1 + T2 -> option T4 -> T1 ->
  bool -> bool -> result (T4 * option T3).
Variable RMSNormGated_forward : RMSNorm -> T3 -> T3 -> result T3.
Variable gather_from_sequence_parallel_region : T3 -> T3.
Variable copy_to_tensor_model_parallel_region : T3 -> T3.
Variable reduce_from_tensor_model_parallel_region : T3 -> T3.
Variable reduce_scatter_to_sequence_parallel_region : T3 -> T3.

(** Lines 384-413 of [step], as a function of the layer, the value read
    as [self.x_proj], [x], [z] and the two buffers: they run only once
    that read has returned, and every property below holds whatever
    they do. *)
Variable step_projection :
  Mamba -> pyval -> T2 -> T2 -> loc -> loc -> M (T3 * loc * loc).

(** Lines 357-381 of [step]: the input projection and the update of
    the convolution state, giving the convolved [x] and the gate [z]. *)
Definition step_conv (self : Mamba) (hidden_states : T3)
    (conv_state : loc) : M (list (list R) * list (list R)) :=
  let hidden_states := hd [] hidden_states in
  xz ← liftR (matmul_t hidden_states (weight (in_proj self)));
  '(x, z) ← liftR (chunk2 xz);
  x ← match causal_conv1d_update with
      | None =>
          cs ← load conv_state;
          _ ← copy_ conv_state (roll_last cs);
          cs ← load conv_state;
          cs ← liftR (setitem_last cs x);
          _ ← store conv_state cs;
          prod ← liftR (bc3 Rmult cs [conv_weight (conv1d self)]);
          let x := map (map rsum) prod in
          x ← match conv_bias (conv1d self) with
              | Some b => liftR (bc2 Rplus x [b])
              | None => mret x
              end;
          mret (map2 silu x)
      | Some update =>
          update x conv_state (conv_weight (conv1d self))
                 (conv_bias (conv1d self)) (activation self)
      end;
  mret (x, z).

(** [Mamba.step] (lines 353-413). *)
Definition step (self : Mamba) (hidden_states : T3)
    (conv_state ssm_state : loc) : M (T3 * loc * loc) :=
  _ ← liftR (assert (Nat.eqb (length hidden_states) 1));
  '(x, z) ← step_conv self hidden_states conv_state;
  x_proj ← liftR (getattr self "x_proj");
  step_projection self x_proj x z conv_state ssm_state.

(** Lines 199-282 of [forward]; [states] is the pair
    ([conv_state], [ssm_state]), both [None] without a session. *)
Definition forward_body (self : Mamba) (hidden_states : T3)
    (states : option (loc * loc)) : M T3 :=
  let A := decay (A_log self) in
  let hidden_states :=
    if sequence_parallel (config self)
    then gather_from_sequence_parallel_region hidden_states
    else copy_to_tensor_model_parallel_region hidden_states in
  xz ← liftR (matmul3_t hidden_states (weight (in_proj self)));
  '(z, xBC, dt) ← liftR (split3
      (d_inner_local self)
      (d_inner_local self + 2 * ngroups_local self * d_state self)
      (nheads_local self) xz);
  let xBC := rearrange_lbd_bdl xBC in
  (* the local [x] is first assigned at line 241 *)
  let x : option T3 := None in
  _ ← match states with
      | Some (conv_state, _) =>
          x ← liftR (local "x" x);
          copy_ conv_state
            (map (map (pad_left (d_conv self - Z.of_nat (size2 x)))) x)
      | None => mret tt
      end;
  xBC ← liftR
    match causal_conv1d_fn with
    | None => conv_act self xBC
    | Some fn =>
        _ ← assert (bool_decide (activation self ∈ ["silu"; "swish"]%string));
        fn xBC (conv_weight (conv1d self)) (conv_bias (conv1d self))
           (activation self)
    end;
  let xBC := rearrange_bdl_lbd xBC in
  '(x, B, C) ← liftR (split3
      (d_inner_local self)
      (ngroups_local self * d_state self)
      (ngroups_local self * d_state self) xBC);
  x ← liftR (rearrange_lbhp_blhp (headdim self) x);
  let dt := transpose dt in
  B ← liftR (rearrange_lbhp_blhp (d_state self) B);
  C ← liftR (rearrange_lbhp_blhp (d_state self) C);
  z ← liftR (rearrange_lbhp_blhp (headdim self) z);
  Darg ← liftR (if D_has_hdim self
                then inr <$> unflatten (headdim self) (D self)
                else Ok (inl (D self)));
  '(y, last_state) ← liftR (mamba_chunk_scan_fused
      x dt A B C (chunk_size self) Darg
      (if rmsnorm self then None else Some z)
      (dt_bias self) true (bool_decide (is_Some states)));
  _ ← match states with
      | Some (_, ssm_state) =>
          last_state ← liftR (match last_state with
                              | Some s => Ok s
                              | None => Err ValueError
                              end);
          copy_ ssm_state last_state
      | None => mret tt
      end;
  y ← liftR (if rmsnorm self then
               n ← match norm self with
                   | Some n => Ok n
                   | None => Err (AttributeError "norm")
                   end;
               y ← RMSNormGated_forward n (rearrange_blhp_bld y)
                                        (rearrange_blhp_bld z);
               Ok (transpose y)
             else Ok (transpose (rearrange_blhp_bld y)));
  out_full ← liftR (matmul3_t y (weight (out_proj self)));
  mret (if sequence_parallel (config self)
        then reduce_scatter_to_sequence_parallel_region out_full
        else reduce_from_tensor_model_parallel_region out_full).

(** [Mamba.forward] (lines 182-282). *)
Definition forward (self : Mamba) (hidden_states : T3)
    (inference_params : option InferenceParams) : M T3 :=
  let batch := size1 hidden_states in
  match inference_params with
  | Some ip =>
      _ ← liftR (assert (negb (sequence_parallel (config self))));
      '(conv_state, ssm_state) ← _get_states_from_cache self batch false;
      if (0 <? seqlen_offset ip)%Z then
        '(out, _, _) ← step self hidden_states conv_state ssm_state;
        mret out
      else forward_body self hidden_states (Some (conv_state, ssm_state))
  | None => forward_body self hidden_states None
  end.

End Kernels.

(** ** Shapes and element access, for stating properties *)

(** [t[i][j][k]], when the position exists. *)
Definition at3 (t : T3) (i j k : nat) : option R :=
  t !! i ≫= fun m => m !! j ≫= fun row => row !! k.

(** [t] is a rank-3 tensor of shape (n1, n2, n3). *)
Definition rect3 (n1 n2 n3 : nat) (t : T3) : Prop :=
  length t = n1 /\
  Forall (fun m => length m = n2 /\ Forall (fun row => length row = n3) m) t.

(** ** Concrete configurations

    The scenario of the specification's section 8 (model width 16,
    expansion 2, head dimension 8, state dimension 8, one group, one
    shard, convolution width 4), and a smallest layer (every width 1,
    convolution width 2) on which the forward pass can be traced by
    hand. *)

Definition plain_config : TransformerConfig := {| sequence_parallel := false |}.
Definition sp_config : TransformerConfig := {| sequence_parallel := true |}.

Definition const_draws : Draws :=
  {| rand_dt := fun _ => 1 / 2;
     rand_A := fun _ => 0;
     rand_conv := fun _ _ => 1 / 2;
     in_proj_init := fun _ _ => 1;
     conv_weight_init := fun _ _ => 1;
     conv_bias_init := fun _ => 0;
     out_proj_init := fun _ _ => 1 |}.

(** The arguments [a] with another configuration, layer index and
    sizes. *)
Definition args_with (a : MambaArgs) (idx : option Z) (cfg : TransformerConfig)
    (d_state d_conv headdim expand : Z) : MambaArgs :=
  {| arg_config := cfg;
     arg_d_model := arg_d_model a;
     arg_d_state := d_state;
     arg_d_conv := d_conv;
     arg_conv_init := arg_conv_init a;
     arg_expand := expand;
     arg_headdim := headdim;
     arg_ngroups := arg_ngroups a;
     arg_A_init_range := arg_A_init_range a;
     arg_D_has_hdim := arg_D_has_hdim a;
     arg_rmsnorm := arg_rmsnorm a;
     arg_norm_before_gate := arg_norm_before_gate a;
     arg_dt_min := arg_dt_min a;
     arg_dt_max := arg_dt_max a;
     arg_dt_init_floor := arg_dt_init_floor a;
     arg_bias := arg_bias a;
     arg_conv_bias := arg_conv_bias a;
     arg_chunk_size := arg_chunk_size a;
     arg_use_fast_path := arg_use_fast_path a;
     arg_layer_idx := idx |}.

Definition scenario_args : MambaArgs :=
  args_with (default_args plain_config 16) (Some 0%Z) plain_config 8 4 8 2.

Definition tiny_args (cfg : TransformerConfig) (idx : option Z) : MambaArgs :=
  args_with (default_args cfg 1) idx cfg 1 2 1 1.

(** One token, one lane, one state dimension: [u = 1], [delta = 0],
    [A = -1], [B = C = 1], [D = 1], no gate, zero bias. *)
Definition unit_u : T3 := [[[1]]].
Definition unit_delta : T3 := [[[0]]].
Definition unit_A : T2 := [[-1]].
Definition unit_BC : T3 := [[[1]]].

(** A lane with two state dimensions and six tokens, as in the
    sequence length of the specification's scenario. *)
Definition demo_lane : lane :=
  {| lane_A := [-1; -2]; lane_D := 1; lane_dt_bias := 0 |}.

Definition demo_token (x : R) : token :=
  {| tok_dt := x; tok_x := x; tok_B := [1; x]; tok_C := [x; 1];
     tok_z := None |}.

Definition six_tokens : list token :=
  map demo_token [1; 2; 3; 4; 5; 6].

(** Two inputs of shape (1, 3, 3) that agree up to position 1 and
    differ at position 2. *)
Definition demo_xBC : T3 := [[[1; 2; 3]; [4; 5; 6]; [7; 8; 9]]].
Definition demo_xBC' : T3 := [[[1; 2; 30]; [4; 5; 60]; [7; 8; 90]]].

(** The layer the constructor returns for [tiny_args] on one shard. *)
Definition tiny_layer (cfg : TransformerConfig) (idx : option Z) : Mamba :=
  {| config := cfg;
     d_model := 1; d_state := 1; d_conv := 2; conv_init := None;
     expand := 1; d_inner := 1; headdim := 1; ngroups := 1; nheads := 1;
     D_has_hdim := false; rmsnorm := true; norm_before_gate := false;
     chunk_size := 128; use_fast_path := true; layer_idx := idx;
     tensor_model_parallel_size := 1;
     d_inner_local := 1; ngroups_local := 1; nheads_local := 1;
     in_proj := {| weight := [[1]; [1]; [1]; [1]; [1]] |};
     conv1d := {| conv_weight := [[1; 1]; [1; 1]; [1; 1]];
                  conv_bias := Some [0; 0; 0];
                  conv_padding := 1 |};
     activation := "silu";
     dt_bias := [inv_softplus
                   (dt_sample (ln (1 / 1000)) (ln (1 / 10)) (1 / 10000) (1 / 2))];
     A_log := [ln (uniform 1 16 0)];
     D := [1];
     norm := Some {| norm_weight := [1]; norm_eps := 1 / 100000 |};
     out_proj := {| weight := [[1]] |} |}.

(** Stores: a fresh session, and a session whose dictionary already
    holds buffers of the cache's shapes for layer 0, as a caller that
    ran [allocate_inference_cache] with an explicit dtype leaves it. *)
Definition empty_store : Store :=
  {| heap := []; key_value_memory_dict := ∅ |}.

Definition prefilled_store : Store :=
  {| heap := [zeros3 1 1 2; zeros3 1 1 1];
     key_value_memory_dict := <[0%Z := (0%nat, 1%nat)]> ∅ |}.

Definition prefill : InferenceParams := {| seqlen_offset := 0 |}.
Definition decode : InferenceParams := {| seqlen_offset := 1 |}.

(** A computation that raises from every store. *)
Definition fails {A : Type} (m : M A) : Prop :=
  forall σ, exists e σ', m σ = (Err e, σ').

(** Stand-ins for the imported kernels, for tracing concrete calls: the
    optional imports absent, the collectives of a single shard, and
    kernels that are never reached on the traced paths. *)
Definition no_scan : T4 -> T3 -> T1 -> T4 -> T4 -> Z -> list R + list (list R) ->
    option (list (list (list (list R)))) -> T1 -> bool -> bool ->
    result (list (list (list (list R))) * option (list (list (list R)))) :=
  fun _ _ _ _ _ _ _ _ _ _ _ => Err RuntimeError.

Definition no_norm : RMSNorm -> T3 -> T3 -> result (list (list (list R))) :=
  fun _ _ _ => Err RuntimeError.

Definition no_projection : Mamba -> pyval -> T2 -> T2 -> loc -> loc ->
    M (list (list (list R)) * loc * loc) :=
  fun _ _ _ _ _ _ => liftR (Err RuntimeError).

Definition single_shard (t : T3) : T3 := t.

Definition step_ref : Mamba -> T3 -> loc -> loc -> M (list (list (list R)) * loc * loc) :=
  step None no_projection.

Definition forward_ref : Mamba -> T3 -> option InferenceParams -> M (list (list (list R))) :=
  forward None None no_scan no_norm single_shard single_shard single_shard
          single_shard no_projection.

(** A session whose convolution buffer has one row per convolved
    channel (three for the smallest layer). *)
Definition wide_store : Store :=
  {| heap := [zeros3 1 3 2; zeros3 1 1 1];
     key_value_memory_dict := <[0%Z := (0%nat, 1%nat)]> ∅ |}.

(** ** The constructed layer as a function of the arguments

    The record [__init__] returns when none of its checks raises. *)
Definition init_result (ws : Z) (draws : Draws) (a : MambaArgs) : Mamba :=
  let d_inner := (arg_expand a * arg_d_model a)%Z in
  let nheads := (d_inner / arg_headdim a)%Z in
  let d_inner_local := (d_inner / ws)%Z in
  let ngroups_local := (arg_ngroups a / ws)%Z in
  let nheads_local := (nheads / ws)%Z in
  let conv_dim := (d_inner_local + 2 * ngroups_local * arg_d_state a)%Z in
  {| config := arg_config a;
     d_model := arg_d_model a;
     d_state := arg_d_state a;
     d_conv := arg_d_conv a;
     conv_init := arg_conv_init a;
     expand := arg_expand a;
     d_inner := d_inner;
     headdim := arg_headdim a;
     ngroups := arg_ngroups a;
     nheads := nheads;
     D_has_hdim := arg_D_has_hdim a;
     rmsnorm := arg_rmsnorm a;
     norm_before_gate := arg_norm_before_gate a;
     chunk_size := arg_chunk_size a;
     use_fast_path := arg_use_fast_path a;
     layer_idx := arg_layer_idx a;
     tensor_model_parallel_size := ws;
     d_inner_local := d_inner_local;
     ngroups_local := ngroups_local;
     nheads_local := nheads_local;
     in_proj :=
       {| weight :=
            tabulate ((d_inner * 2 + 2 * arg_ngroups a * arg_d_state a + nheads) / ws)
              (fun i => tabulate (arg_d_model a) (in_proj_init draws i)) |};
     conv1d :=
       {| conv_weight :=
            match arg_conv_init a with
            | Some c => tabulate conv_dim (fun i =>
                          tabulate (arg_d_conv a) (fun j =>
                            uniform (- c) c (rand_conv draws i j)))
            | None => tabulate conv_dim (fun i =>
                        tabulate (arg_d_conv a) (conv_weight_init draws i))
            end;
          conv_bias := Some (tabulate conv_dim (conv_bias_init draws));
          conv_padding := arg_d_conv a - 1 |};
     activation := "silu";
     dt_bias :=
       map inv_softplus
         (tabulate nheads_local (fun i =>
            dt_sample (ln (arg_dt_min a)) (ln (arg_dt_max a))
                      (arg_dt_init_floor a) (rand_dt draws i)));
     A_log :=
       map ln (tabulate nheads_local (fun i =>
                 uniform (arg_A_init_range a).1 (arg_A_init_range a).2
                         (rand_A draws i)));
     D := ones1 (Z.to_nat (if arg_D_has_hdim a then d_inner_local
                           else nheads_local));
     norm :=
       if arg_rmsnorm a then
         Some {| norm_weight := ones1 (Z.to_nat d_inner_local);
                 norm_eps := 1 / 100000 |}
       else None;
     out_proj :=
       {| weight := tabulate (arg_d_model a) (fun i =>
                      tabulate d_inner_local (out_proj_init draws i)) |} |}.

(** The scenario's arguments with another pair of bias flags. *)
Definition scenario_with_bias (bias conv_bias : bool) : MambaArgs :=
  {| arg_config := plain_config; arg_d_model := 16;
     arg_d_state := 8; arg_d_conv := 4; arg_conv_init := None;
     arg_expand := 2; arg_headdim := 8; arg_ngroups := 1;
     arg_A_init_range := (1, 16); arg_D_has_hdim := false;
     arg_rmsnorm := true; arg_norm_before_gate := false;
     arg_dt_min := 1 / 1000; arg_dt_max := 1 / 10;
     arg_dt_init_floor := 1 / 10000; arg_bias := bias;
     arg_conv_bias := conv_bias; arg_chunk_size := 128;
     arg_use_fast_path := true; arg_layer_idx := None |}.

(** ** What a computation may write

    [keeps_store m]: from every store, [m] ends in the store it started
    from.  [writes_only c m]: from every store, [m] leaves the session
    dictionary, the number of buffers and every buffer other than [c]
    as they were. *)
Definition keeps_store {A : Type} (m : M A) : Prop :=
  forall σ, (m σ).2 = σ.

Definition frame (c : loc) (σ σ' : Store) : Prop :=
  key_value_memory_dict σ' = key_value_memory_dict σ /\
  length (heap σ') = length (heap σ) /\
  forall l, l <> c -> heap σ' !! l = heap σ !! l.

Definition writes_only {A : Type} (c : loc) (m : M A) : Prop :=
  forall σ, frame c σ (m σ).2.

(** ** The skip connection and the gate alone

    [u * D * silu(z)] entry by entry, for [u] and [z] of shape (L, B, D)
    and [D] of shape (D): what is left of the scan's output when the
    state contributes nothing. *)
Definition skip_gate (u : T3) (D : T1) (z : T3) : T3 :=
  zip_with (zip_with (zip_with Rmult))
           (map (map (fun row => zip_with Rmult row D)) u)
           (map3 silu z).

(** [t] is a rank-4 tensor of shape (n1, n2, n3, n4). *)
Definition rect4 (n1 n2 n3 n4 : nat) (t : T4) : Prop :=
  length t = n1 /\ Forall (rect3 n2 n3 n4) t.

(** Kernels that return a tensor of the shape their contract asks
    for, as instances of that contract: the scan returns its input [x],
    the gated norm its input [y]. *)
Definition scan_like_x : T4 -> T3 -> T1 -> T4 -> T4 -> Z -> list R + list (list R) ->
    option (list (list (list (list R)))) -> T1 -> bool -> bool ->
    result (list (list (list (list R))) * option (list (list (list R)))) :=
  fun x _ _ _ _ _ _ _ _ _ _ => Ok (x, None).

Definition norm_like_y : RMSNorm -> T3 -> T3 -> result (list (list (list R))) :=
  fun _ y _ => Ok y.

(** The arguments [a] with another [conv_init]. *)
Definition args_with_conv_init (a : MambaArgs) (c : option R) : MambaArgs :=
  {| arg_config := arg_config a;
     arg_d_model := arg_d_model a;
     arg_d_state := arg_d_state a;
     arg_d_conv := arg_d_conv a;
     arg_conv_init := c;
     arg_expand := arg_expand a;
     arg_headdim := arg_headdim a;
     arg_ngroups := arg_ngroups a;
     arg_A_init_range := arg_A_init_range a;
     arg_D_has_hdim := arg_D_has_hdim a;
     arg_rmsnorm := arg_rmsnorm a;
     arg_norm_before_gate := arg_norm_before_gate a;
     arg_dt_min := arg_dt_min a;
     arg_dt_max := arg_dt_max a;
     arg_dt_init_floor := arg_dt_init_floor a;
     arg_bias := arg_bias a;
     arg_conv_bias := arg_conv_bias a;
     arg_chunk_size := arg_chunk_size a;
     arg_use_fast_path := arg_use_fast_path a;
     arg_layer_idx := arg_layer_idx a |}.

(** The scenario's arguments with another [dt_init_floor]; the
    constructor does not look at its sign. *)
Definition scenario_with_floor (dt_init_floor : R) : MambaArgs :=
  {| arg_config := plain_config; arg_d_model := 16;
     arg_d_state := 8; arg_d_conv := 4; arg_conv_init := None;
     arg_expand := 2; arg_headdim := 8; arg_ngroups := 1;
     arg_A_init_range := (1, 16); arg_D_has_hdim := false;
     arg_rmsnorm := true; arg_norm_before_gate := false;
     arg_dt_min := 1 / 1000; arg_dt_max := 1 / 10;
     arg_dt_init_floor := dt_init_floor; arg_bias := false;
     arg_conv_bias := true; arg_chunk_size := 128;
     arg_use_fast_path := true; arg_layer_idx := Some 0%Z |}.

(** * Properties *)

(** ** The tensor operations on small inputs *)

Ltac list_lra :=
  repeat match goal with
         | |- Ok _ = Ok _ => f_equal
         | |- (_ :: _) = (_ :: _) => apply f_equal2
         | |- @eq R _ _ => lra
         | |- _ => reflexivity
         end.

Example rearrange_demo :
  rearrange_lbd_bdl [[[1; 2]]; [[3; 4]]; [[5; 6]]] = [[[1; 3; 5]; [2; 4; 6]]] /\
  rearrange_bdl_lbd [[[1; 3; 5]; [2; 4; 6]]] = [[[1; 2]]; [[3; 4]]; [[5; 6]]].
Proof. split; reflexivity. Qed.

Example split_row_demo :
  split_row [1; 3; 1]%Z [1; 2; 3; 4; 5] = Ok [[1]; [2; 3; 4]; [5]] /\
  split_row [1; 3]%Z [1; 2; 3; 4; 5] = Err RuntimeError.
Proof. split; reflexivity. Qed.

Example chunk2_demo :
  chunk2 [[1; 2; 3; 4; 5]] = Ok ([[1; 2; 3]], [[4; 5]]).
Proof. reflexivity. Qed.

Example pad_left_demo :
  pad_left 2 [7] = [0; 0; 7] /\ pad_left (-1) [7; 8; 9] = [8; 9].
Proof. split; reflexivity. Qed.

Example roll_last_demo : roll_last [[[1; 2; 3]]] = [[[2; 3; 1]]].
Proof. reflexivity. Qed.

Example broadcast_demo :
  bc3 Rplus [[[1; 2]]; [[3; 4]]] [[[10; 20]]]
    = Ok [[[1 + 10; 2 + 20]]; [[3 + 10; 4 + 20]]] /\
  bc2 Rplus [[1; 2; 3]] [[1; 2]] = Err RuntimeError.
Proof. split; reflexivity. Qed.

(** Kernel [1, 1] with one zero on each side: four outputs, of which the
    forward pass keeps the first three. *)
Example conv1d_channel_demo :
  conv1d_channel 1 [1; 1] 0 [1; 2; 3] = Ok [1; 3; 5; 3].
Proof. unfold conv1d_channel. simpl. list_lra. Qed.


(** ** Scalar facts *)

Lemma softplus_pos (x : R) : 0 < softplus x.
Proof.
  unfold softplus, softplus_threshold.
  destruct (Rlt_dec 20 x) as [Hx | Hx]; [lra |].
  rewrite <- ln_1. apply ln_increasing; [lra |].
  pose proof (exp_pos x). lra.
Qed.

Lemma exp_neg_lt_1 (x : R) : 0 < x -> exp (- x) < 1.
Proof.
  intros Hx. rewrite <- exp_0. apply exp_increasing. lra.
Qed.

Lemma inv_softplus_le (dt : R) : 0 < dt -> inv_softplus dt < dt.
Proof.
  intros Hdt. unfold inv_softplus, expm1.
  pose proof (exp_neg_lt_1 dt Hdt) as H1.
  pose proof (exp_pos (- dt)) as H2.
  assert (ln (- (exp (- dt) - 1)) < 0); [| lra].
  rewrite <- ln_1. apply ln_increasing; lra.
Qed.

Lemma softplus_inv_softplus (dt : R) :
  0 < dt -> dt <= softplus_threshold -> softplus (inv_softplus dt) = dt.
Proof.
  intros Hdt Hmax.
  pose proof (inv_softplus_le dt Hdt) as Hlt.
  unfold softplus. destruct (Rlt_dec softplus_threshold (inv_softplus dt)); [lra |].
  unfold inv_softplus, expm1.
  pose proof (exp_neg_lt_1 dt Hdt) as H1.
  rewrite exp_plus, exp_ln by lra.
  replace (1 + exp dt * - (exp (- dt) - 1))
    with (1 + exp dt - exp dt * exp (- dt)) by ring.
  rewrite <- exp_plus. replace (dt + - dt) with 0 by ring.
  rewrite exp_0. replace (1 + exp dt - 1) with (exp dt) by ring.
  apply ln_exp.
Qed.

Lemma exp_decay_bounds (dt a : R) :
  0 < dt -> a < 0 -> 0 < exp (dt * a) <= 1.
Proof.
  intros Hdt Ha. split; [apply exp_pos |].
  left. rewrite <- exp_0. apply exp_increasing. nra.
Qed.

(** ** The error monad *)

Lemma bind_Ok {A B : Type} (m : result A) (f : A -> result B) (b : B) :
  m ≫= f = Ok b -> exists a, m = Ok a /\ f a = Ok b.
Proof.
  destruct m as [a | e]; simpl; intros H; [eauto | discriminate].
Qed.

Lemma assert_Ok (b : bool) (u : unit) : assert b = Ok u -> b = true.
Proof. destruct b; simpl; [reflexivity | discriminate]. Qed.

Lemma py_mod_Ok (a b r : Z) :
  py_mod a b = Ok r -> b <> 0%Z /\ r = (a mod b)%Z.
Proof.
  unfold py_mod. destruct (Z.eqb_spec b 0); [discriminate |].
  intros [= <-]. auto.
Qed.

Lemma py_floordiv_Ok (a b q : Z) :
  py_floordiv a b = Ok q -> b <> 0%Z /\ q = (a / b)%Z.
Proof.
  unfold py_floordiv. destruct (Z.eqb_spec b 0); [discriminate |].
  intros [= <-]. auto.
Qed.

Lemma math_log_Ok (x l : R) : math_log x = Ok l -> 0 < x /\ l = ln x.
Proof.
  unfold math_log. destruct (Rlt_dec 0 x); [| discriminate].
  intros [= <-]. auto.
Qed.

(** Peel the leading bind of a hypothesis [m ≫= f = Ok b]. *)
Tactic Notation "peel" hyp(H) ident(a) ident(Ha) :=
  apply bind_Ok in H; destruct H as (a & Ha & H).

(** Stdlib's [map] is stdpp's [fmap] on lists. *)
Lemma map_fmap {A B : Type} (f : A -> B) (l : list A) : map f l = f <$> l.
Proof. reflexivity. Qed.

Lemma lookup_tabulate {A : Type} (n : Z) (f : nat -> A) (i : nat) (a : A) :
  tabulate n f !! i = Some a -> (i < Z.to_nat n)%nat /\ a = f i.
Proof.
  unfold tabulate. rewrite map_fmap, list_lookup_fmap. intros H.
  destruct (seq 0 (Z.to_nat n) !! i) as [j |] eqn:Hj; [| discriminate].
  apply lookup_seq in Hj as [-> Hlt]. injection H as <-. auto.
Qed.

Lemma nth_map_seq {A : Type} (f : nat -> A) (n len : nat) (d : A) :
  (n < len)%nat -> nth n (map f (seq 0 len)) d = f n.
Proof.
  intros Hn. rewrite (nth_indep _ d (f 0%nat))
    by (rewrite length_map, length_seq; exact Hn).
  rewrite (map_nth f), seq_nth by exact Hn. reflexivity.
Qed.

(** ** The constructor *)

(** What a successful construction has checked and computed. *)
Lemma init_Ok (ws : Z) (draws : Draws) (a : MambaArgs) (self : Mamba) :
  __init__ ws draws a = Ok self ->
  let di := (arg_expand a * arg_d_model a)%Z in
  (arg_headdim a <> 0 /\ ws <> 0 /\
   di mod arg_headdim a = 0 /\ di mod ws = 0 /\
   arg_ngroups a mod ws = 0 /\ (di / arg_headdim a) mod ws = 0)%Z /\
  0 < arg_dt_max a /\ 0 < arg_dt_min a /\
  d_inner self = di /\
  nheads self = (di / arg_headdim a)%Z /\
  ngroups self = arg_ngroups a /\
  tensor_model_parallel_size self = ws /\
  d_inner_local self = (di / ws)%Z /\
  ngroups_local self = (arg_ngroups a / ws)%Z /\
  nheads_local self = (di / arg_headdim a / ws)%Z /\
  dt_bias self =
    map inv_softplus
      (tabulate (di / arg_headdim a / ws) (fun i =>
         dt_sample (ln (arg_dt_min a)) (ln (arg_dt_max a))
                   (arg_dt_init_floor a) (rand_dt draws i))).
Proof.
  unfold __init__. intros H.
  peel H r1 H1. apply py_mod_Ok in H1 as [Hh ->].
  peel H u1 A1. apply assert_Ok, Z.eqb_eq in A1.
  peel H nh H2. apply py_floordiv_Ok in H2 as [_ ->].
  cbv zeta in H.
  peel H r2 H3. apply py_mod_Ok in H3 as [Hw ->].
  peel H u2 A2. apply assert_Ok, Z.eqb_eq in A2.
  peel H r3 H4. apply py_mod_Ok in H4 as [_ ->].
  peel H u3 A3. apply assert_Ok, Z.eqb_eq in A3.
  peel H r4 H5. apply py_mod_Ok in H5 as [_ ->].
  peel H u4 A4. apply assert_Ok, Z.eqb_eq in A4.
  peel H u5 A5.
  peel H dil H6. apply py_floordiv_Ok in H6 as [_ ->].
  peel H ngl H7. apply py_floordiv_Ok in H7 as [_ ->].
  peel H nhl H8. apply py_floordiv_Ok in H8 as [_ ->].
  peel H po H9.
  cbv zeta in H.
  peel H u6 A6.
  peel H lmax L1. apply math_log_Ok in L1 as [Hmax ->].
  peel H lmin L2. apply math_log_Ok in L2 as [Hmin ->].
  destruct (arg_A_init_range a) as [lo hi].
  peel H u7 A7.
  peel H opi H10.
  injection H as <-. simpl.
  repeat split; auto.
Qed.

(** C3.  Construction fails with a configuration error (an assertion,
    or a division by a zero divisor) unless the shard count divides the
    inner width, the head count and the group count, and the head
    dimension divides the inner width; after a successful construction
    each local width times the shard count is the unsharded width. *)
Theorem init_shard_widths (ws : Z) (draws : Draws) (a : MambaArgs) :
  let di := (arg_expand a * arg_d_model a)%Z in
  let nh := (di / arg_headdim a)%Z in
  (~ ((ws | di) /\ (ws | nh) /\ (ws | arg_ngroups a) /\ (arg_headdim a | di))%Z ->
   __init__ ws draws a = Err AssertionError \/
   __init__ ws draws a = Err ZeroDivisionError) /\
  (forall self, __init__ ws draws a = Ok self ->
     d_inner self = di /\ nheads self = nh /\ ngroups self = arg_ngroups a /\
     (d_inner_local self * ws = d_inner self)%Z /\
     (ngroups_local self * ws = ngroups self)%Z /\
     (nheads_local self * ws = nheads self)%Z).
Proof.
  intros di nh. split.
  - intros Hn. unfold __init__, py_mod, py_floordiv. fold di.
    destruct (Z.eqb_spec (arg_headdim a) 0) as [| Hh]; [right; reflexivity |].
    cbn [mbind result_bind assert]. fold nh.
    destruct (Z.eqb_spec (di mod arg_headdim a) 0) as [M1 |];
      [| left; reflexivity].
    cbn [mbind result_bind assert].
    destruct (Z.eqb_spec ws 0) as [| Hw]; [right; reflexivity |].
    cbn [mbind result_bind assert].
    destruct (Z.eqb_spec (di mod ws) 0) as [M2 |]; [| left; reflexivity].
    cbn [mbind result_bind assert].
    destruct (Z.eqb_spec (arg_ngroups a mod ws) 0) as [M3 |];
      [| left; reflexivity].
    cbn [mbind result_bind assert].
    destruct (Z.eqb_spec (nh mod ws) 0) as [M4 |]; [| left; reflexivity].
    exfalso. apply Hn. repeat split; apply Z.mod_divide; assumption.
  - intros self E.
    apply init_Ok in E
      as ((Hh & Hw & M1 & M2 & M3 & M4) & _ & _ & -> & -> & -> & _ & -> & -> & -> & _).
    fold di. fold nh. fold di in M2, M4. fold nh in M4.
    repeat split.
    + apply Z.mod_divide in M2 as [q Hq]; [| assumption].
      rewrite Hq, Z.div_mul by assumption. reflexivity.
    + apply Z.mod_divide in M3 as [q Hq]; [| assumption].
      rewrite Hq, Z.div_mul by assumption. reflexivity.
    + apply Z.mod_divide in M4 as [q Hq]; [| assumption].
      rewrite Hq, Z.div_mul by assumption. reflexivity.
Qed.

(** The constructor succeeds on these conditions (under the standing
    assumption on the framework's constructors). *)
Lemma init_succeeds (ws : Z) (draws : Draws) (a : MambaArgs) :
  let di := (arg_expand a * arg_d_model a)%Z in
  (arg_headdim a <> 0 /\ ws <> 0 /\
   di mod arg_headdim a = 0 /\ di mod ws = 0 /\
   arg_ngroups a mod ws = 0 /\ (di / arg_headdim a) mod ws = 0)%Z ->
  arg_bias a = false -> arg_conv_bias a = true ->
  0 < arg_dt_max a -> 0 < arg_dt_min a ->
  0 < (arg_A_init_range a).1 <= (arg_A_init_range a).2 ->
  exists self, __init__ ws draws a = Ok self.
Proof.
  intros di (Hh & Hw & M1 & M2 & M3 & M4) Hb Hcb Hmax Hmin HA.
  unfold __init__, py_mod, py_floordiv, math_log. fold di.
  destruct (Z.eqb_spec (arg_headdim a) 0); [contradiction |].
  destruct (Z.eqb_spec ws 0); [contradiction |].
  cbn [mbind result_bind]. rewrite M1, M2, M3, M4, Hb, Hcb.
  cbn [mbind result_bind assert Z.eqb negb].
  destruct (Rlt_dec 0 (arg_dt_max a)); [| contradiction].
  destruct (Rlt_dec 0 (arg_dt_min a)); [| contradiction].
  cbn [mbind result_bind].
  destruct (arg_A_init_range a) as [lo hi]. simpl in HA.
  rewrite !bool_decide_eq_true_2 by tauto.
  cbn [mbind result_bind assert andb]. eauto.
Qed.

Lemma scenario_init :
  exists self, __init__ 1 const_draws scenario_args = Ok self.
Proof.
  apply init_succeeds; try reflexivity; simpl; try lra.
  repeat split; try discriminate; reflexivity.
Qed.

Lemma tiny_init (cfg : TransformerConfig) (idx : option Z) :
  exists self, __init__ 1 const_draws (tiny_args cfg idx) = Ok self.
Proof.
  apply init_succeeds; try reflexivity; simpl; try lra.
  repeat split; try discriminate; reflexivity.
Qed.

Lemma init_shard_widths_witness :
  exists self,
    __init__ 1 const_draws scenario_args = Ok self /\
    (d_inner_local self * 1 = 32)%Z /\
    (ngroups_local self * 1 = 1)%Z /\
    (nheads_local self * 1 = 4)%Z.
Proof.
  destruct scenario_init as [self E]. exists self.
  split; [exact E |].
  destruct (proj2 (init_shard_widths 1 const_draws scenario_args) self E)
    as (H1 & H2 & H3 & H4 & H5 & H6).
  rewrite H4, H5, H6, H1, H2, H3. repeat split; reflexivity.
Defined.

(** ** The decay parameter *)

(** Over the reals, which is how tensor elements are modelled here,
    every entry of [A = -exp(A_log)] is strictly negative, and the
    transition factor [exp(dt_eff * A)] lies in (0, 1] for every
    strictly positive [dt_eff].  The float32 tensor the code computes
    is outside this model: there [torch.exp] underflows to zero for
    [A_log] of about -104 and below and overflows for large [A_log], so
    this lemma says nothing about such entries of the program's [A]. *)
Lemma decay_negative_over_reals (A_log : T1) (a dt_eff : R) :
  In a (decay A_log) ->
  a < 0 /\ (0 < dt_eff -> 0 < exp (dt_eff * a) <= 1).
Proof.
  unfold decay. intros Hin. apply in_map_iff in Hin as (x & <- & _).
  pose proof (exp_pos x) as Hx.
  split; [lra |]. intros Hdt. apply exp_decay_bounds; lra.
Qed.

(** ** Initialisation of the gating bias *)

Lemma ln_mono (x y : R) : 0 < x -> x <= y -> ln x <= ln y.
Proof.
  intros Hx [Hlt | ->]; [| lra]. left. apply ln_increasing; assumption.
Qed.

Lemma exp_mono (x y : R) : x <= y -> exp x <= exp y.
Proof.
  intros [Hlt | ->]; [| lra]. left. apply exp_increasing; assumption.
Qed.

(** The sampled timestep lies between the floor and [dt_max], and is
    strictly positive. *)
Lemma dt_sample_range (dt_min dt_max dt_init_floor r : R) :
  0 < dt_min <= dt_max -> dt_init_floor <= dt_max -> 0 <= r < 1 ->
  let dt := dt_sample (ln dt_min) (ln dt_max) dt_init_floor r in
  0 < dt /\ dt_init_floor <= dt <= dt_max.
Proof.
  intros [Hmin Hle] Hfl [Hr0 Hr1]. unfold dt_sample, clamp_min.
  pose proof (ln_mono dt_min dt_max Hmin Hle) as Hln.
  set (e := r * (ln dt_max - ln dt_min) + ln dt_min).
  assert (He : exp e <= dt_max).
  { apply Rle_trans with (exp (ln dt_max)).
    - apply exp_mono. unfold e. nra.
    - rewrite exp_ln by lra. lra. }
  pose proof (exp_pos e) as Hpos.
  pose proof (Rmax_l (exp e) dt_init_floor).
  pose proof (Rmax_r (exp e) dt_init_floor).
  assert (Rmax (exp e) dt_init_floor <= dt_max) by (apply Rmax_lub; lra).
  simpl. lra.
Qed.

(** Below the threshold branch softplus undoes the stored inverse
    exactly, for every positive timestep. *)
Lemma log1p_exp_inv_softplus (dt : R) :
  0 < dt -> ln (1 + exp (inv_softplus dt)) = dt.
Proof.
  intros Hdt. unfold inv_softplus, expm1.
  pose proof (exp_neg_lt_1 dt Hdt) as H1.
  rewrite exp_plus, exp_ln by lra.
  replace (1 + exp dt * - (exp (- dt) - 1))
    with (1 + exp dt - exp dt * exp (- dt)) by ring.
  rewrite <- exp_plus. replace (dt + - dt) with 0 by ring.
  rewrite exp_0. replace (1 + exp dt - 1) with (exp dt) by ring.
  apply ln_exp.
Qed.

Lemma exp_neg_threshold_small : exp (- softplus_threshold) <= 1 / 2.
Proof.
  unfold softplus_threshold. rewrite exp_Ropp.
  pose proof (exp_ineq1_le 20) as H.
  apply Rle_trans with (/ 2); [| lra].
  apply Rinv_le_contravar; lra.
Qed.

(** [-ln (1 - y) <= 2 y] for [0 < y <= 1/2]. *)
Lemma ln_one_minus_lower (y : R) : 0 < y <= 1 / 2 -> - (2 * y) <= ln (1 - y).
Proof.
  intros [Hy0 Hy1].
  rewrite <- (ln_exp (- (2 * y))). apply ln_mono; [apply exp_pos |].
  rewrite exp_Ropp.
  pose proof (exp_ineq1_le (2 * y)) as H.
  apply Rle_trans with (/ (1 + 2 * y)).
  - apply Rinv_le_contravar; lra.
  - apply Rmult_le_reg_r with (1 + 2 * y); [lra |].
    rewrite Rinv_l by lra. nra.
Qed.

(** Where the stored inverse exceeds the threshold, softplus returns it
    unchanged, and it misses the timestep by [-ln (1 - exp (-dt))]. *)
Lemma softplus_inv_softplus_near (dt : R) :
  0 < dt ->
  Rabs (softplus (inv_softplus dt) - dt) <= 2 * exp (- softplus_threshold) /\
  (dt <= softplus_threshold -> softplus (inv_softplus dt) = dt).
Proof.
  intros Hdt. pose proof (inv_softplus_le dt Hdt) as Hlt.
  pose proof (exp_pos (- softplus_threshold)) as Hp.
  split.
  - unfold softplus.
    destruct (Rlt_dec softplus_threshold (inv_softplus dt)) as [Hgt | Hle].
    + rewrite Rabs_left by lra.
      assert (Hy : exp (- dt) < exp (- softplus_threshold))
        by (apply exp_increasing; lra).
      pose proof (exp_pos (- dt)) as Hy0.
      pose proof exp_neg_threshold_small as Hs.
      pose proof (ln_one_minus_lower (exp (- dt))) as Hln.
      unfold inv_softplus, expm1 in *.
      replace (- (exp (- dt) - 1)) with (1 - exp (- dt)) in * by ring.
      lra.
    + rewrite log1p_exp_inv_softplus by exact Hdt.
      replace (dt - dt) with 0 by ring. rewrite Rabs_R0. lra.
  - intros Hmax. apply softplus_inv_softplus; assumption.
Qed.

(** The timestep sampled for a head is positive, whatever the floor. *)
Lemma dt_sample_pos (log_dt_min log_dt_max dt_init_floor r : R) :
  0 < dt_sample log_dt_min log_dt_max dt_init_floor r.
Proof.
  unfold dt_sample, clamp_min.
  eapply Rlt_le_trans; [apply exp_pos | apply Rmax_l].
Qed.




(** ** The reference selective scan *)

Lemma softplus_0 : softplus 0 = ln 2.
Proof.
  unfold softplus, softplus_threshold.
  destruct (Rlt_dec 20 0); [lra |].
  rewrite exp_0. replace (1 + 1) with 2 by lra. reflexivity.
Qed.

Lemma ln_2_pos : 0 < ln 2.
Proof. rewrite <- ln_1. apply ln_increasing; lra. Qed.

(** The loop hands back the state it was given, or none. *)
Lemma scan_loop_last_state (x C : T3) (L : nat) (idx : list nat)
    (ys ys' : list (list (list R))) (ls ls' : option (list (list (list R)))) :
  scan_loop x C L idx ys ls = Ok (ys', ls') -> ls' = ls \/ ls' = Some x.
Proof.
  revert ys ls. induction idx as [| i idx IH]; simpl; intros ys ls H.
  - injection H as _ <-. auto.
  - peel H Ci HC. peel H y Hy. apply IH in H.
    destruct (Nat.eqb i (L - 1)); destruct H as [H | H]; auto.
Qed.

(** Whatever the inputs, a returned [last_state] is the zero state the
    scan started from. *)
Lemma selective_scan_ref_last_state_zero (u delta : T3) (A : T2) (B C : T3)
    (D : option (list R)) (z : option (list (list (list R))))
    (delta_bias : option (list R)) (sp : bool) (out st : T3) :
  selective_scan_ref u delta A B C D z delta_bias sp true = Ok (out, Some st) ->
  st = zeros3 (size1 u) (length A) (size1 A).
Proof.
  unfold selective_scan_ref. intros H.
  peel H d Hd. cbv zeta in H. peel H r Hr. destruct r as [ys ls].
  peel H y Hy. peel H o1 Ho1. peel H o2 Ho2.
  injection H as _ ->.
  apply scan_loop_last_state in Hr as [Hr | Hr]; [discriminate |].
  injection Hr as ->. reflexivity.
Qed.

(** C1, at one token.  The recurrence of the specification gives the
    state [softplus(0) * 1 * 1 = ln 2] and the output [ln 2 + 1];
    [selective_scan_ref] returns the zero state and the output [1]: its
    loop never assigns the state. *)
Theorem selective_scan_ref_skips_recurrence :
  selective_scan_ref unit_u unit_delta unit_A unit_BC unit_BC
                     (Some [1]) None (Some [0]) true true
    = Ok ([[[0 * 1 + 0 + 1 * 1]]], Some [[[0]]]) /\
  0 * 1 + 0 + 1 * 1 = 1 /\
  spec_selective_scan unit_u unit_delta unit_A unit_BC unit_BC
                      (Some [1]) None (Some [0])
    = ([[[1 * (exp (ln 2 * -1) * 0 + ln 2 * 1 * 1) + 0 + 1 * 1]]],
       [[[exp (ln 2 * -1) * 0 + ln 2 * 1 * 1]]]) /\
  exp (ln 2 * -1) * 0 + ln 2 * 1 * 1 = ln 2 /\
  ln 2 <> 0.
Proof.
  split; [reflexivity |]. split; [lra |]. split.
  - unfold spec_selective_scan. simpl.
    unfold ssm_out, ssm_step, A_disc, inject, dt_eff. simpl.
    unfold get3. simpl.
    replace (0 + 0) with 0 by lra. rewrite softplus_0. reflexivity.
  - split; [lra |]. pose proof ln_2_pos. lra.
Qed.

(** ** The chunked scan *)

Section ChunkedScan.
Variable N : nat.
Variable p : lane.

Lemma ssm_scan_state (h : T1) (ks : list token) :
  (ssm_scan N p h ks).2 = fold_left (ssm_step N p) ks h.
Proof.
  revert h. induction ks as [| k ks IH]; intros h; simpl; [reflexivity |].
  rewrite <- IH. destruct (ssm_scan N p (ssm_step N p h k) ks). reflexivity.
Qed.

Lemma ssm_scan_outputs (h : T1) (ks : list token) :
  (ssm_scan N p h ks).1 =
  imap (fun j k => ssm_out N p (fold_left (ssm_step N p) (take (S j) ks) h) k) ks.
Proof.
  revert h. induction ks as [| k ks IH]; intros h; simpl; [reflexivity |].
  specialize (IH (ssm_step N p h k)).
  destruct (ssm_scan N p (ssm_step N p h k) ks) as [ys hf]. simpl in *.
  f_equal. exact IH.
Qed.

Lemma ssm_scan_app (h : T1) (ks1 ks2 : list token) :
  ssm_scan N p h (ks1 ++ ks2) =
  ((ssm_scan N p h ks1).1 ++ (ssm_scan N p (ssm_scan N p h ks1).2 ks2).1,
   (ssm_scan N p (ssm_scan N p h ks1).2 ks2).2).
Proof.
  revert h. induction ks1 as [| k ks1 IH]; intros h; simpl.
  - destruct (ssm_scan N p h ks2). reflexivity.
  - rewrite IH. destruct (ssm_scan N p (ssm_step N p h k) ks1). reflexivity.
Qed.

Lemma nth_ssm_step (h : T1) (k : token) (n : nat) :
  (n < N)%nat ->
  nth n (ssm_step N p h k) 0 = A_disc p k n * nth n h 0 + inject p k n.
Proof.
  intros Hn. unfold ssm_step. rewrite nth_map_seq by exact Hn. reflexivity.
Qed.

Lemma decay_prod_cons (k : token) (ks : list token) (n : nat) :
  decay_prod p (k :: ks) n = A_disc p k n * decay_prod p ks n.
Proof. reflexivity. Qed.

Lemma contrib_cons (k : token) (ks : list token) (n : nat) :
  contrib p (k :: ks) n = decay_prod p ks n * inject p k n + contrib p ks n.
Proof. reflexivity. Qed.

(** The closed form of a non-empty run is the state the recurrence
    reaches after it. *)
Lemma closed_form_state (h : T1) (ks : list token) :
  ks <> [] ->
  map (fun n => decay_prod p ks n * nth n h 0 + contrib p ks n) (seq 0 N)
  = fold_left (ssm_step N p) ks h.
Proof.
  revert h. induction ks as [| k ks IH]; intros h Hne; [contradiction |].
  destruct ks as [| k' ks].
  - simpl. unfold ssm_step. apply map_ext. intros n.
    unfold contrib, decay_prod. simpl. ring.
  - change (fold_left (ssm_step N p) (k :: k' :: ks) h)
      with (fold_left (ssm_step N p) (k' :: ks) (ssm_step N p h k)).
    rewrite <- IH by discriminate.
    apply map_ext_in. intros n Hn. apply in_seq in Hn as [_ Hn].
    rewrite nth_ssm_step by exact Hn.
    rewrite decay_prod_cons, contrib_cons. ring.
Qed.

Lemma intra_state_seq (h : T1) (chunk : list token) (j : nat) :
  chunk <> [] ->
  intra_state N p h chunk j = fold_left (ssm_step N p) (take (S j) chunk) h.
Proof.
  intros Hne. unfold intra_state. apply closed_form_state.
  destruct chunk; [contradiction | discriminate].
Qed.

(** A chunk computed position by position from its incoming state is
    the recurrence run over the chunk. *)
Lemma chunk_scan_seq (h : T1) (chunk : list token) :
  chunk_scan N p h chunk = ssm_scan N p h chunk.
Proof.
  unfold chunk_scan.
  rewrite (surjective_pairing (ssm_scan N p h chunk)).
  rewrite ssm_scan_outputs, ssm_scan_state. f_equal.
  - apply imap_ext. intros j k Hk. f_equal.
    apply intra_state_seq. intros ->. discriminate.
  - destruct chunk as [| k ks]; [reflexivity |].
    rewrite intra_state_seq by discriminate.
    replace (S (length (k :: ks) - 1)) with (length (k :: ks)) by (simpl; lia).
    rewrite firstn_all. reflexivity.
Qed.

Lemma carry_chunks_concat (h : T1) (cs : list (list token)) :
  carry_chunks N p h cs = ssm_scan N p h (concat cs).
Proof.
  revert h. induction cs as [| c cs IH]; intros h; [reflexivity |].
  cbn [carry_chunks concat]. rewrite chunk_scan_seq, ssm_scan_app.
  destruct (ssm_scan N p h c) as [ys h']. rewrite IH. simpl.
  destruct (ssm_scan N p h' (concat cs)). reflexivity.
Qed.

Lemma concat_chunks_fuel (fuel chunk_size : nat) (ks : list token) :
  (0 < chunk_size)%nat -> (length ks <= fuel)%nat ->
  concat (chunks_fuel fuel chunk_size ks) = ks.
Proof.
  intros Hc. revert ks. induction fuel as [| fuel IH]; intros ks Hlen.
  - destruct ks; [reflexivity | simpl in Hlen; lia].
  - destruct ks as [| k ks]; [reflexivity |].
    cbn [chunks_fuel concat]. rewrite IH.
    + apply firstn_skipn.
    + rewrite length_skipn. simpl in *. lia.
Qed.

(** C2.  For every positive chunk size the chunked scan returns the
    per-token outputs and the final state of the sequential recurrence;
    so any two chunk sizes agree, one chunk or many. *)
Theorem chunked_scan_independent_of_chunk_size
    (ks : list token) (chunk_size chunk_size' : nat) :
  (0 < chunk_size)%nat -> (0 < chunk_size')%nat ->
  mamba_chunk_scan N p chunk_size ks = ssm_scan N p (zeros1 N) ks /\
  mamba_chunk_scan N p chunk_size ks = mamba_chunk_scan N p chunk_size' ks.
Proof.
  intros Hc Hc'.
  assert (Hseq : forall c, (0 < c)%nat ->
            mamba_chunk_scan N p c ks = ssm_scan N p (zeros1 N) ks).
  { intros c H. unfold mamba_chunk_scan, chunks.
    rewrite carry_chunks_concat, concat_chunks_fuel by (exact H || lia).
    reflexivity. }
  split; [apply Hseq; exact Hc |].
  rewrite !Hseq by assumption. reflexivity.
Qed.

End ChunkedScan.

(** Six tokens are one chunk of six or three chunks of two. *)
Lemma six_tokens_chunks :
  length (chunks 6 six_tokens) = 1%nat /\ length (chunks 2 six_tokens) = 3%nat.
Proof. split; reflexivity. Qed.

Lemma chunked_scan_independent_of_chunk_size_witness :
  mamba_chunk_scan 2 demo_lane 6 six_tokens
    = ssm_scan 2 demo_lane (zeros1 2) six_tokens /\
  mamba_chunk_scan 2 demo_lane 6 six_tokens
    = mamba_chunk_scan 2 demo_lane 2 six_tokens.
Proof.
  apply (chunked_scan_independent_of_chunk_size 2 demo_lane six_tokens 6 2); lia.
Defined.

(** ** The causal convolution *)

Lemma mapR_lookup {A B : Type} (f : A -> result B) (l : list A)
    (l' : list B) (i : nat) (a : A) :
  mapR f l = Ok l' -> l !! i = Some a ->
  exists b, f a = Ok b /\ l' !! i = Some b.
Proof.
  revert l' i. induction l as [| x l IH]; intros l' i H Hi; [discriminate |].
  simpl in H. peel H b Hb. peel H bs Hbs. injection H as <-.
  destruct i as [| i]; simpl in *.
  - injection Hi as ->. eauto.
  - eapply IH; eauto.
Qed.

Lemma mapR_Ok {A B : Type} (f : A -> result B) (l : list A) :
  (forall a, In a l -> exists b, f a = Ok b) -> exists l', mapR f l = Ok l'.
Proof.
  induction l as [| x l IH]; intros H; simpl; [eauto |].
  destruct (H x) as [b Hb]; [left; reflexivity |].
  destruct IH as [bs Hbs]; [intros a Ha; apply H; right; exact Ha |].
  rewrite Hb, Hbs. simpl. eauto.
Qed.

Lemma length_zeros1 (n : nat) : length (zeros1 n) = n.
Proof. apply repeat_length. Qed.

Lemma zip_with_take_r {A B C : Type} (f : A -> B -> C) (l : list A)
    (k : list B) :
  zip_with f l k = zip_with f l (take (length l) k).
Proof.
  revert k. induction l as [| a l IH]; intros [| b k]; simpl; f_equal; auto.
Qed.

(** The window of the padded input that output position [t] reads ends
    at input position [t]. *)
Lemma window_prefix (K t : nat) (x : T1) :
  (1 <= K)%nat -> (t < length x)%nat ->
  take K (drop t (zeros1 (K - 1) ++ x ++ zeros1 (K - 1)))
  = drop t (zeros1 (K - 1) ++ take (S t) x).
Proof.
  intros HK Ht. rewrite take_drop_commute. f_equal.
  rewrite take_app, length_zeros1.
  rewrite (take_ge (zeros1 (K - 1))) by (rewrite length_zeros1; lia).
  f_equal. replace (t + K - (K - 1))%nat with (S t) by lia.
  apply take_app_le. lia.
Qed.

Lemma conv1d_channel_lookup (pad : nat) (w : T1) (b : R) (x y : T1) (t : nat) :
  conv1d_channel pad w b x = Ok y ->
  (t < length x + 2 * pad + 1 - length w)%nat ->
  y !! t = Some (b + rsum (zip_with Rmult w
                             (drop t (zeros1 pad ++ x ++ zeros1 pad)))).
Proof.
  unfold conv1d_channel. intros H Ht.
  destruct (Nat.ltb _ _); [discriminate |]. injection H as <-.
  rewrite map_fmap, list_lookup_fmap, lookup_seq_lt; [reflexivity |].
  rewrite !length_app, !length_zeros1. lia.
Qed.

Lemma conv1d_channel_Ok (pad : nat) (w : T1) (b : R) (x : T1) :
  (length w <= length x + 2 * pad)%nat ->
  exists y, conv1d_channel pad w b x = Ok y.
Proof.
  intros H. unfold conv1d_channel.
  destruct (Nat.ltb_spec (length (zeros1 pad ++ x ++ zeros1 pad)) (length w))
    as [Hlt |]; [| eauto].
  rewrite !length_app, !length_zeros1 in Hlt. lia.
Qed.

Lemma rect3_size2 (n1 n2 n3 : nat) (t : T3) (m : list (list R)) (row : list R) :
  rect3 n1 n2 n3 t -> t !! 0%nat = Some m -> m !! 0%nat = Some row ->
  size2 t = n3.
Proof.
  intros [_ Ht] Hm Hrow.
  destruct t as [| m' t]; [discriminate |]. injection Hm as ->.
  destruct m as [| row' m]; [discriminate |]. injection Hrow as ->.
  apply Forall_cons in Ht as [[_ Hm] _].
  apply Forall_cons in Hm as [Hrow _]. exact Hrow.
Qed.

Lemma rect3_lookup (n1 n2 n3 : nat) (t : T3) (b c : nat) :
  rect3 n1 n2 n3 t -> (b < n1)%nat -> (c < n2)%nat ->
  exists m row,
    t !! b = Some m /\ m !! c = Some row /\ length m = n2 /\ length row = n3.
Proof.
  intros [Hlen Ht] Hb Hc.
  destruct (lookup_lt_is_Some_2 t b) as [m Hm]; [lia |].
  rewrite Forall_lookup in Ht. destruct (Ht b m Hm) as [Hm2 Hrows].
  destruct (lookup_lt_is_Some_2 m c) as [row Hrow]; [lia |].
  rewrite Forall_lookup in Hrows. eauto 10.
Qed.

(** What the convolution stage computes at every position of its
    output, for a kernel of width [K] padded by [K - 1]. *)
Lemma conv_act_at (self : Mamba) (K n1 n3 : nat) (x : T3) :
  (1 <= K)%nat ->
  conv_padding (conv1d self) = (Z.of_nat K - 1)%Z ->
  Forall (fun w => length w = K) (conv_weight (conv1d self)) ->
  rect3 n1 (length (conv_weight (conv1d self))) n3 x ->
  (1 <= n3)%nat ->
  exists y, conv_act self x = Ok y /\
    forall b c t m row,
      x !! b = Some m -> m !! c = Some row -> (t < n3)%nat ->
      at3 y b c t =
      Some (silu (from_option (fun bs => nth c bs 0) 0 (conv_bias (conv1d self))
                  + rsum (zip_with Rmult (nth c (conv_weight (conv1d self)) [])
                            (drop t (zeros1 (K - 1) ++ row ++ zeros1 (K - 1)))))).
Proof.
  intros HK Hpad HW Hx Hn3.
  assert (Hp : Z.to_nat (conv_padding (conv1d self)) = (K - 1)%nat) by lia.
  assert (HwK : forall i, (length (nth i (conv_weight (conv1d self)) []) <= K)%nat).
  { intros i. destruct (nth_in_or_default i (conv_weight (conv1d self)) [])
      as [Hin | ->]; [| simpl; lia].
    rewrite List.Forall_forall in HW. rewrite (HW _ Hin). lia. }
  destruct (mapR_Ok
    (fun xb =>
       if Nat.eqb (length xb) (length (conv_weight (conv1d self))) then
         mapR (fun '(i, xc) =>
                 conv1d_channel (Z.to_nat (conv_padding (conv1d self)))
                   (nth i (conv_weight (conv1d self)) [])
                   (from_option (fun bs => nth i bs 0) 0 (conv_bias (conv1d self)))
                   xc)
              (imap pair xb)
       else Err RuntimeError) x) as [y0 Hy0].
  { intros m Hm. destruct Hx as [_ Hx]. rewrite List.Forall_forall in Hx.
    destruct (Hx m Hm) as [Hlen Hrows]. rewrite Hlen, Nat.eqb_refl.
    apply mapR_Ok. intros [i row] Hin.
    apply list_elem_of_In, list_elem_of_lookup in Hin as [j Hj].
    rewrite list_lookup_imap in Hj.
    destruct (m !! j) as [row' |] eqn:Hrow; [| discriminate].
    injection Hj as <- <-.
    rewrite Forall_lookup in Hrows. specialize (Hrows j row' Hrow).
    apply conv1d_channel_Ok. specialize (HwK j). lia. }
  exists (map3 silu (map (map (take (size2 x))) y0)).
  split.
  { unfold conv_act, Conv1d_forward. rewrite Hy0. reflexivity. }
  intros b c t m row Hm Hrow Ht.
  assert (Hs : size2 x = n3).
  { destruct (rect3_lookup n1 _ n3 x 0 0 Hx) as (m0 & r0 & H0 & H1 & _).
    - apply lookup_lt_Some in Hm. destruct Hx as [<- _]. lia.
    - apply lookup_lt_Some in Hrow.
      destruct Hx as [_ Hx]. rewrite Forall_lookup in Hx.
      destruct (Hx b m Hm) as [<- _]. lia.
    - eapply rect3_size2; eauto. }
  rewrite Hs.
  destruct (mapR_lookup _ _ _ b m Hy0 Hm) as (yb & Hyb & Hlb).
  assert (Hm2 : length m = length (conv_weight (conv1d self)) /\
                length row = n3).
  { destruct Hx as [_ Hx]. rewrite Forall_lookup in Hx.
    destruct (Hx b m Hm) as [H1 H2]. split; [exact H1 |].
    rewrite Forall_lookup in H2. exact (H2 c row Hrow). }
  destruct Hm2 as [Hlm Hlr].
  rewrite Hlm, Nat.eqb_refl in Hyb.
  destruct (mapR_lookup _ _ _ c (c, row) Hyb) as (yc & Hyc & Hlc).
  { rewrite list_lookup_imap, Hrow. reflexivity. }
  simpl in Hyc. rewrite Hp in Hyc.
  assert (Hw : length (nth c (conv_weight (conv1d self)) []) = K).
  { rewrite List.Forall_forall in HW. apply HW, nth_In.
    apply lookup_lt_Some in Hrow. lia. }
  eapply conv1d_channel_lookup with (t := t) in Hyc; [| rewrite Hw; lia].
  unfold at3, map3, map2. rewrite !map_fmap, !list_lookup_fmap, Hlb. simpl.
  rewrite !list_lookup_fmap, Hlc. simpl.
  rewrite list_lookup_fmap, lookup_take_lt, Hyc by exact Ht. reflexivity.
Qed.

(** The convolution a constructed layer holds. *)
Lemma init_conv (ws : Z) (draws : Draws) (a : MambaArgs) (self : Mamba) :
  __init__ ws draws a = Ok self ->
  d_conv self = arg_d_conv a /\
  d_state self = arg_d_state a /\
  conv_padding (conv1d self) = (arg_d_conv a - 1)%Z /\
  length (conv_weight (conv1d self)) =
    Z.to_nat (d_inner_local self + 2 * ngroups_local self * d_state self) /\
  Forall (fun w => length w = Z.to_nat (arg_d_conv a))
         (conv_weight (conv1d self)).
Proof.
  unfold __init__. intros H.
  peel H r1 H1. peel H u1 A1. peel H nh H2. cbv zeta in H.
  peel H r2 H3. peel H u2 A2. peel H r3 H4. peel H u3 A3.
  peel H r4 H5. peel H u4 A4. peel H u5 A5.
  peel H dil H6. peel H ngl H7. peel H nhl H8. peel H po H9.
  cbv zeta in H. peel H u6 A6. peel H lmax L1. peel H lmin L2.
  destruct (arg_A_init_range a) as [lo hi].
  peel H u7 A7. peel H opi H10. injection H as <-. simpl.
  repeat split.
  - destruct (arg_conv_init a); unfold tabulate;
      rewrite length_map, length_seq; reflexivity.
  - destruct (arg_conv_init a); unfold tabulate;
      apply List.Forall_forall; intros w Hw;
      apply in_map_iff in Hw as (i & <- & _);
      rewrite length_map, length_seq; reflexivity.
Qed.

Lemma take_agree (row row' : T1) (t : nat) :
  (forall i, (i <= t)%nat -> row !! i = row' !! i) ->
  take (S t) row = take (S t) row'.
Proof.
  intros H. apply list_eq. intros i. rewrite !lookup_take.
  case_decide; [apply H; lia | reflexivity].
Qed.

(** C6.  In a constructed layer with kernel width [d_conv >= 1], the
    convolution-plus-SiLU stage is causal: on two inputs of one shape
    that agree at every position up to [t], it returns outputs that
    agree at position [t] in every batch entry and channel, whatever
    the inputs hold after [t]. *)
Theorem conv_act_causal (ws : Z) (draws : Draws) (a : MambaArgs)
    (self : Mamba) (n1 n3 t : nat) (x x' : T3) :
  __init__ ws draws a = Ok self ->
  (1 <= arg_d_conv a)%Z ->
  rect3 n1 (length (conv_weight (conv1d self))) n3 x ->
  rect3 n1 (length (conv_weight (conv1d self))) n3 x' ->
  (t < n3)%nat ->
  (forall b c i, (i <= t)%nat -> at3 x b c i = at3 x' b c i) ->
  exists y y',
    conv_act self x = Ok y /\ conv_act self x' = Ok y' /\
    forall b c, (b < n1)%nat ->
      (c < length (conv_weight (conv1d self)))%nat ->
      exists v, at3 y b c t = Some v /\ at3 y' b c t = Some v.
Proof.
  intros E Hd Hx Hx' Ht Hagree.
  apply init_conv in E as (_ & _ & Hpad & _ & HW).
  set (K := Z.to_nat (arg_d_conv a)) in *.
  assert (HK : (1 <= K)%nat) by lia.
  assert (Hpad' : conv_padding (conv1d self) = (Z.of_nat K - 1)%Z) by lia.
  destruct (conv_act_at self K n1 n3 x HK Hpad' HW Hx) as (y & Hy & Hat); [lia |].
  destruct (conv_act_at self K n1 n3 x' HK Hpad' HW Hx') as (y' & Hy' & Hat'); [lia |].
  exists y, y'. split; [exact Hy |]. split; [exact Hy' |].
  intros b c Hb Hc.
  destruct (rect3_lookup _ _ _ x b c Hx Hb Hc) as (m & row & Hm & Hrow & _ & Hl).
  destruct (rect3_lookup _ _ _ x' b c Hx' Hb Hc) as (m' & row' & Hm' & Hrow' & _ & Hl').
  rewrite (Hat b c t m row Hm Hrow Ht), (Hat' b c t m' row' Hm' Hrow' Ht).
  eexists. split; [reflexivity |]. do 3 f_equal.
  assert (Hw : length (nth c (conv_weight (conv1d self)) []) = K).
  { rewrite List.Forall_forall in HW. apply HW, nth_In. exact Hc. }
  rewrite (zip_with_take_r _ _ (drop t (_ ++ row' ++ _))).
  rewrite (zip_with_take_r _ _ (drop t (_ ++ row ++ _))).
  rewrite Hw, !window_prefix by lia.
  rewrite (take_agree row row' t); [reflexivity |].
  intros i Hi. specialize (Hagree b c i Hi).
  unfold at3 in Hagree. rewrite Hm, Hm' in Hagree. simpl in Hagree.
  rewrite Hrow, Hrow' in Hagree. exact Hagree.
Qed.

Lemma demo_xBC_agree (b c i : nat) :
  (i <= 1)%nat -> at3 demo_xBC b c i = at3 demo_xBC' b c i.
Proof.
  intros Hi. destruct i as [| [| i]]; [| | lia];
    destruct b as [| b]; try reflexivity;
    destruct c as [| [| [| c]]]; reflexivity.
Qed.

Lemma conv_act_causal_witness :
  exists self y y',
    __init__ 1 const_draws (tiny_args plain_config (Some 0%Z)) = Ok self /\
    conv_act self demo_xBC = Ok y /\ conv_act self demo_xBC' = Ok y' /\
    forall b c, (b < 1)%nat -> (c < 3)%nat ->
      exists v, at3 y b c 1 = Some v /\ at3 y' b c 1 = Some v.
Proof.
  destruct (tiny_init plain_config (Some 0%Z)) as [self E].
  assert (Hlen : length (conv_weight (conv1d self)) = 3%nat).
  { pose proof (init_conv _ _ _ _ E) as (_ & Hs & _ & Hl & _).
    pose proof (init_Ok _ _ _ _ E)
      as (_ & _ & _ & _ & _ & _ & _ & Hdi & Hng & _).
    rewrite Hl, Hdi, Hng, Hs. reflexivity. }
  destruct (conv_act_causal 1 const_draws (tiny_args plain_config (Some 0%Z))
              self 1 3 1 demo_xBC demo_xBC' E) as (y & y' & Hy & Hy' & Hat).
  - simpl. lia.
  - rewrite Hlen. repeat constructor.
  - rewrite Hlen. repeat constructor.
  - lia.
  - apply demo_xBC_agree.
  - exists self, y, y'. rewrite Hlen in Hat. auto.
Defined.

(** ** Attribute lookup on the layer *)

Lemma tiny_layer_init (cfg : TransformerConfig) (idx : option Z) :
  __init__ 1 const_draws (tiny_args cfg idx) = Ok (tiny_layer cfg idx).
Proof.
  unfold __init__, math_log. simpl.
  destruct (Rlt_dec 0 (1 / 10)); [| lra].
  destruct (Rlt_dec 0 (1 / 1000)); [| lra]. simpl.
  rewrite !bool_decide_eq_true_2 by lra. reflexivity.
Qed.

(** No constructor binding has one of the three names. *)
Lemma getattr_undefined (self : Mamba) (name : string) :
  name = "x_proj"%string \/ name = "dt_proj"%string \/ name = "dt_rank"%string ->
  getattr self name = Err (AttributeError name).
Proof.
  unfold getattr, instance_dict.
  intros [-> | [-> | ->]]; destruct (norm self); reflexivity.
Qed.

(** The attributes the methods read and the constructor binds are the
    record's fields. *)
Lemma getattr_defined (self : Mamba) :
  getattr self "layer_idx" = Ok (popt PInt (layer_idx self)) /\
  getattr self "d_inner_local" = Ok (PInt (d_inner_local self)) /\
  getattr self "d_conv" = Ok (PInt (d_conv self)) /\
  getattr self "d_state" = Ok (PInt (d_state self)) /\
  getattr self "A_log" = Ok (PTensor1 (A_log self)) /\
  getattr self "in_proj" = Ok (linear_obj (in_proj self)) /\
  getattr self "out_proj" = Ok (linear_obj (out_proj self)).
Proof.
  unfold getattr, instance_dict. destruct (norm self); repeat split.
Qed.

(** ** The state-and-error monad *)

Lemma fails_liftR_Err {A : Type} (e : exn) : fails (liftR (@Err A e)).
Proof. intros σ. exists e, σ. reflexivity. Qed.

Lemma fails_bind_l {A B : Type} (m : M A) (f : A -> M B) :
  fails m -> fails (m ≫= f).
Proof.
  intros Hm σ. destruct (Hm σ) as (e & σ' & H).
  exists e, σ'. unfold mbind, M_bind. rewrite H. reflexivity.
Qed.

Lemma fails_bind_r {A B : Type} (m : M A) (f : A -> M B) :
  (forall a, fails (f a)) -> fails (m ≫= f).
Proof.
  intros Hf σ. unfold mbind, M_bind.
  destruct (m σ) as [[a | e] σ']; [apply Hf | eauto].
Qed.

(** ** The inference cache *)

Lemma get_states_no_layer (self : Mamba) (batch_size : nat) (init : bool)
    (σ : Store) :
  layer_idx self = None ->
  _get_states_from_cache self batch_size init σ = (Err AssertionError, σ).
Proof. unfold _get_states_from_cache. intros ->. reflexivity. Qed.

(** The first request for a layer allocates the convolution buffer,
    then raises on [self.dt_proj]; the dictionary is left as it was. *)
Lemma get_states_miss (self : Mamba) (batch_size : nat) (init : bool)
    (σ : Store) (idx : Z) :
  layer_idx self = Some idx ->
  key_value_memory_dict σ !! idx = None ->
  _get_states_from_cache self batch_size init σ =
  (Err (AttributeError "dt_proj"),
   {| heap := heap σ ++ [zeros3 batch_size (Z.to_nat (d_inner_local self))
                                (Z.to_nat (d_conv self))];
      key_value_memory_dict := key_value_memory_dict σ |}).
Proof.
  unfold _get_states_from_cache. intros -> Hk.
  unfold mbind, M_bind, dict_get. rewrite Hk. unfold alloc, liftR.
  rewrite (getattr_undefined self "dt_proj") by auto. reflexivity.
Qed.

(** A later request returns the stored pair and changes nothing. *)
Lemma get_states_hit (self : Mamba) (batch_size : nat) (σ : Store) (idx : Z)
    (c s : loc) :
  layer_idx self = Some idx ->
  key_value_memory_dict σ !! idx = Some (c, s) ->
  _get_states_from_cache self batch_size false σ = (Ok (c, s), σ).
Proof.
  unfold _get_states_from_cache. intros -> Hk.
  unfold mbind, M_bind, dict_get. rewrite Hk. reflexivity.
Qed.

(** With the reinitialize flag the stored pair is returned and both
    buffers are zeroed in place. *)
Lemma get_states_hit_reinit (self : Mamba) (batch_size : nat) (σ : Store)
    (idx : Z) (c s : loc) :
  layer_idx self = Some idx ->
  key_value_memory_dict σ !! idx = Some (c, s) ->
  exists σ',
    _get_states_from_cache self batch_size true σ = (Ok (c, s), σ') /\
    key_value_memory_dict σ' = key_value_memory_dict σ /\
    heap σ' = <[s := map3 (fun _ => 0) (<[c := map3 (fun _ => 0) (heap σ !!! c)]> (heap σ) !!! s)]>
                (<[c := map3 (fun _ => 0) (heap σ !!! c)]> (heap σ)).
Proof.
  unfold _get_states_from_cache. intros -> Hk.
  unfold mbind, M_bind, dict_get. rewrite Hk.
  eexists. split; [reflexivity |]. split; reflexivity.
Qed.

(** C8, at the first request of a fresh session.  The request raises
    AttributeError on [self.dt_proj] after allocating the convolution
    buffer: no state-space buffer is allocated and nothing is stored in
    the session dictionary. *)
Theorem get_states_from_cache_first_request :
  __init__ 1 const_draws (tiny_args plain_config (Some 0%Z))
    = Ok (tiny_layer plain_config (Some 0%Z)) /\
  _get_states_from_cache (tiny_layer plain_config (Some 0%Z)) 1 false empty_store
    = (Err (AttributeError "dt_proj"),
       {| heap := [[[[0; 0]]]]; key_value_memory_dict := ∅ |}).
Proof.
  split; [apply tiny_layer_init |].
  rewrite (get_states_miss _ _ _ _ 0%Z); reflexivity.
Qed.

(** ** Shape errors of the tensor plumbing *)

Lemma mapR_Err {A B : Type} (f : A -> result B) (l : list A) (e : exn) :
  mapR f l = Err e -> exists a, In a l /\ f a = Err e.
Proof.
  induction l as [| x l IH]; simpl; intros H; [discriminate |].
  destruct (f x) as [b | e'] eqn:Hx; simpl in H.
  - destruct (mapR f l) as [bs | e'']; simpl in H; [discriminate |].
    injection H as ->. destruct IH as (a & Ha & Hfa); eauto.
  - injection H as ->. eauto.
Qed.

Lemma dot_Err (a b : T1) (e : exn) : dot a b = Err e -> e = RuntimeError.
Proof. unfold dot. destruct (Nat.eqb _ _); congruence. Qed.

Lemma matmul_t_Err (x w : T2) (e : exn) :
  matmul_t x w = Err e -> e = RuntimeError.
Proof.
  unfold matmul_t. intros H.
  apply mapR_Err in H as (row & _ & H).
  apply mapR_Err in H as (wr & _ & H). eapply dot_Err, H.
Qed.

Lemma matmul3_t_Err (x : T3) (w : T2) (e : exn) :
  matmul3_t x w = Err e -> e = RuntimeError.
Proof.
  unfold matmul3_t. intros H.
  apply mapR_Err in H as (m & _ & H). eapply matmul_t_Err, H.
Qed.

Lemma split_row_Err (sizes : list Z) (row : T1) (e : exn) :
  split_row sizes row = Err e -> e = RuntimeError.
Proof.
  revert row. induction sizes as [| sz sizes IH]; intros row; simpl.
  - destruct (Nat.eqb _ _); congruence.
  - destruct (_ || _); [congruence |].
    destruct (split_row sizes _) eqn:Hr; simpl; [discriminate |].
    intros [= <-]. eapply IH, Hr.
Qed.

Lemma split3_Err (s1 s2 s3 : Z) (t : T3) (e : exn) :
  split3 s1 s2 s3 t = Err e -> e = RuntimeError.
Proof.
  unfold split3. destruct (mapR _ t) eqn:H; simpl; [discriminate |].
  intros [= <-]. apply mapR_Err in H as (m & _ & H).
  apply mapR_Err in H as (row & _ & H). eapply split_row_Err, H.
Qed.

(** ** Forward pass and decode step with an inference session *)

Section Session.
Variable causal_conv1d_fn :
  option (T3 -> T2 -> option (list R) -> string -> result (list (list (list R)))).
Variable causal_conv1d_update :
  option (T2 -> loc -> T2 -> option (list R) -> string -> M (list (list R))).
Variable mamba_chunk_scan_fused :
  T4 -> T3 -> T1 -> T4 -> T4 -> Z -> list R + list (list R) ->
  option (list (list (list (list R)))) -> T1 -> bool -> bool ->
  result (list (list (list (list R))) * option (list (list (list R)))).
Variable RMSNormGated_forward : RMSNorm -> T3 -> T3 -> result (list (list (list R))).
Variable gather_from_sequence_parallel_region : T3 -> T3.
Variable copy_to_tensor_model_parallel_region : T3 -> T3.
Variable reduce_from_tensor_model_parallel_region : T3 -> T3.
Variable reduce_scatter_to_sequence_parallel_region : T3 -> T3.
Variable step_projection :
  Mamba -> pyval -> T2 -> T2 -> loc -> loc ->
  M (list (list (list R)) * loc * loc).

Local Abbreviation step' := (step causal_conv1d_update step_projection).
Local Abbreviation step_conv' := (step_conv causal_conv1d_update).
Local Abbreviation forward_body' :=
  (forward_body causal_conv1d_fn mamba_chunk_scan_fused RMSNormGated_forward
     gather_from_sequence_parallel_region copy_to_tensor_model_parallel_region
     reduce_from_tensor_model_parallel_region
     reduce_scatter_to_sequence_parallel_region).
Local Abbreviation forward' :=
  (forward causal_conv1d_fn causal_conv1d_update mamba_chunk_scan_fused
     RMSNormGated_forward
     gather_from_sequence_parallel_region copy_to_tensor_model_parallel_region
     reduce_from_tensor_model_parallel_region
     reduce_scatter_to_sequence_parallel_region step_projection).

Lemma step_guard (self : Mamba) (hidden_states : T3) (c s : loc) (σ : Store) :
  length hidden_states <> 1%nat ->
  step' self hidden_states c s σ = (Err AssertionError, σ).
Proof.
  intros Hlen. unfold step, mbind, M_bind, liftR.
  destruct (Nat.eqb_spec (length hidden_states) 1); [contradiction |].
  reflexivity.
Qed.

(** Past its guard, a step whose convolution update completes raises on
    [self.x_proj]. *)
Lemma step_past_conv (self : Mamba) (hidden_states : T3) (c s : loc)
    (σ σ' : Store) (xz : list (list R) * list (list R)) :
  length hidden_states = 1%nat ->
  step_conv' self hidden_states c σ = (Ok xz, σ') ->
  step' self hidden_states c s σ = (Err (AttributeError "x_proj"), σ').
Proof.
  intros Hlen Hconv. unfold step, mbind, M_bind, liftR.
  rewrite Hlen. simpl. rewrite Hconv. destruct xz as [x z].
  rewrite (getattr_undefined self "x_proj") by auto. reflexivity.
Qed.

Lemma step_fails (self : Mamba) (hidden_states : T3) (c s : loc) :
  fails (step' self hidden_states c s).
Proof.
  unfold step. apply fails_bind_r. intros _.
  apply fails_bind_r. intros [x z]. apply fails_bind_l.
  rewrite (getattr_undefined self "x_proj") by auto.
  apply fails_liftR_Err.
Qed.

Lemma forward_body_cached_fails (self : Mamba) (hidden_states : T3)
    (c s : loc) :
  fails (forward_body' self hidden_states (Some (c, s))).
Proof.
  unfold forward_body. apply fails_bind_r. intros xz.
  apply fails_bind_r. intros [[z xBC] dt].
  apply fails_bind_l, fails_bind_l, fails_liftR_Err.
Qed.

(** With a cache, lines 199-223 leave the store as it is and raise: a
    shape error of the projection or the split, or the unbound [x]. *)
Lemma forward_body_cached (self : Mamba) (hidden_states : T3) (c s : loc)
    (σ : Store) :
  forward_body' self hidden_states (Some (c, s)) σ
    = (Err (UnboundLocalError "x"), σ) \/
  forward_body' self hidden_states (Some (c, s)) σ = (Err RuntimeError, σ).
Proof.
  unfold forward_body, mbind, M_bind, liftR.
  destruct (matmul3_t _ _) as [xz | e] eqn:Hm.
  - destruct (split3 _ _ _ xz) as [[[z xBC] dt] | e] eqn:Hs; [left; reflexivity |].
    right. apply split3_Err in Hs as ->. reflexivity.
  - right. apply matmul3_t_Err in Hm as ->. reflexivity.
Qed.

Lemma forward_session_fails (self : Mamba) (hidden_states : T3)
    (ip : InferenceParams) :
  fails (forward' self hidden_states (Some ip)).
Proof.
  unfold forward. apply fails_bind_r. intros _.
  apply fails_bind_r. intros [c s].
  destruct (0 <? seqlen_offset ip)%Z.
  - apply fails_bind_l, step_fails.
  - apply forward_body_cached_fails.
Qed.

Lemma forward_sequence_parallel_guard (self : Mamba) (hidden_states : T3)
    (ip : InferenceParams) (σ : Store) :
  sequence_parallel (config self) = true ->
  forward' self hidden_states (Some ip) σ = (Err AssertionError, σ).
Proof.
  intros Hsp. unfold forward, mbind, M_bind, liftR. rewrite Hsp. reflexivity.
Qed.

(** The assertion of line 429: a session call on a layer without an
    index stops at the cache lookup. *)
Lemma forward_layer_idx_guard (self : Mamba) (hidden_states : T3)
    (ip : InferenceParams) (σ : Store) :
  sequence_parallel (config self) = false ->
  layer_idx self = None ->
  forward' self hidden_states (Some ip) σ = (Err AssertionError, σ).
Proof.
  intros Hsp Hidx. unfold forward, mbind at 1, M_bind at 1, liftR.
  rewrite Hsp. simpl. unfold mbind, M_bind.
  rewrite (get_states_no_layer _ _ _ _ Hidx). reflexivity.
Qed.

(** The assertion of line 355, reached through [forward]: a decode call
    that finds the layer's buffers stops at the guard of [step] when
    its input is not one token long. *)
Lemma forward_decode_length_guard (self : Mamba) (hidden_states : T3)
    (ip : InferenceParams) (σ : Store) (idx : Z) (c s : loc) :
  sequence_parallel (config self) = false ->
  layer_idx self = Some idx ->
  key_value_memory_dict σ !! idx = Some (c, s) ->
  (0 < seqlen_offset ip)%Z ->
  length hidden_states <> 1%nat ->
  forward' self hidden_states (Some ip) σ = (Err AssertionError, σ).
Proof.
  intros Hsp Hidx Hk Hoff Hlen.
  unfold forward, mbind at 1, M_bind at 1, liftR. rewrite Hsp. simpl.
  unfold mbind at 1, M_bind at 1.
  rewrite (get_states_hit _ _ _ idx c s Hidx Hk).
  apply Z.ltb_lt in Hoff. rewrite Hoff.
  unfold mbind, M_bind.
  rewrite (step_guard self hidden_states c s σ Hlen). reflexivity.
Qed.

(** The two usage guards.  A decode step on an input whose sequence
    length is not 1 fails with an assertion error, and every forward
    call that supplies an inference session while sequence-parallel
    partitioning is active fails with an assertion error.  Neither
    failure touches the store. *)
Lemma decode_usage_errors (self : Mamba) (hidden_states : T3)
    (c s : loc) (ip : InferenceParams) (σ : Store) :
  (length hidden_states <> 1%nat ->
   step' self hidden_states c s σ = (Err AssertionError, σ)) /\
  (forall r σ', step' self hidden_states c s σ = (r, σ') ->
     r <> Err AssertionError -> length hidden_states = 1%nat) /\
  (sequence_parallel (config self) = true ->
   forward' self hidden_states (Some ip) σ = (Err AssertionError, σ)).
Proof.
  split; [apply step_guard |].
  split; [| apply forward_sequence_parallel_guard].
  intros r σ' Hr Hne.
  destruct (Nat.eq_dec (length hidden_states) 1%nat) as [| Hlen]; [assumption |].
  rewrite (step_guard self hidden_states c s σ Hlen) in Hr.
  injection Hr as <- _. contradiction.
Qed.

(** C10, as amended.  A constructed layer has none of the attributes
    [x_proj], [dt_proj], [dt_rank]; every forward call that supplies an
    inference session fails; once the guards have passed (sequence
    parallelism off, layer identity set) the cache-creating call raises
    AttributeError on [dt_proj], and a single-step decode (offset
    positive, sequence length 1) whose convolution update completes
    raises AttributeError on [x_proj].  A call stopped by a guard raises
    AssertionError and leaves the store as it was: with sequence
    parallelism on (line 192), on a layer without an index (line 429),
    and at a decode call on an input that is not one token long
    (line 355). *)
Theorem session_calls_fail (ws : Z) (draws : Draws) (a : MambaArgs)
    (self : Mamba) :
  __init__ ws draws a = Ok self ->
  (getattr self "x_proj" = Err (AttributeError "x_proj") /\
   getattr self "dt_proj" = Err (AttributeError "dt_proj") /\
   getattr self "dt_rank" = Err (AttributeError "dt_rank")) /\
  (forall hidden_states ip, fails (forward' self hidden_states (Some ip))) /\
  (forall hidden_states ip σ idx,
     sequence_parallel (config self) = false ->
     layer_idx self = Some idx ->
     key_value_memory_dict σ !! idx = None ->
     exists σ',
       forward' self hidden_states (Some ip) σ
         = (Err (AttributeError "dt_proj"), σ') /\
       key_value_memory_dict σ' = key_value_memory_dict σ) /\
  (forall hidden_states ip σ σ' idx c s xz,
     sequence_parallel (config self) = false ->
     layer_idx self = Some idx ->
     key_value_memory_dict σ !! idx = Some (c, s) ->
     (0 < seqlen_offset ip)%Z ->
     length hidden_states = 1%nat ->
     step_conv' self hidden_states c σ = (Ok xz, σ') ->
     forward' self hidden_states (Some ip) σ
       = (Err (AttributeError "x_proj"), σ')) /\
  (forall hidden_states ip σ,
     sequence_parallel (config self) = true ->
     forward' self hidden_states (Some ip) σ = (Err AssertionError, σ)) /\
  (forall hidden_states ip σ,
     sequence_parallel (config self) = false ->
     layer_idx self = None ->
     forward' self hidden_states (Some ip) σ = (Err AssertionError, σ)) /\
  (forall hidden_states ip σ idx c s,
     sequence_parallel (config self) = false ->
     layer_idx self = Some idx ->
     key_value_memory_dict σ !! idx = Some (c, s) ->
     (0 < seqlen_offset ip)%Z ->
     length hidden_states <> 1%nat ->
     forward' self hidden_states (Some ip) σ = (Err AssertionError, σ)).
Proof.
  intros _. split; [| split; [| split; [| split; [| split; [| split]]]]].
  6: { intros hs ip σ. apply forward_layer_idx_guard. }
  5: { intros hs ip σ. apply forward_sequence_parallel_guard. }
  5: { intros hs ip σ idx c s. apply forward_decode_length_guard. }
  - repeat split; apply getattr_undefined; auto.
  - intros hs ip. apply forward_session_fails.
  - intros hs ip σ idx Hsp Hidx Hk.
    unfold forward, mbind at 1, M_bind at 1, liftR. rewrite Hsp. simpl.
    unfold mbind, M_bind. rewrite (get_states_miss _ _ _ _ idx Hidx Hk).
    eexists. split; reflexivity.
  - intros hs ip σ σ' idx c s xz Hsp Hidx Hk Hoff Hlen Hconv.
    unfold forward, mbind at 1, M_bind at 1, liftR. rewrite Hsp. simpl.
    unfold mbind at 1, M_bind at 1.
    rewrite (get_states_hit _ _ _ idx c s Hidx Hk).
    apply Z.ltb_lt in Hoff. rewrite Hoff.
    unfold mbind, M_bind.
    rewrite (step_past_conv self hs c s σ σ' xz Hlen Hconv). reflexivity.
Qed.

(** A prefill call (offset not positive) that finds the layer's buffers
    in the session never reaches the convolution: it raises and leaves
    the store, the convolution buffer included, as it was. *)
Lemma forward_prefill_cached (self : Mamba) (hidden_states : T3)
    (ip : InferenceParams) (σ : Store) (idx : Z) (c s : loc) :
  sequence_parallel (config self) = false ->
  layer_idx self = Some idx ->
  key_value_memory_dict σ !! idx = Some (c, s) ->
  (seqlen_offset ip <= 0)%Z ->
  forward' self hidden_states (Some ip) σ = (Err (UnboundLocalError "x"), σ) \/
  forward' self hidden_states (Some ip) σ = (Err RuntimeError, σ).
Proof.
  intros Hsp Hidx Hk Hoff.
  assert (E : forward' self hidden_states (Some ip) σ
              = forward_body' self hidden_states (Some (c, s)) σ).
  { unfold forward, mbind at 1, M_bind at 1, liftR. rewrite Hsp. simpl.
    unfold mbind at 1, M_bind at 1.
    rewrite (get_states_hit _ _ _ idx c s Hidx Hk).
    apply Z.ltb_ge in Hoff. rewrite Hoff. reflexivity. }
  rewrite E. apply forward_body_cached.
Qed.

End Session.

Lemma decode_usage_errors_at_guards :
  step_ref (tiny_layer plain_config (Some 0%Z)) [[[1]]; [[2]]] 0%nat 1%nat
           prefilled_store
    = (Err AssertionError, prefilled_store) /\
  forward_ref (tiny_layer sp_config (Some 0%Z)) [[[1]]] (Some decode)
              prefilled_store
    = (Err AssertionError, prefilled_store).
Proof.
  unfold step_ref, forward_ref. split.
  - apply (decode_usage_errors None None no_scan no_norm single_shard
             single_shard single_shard single_shard no_projection
             (tiny_layer plain_config (Some 0%Z)) [[[1]]; [[2]]]
             0%nat 1%nat decode prefilled_store).
    simpl. lia.
  - eapply (decode_usage_errors None None no_scan no_norm single_shard
             single_shard single_shard single_shard no_projection
             (tiny_layer sp_config (Some 0%Z)) [[[1]]]
             0%nat 1%nat decode prefilled_store).
    reflexivity.
Qed.

(** C9, at a decode step on one token.  The guards hold as the claim
    says, but the step applies no recurrence: on an input of sequence
    length 1, with a convolution state its update accepts, it raises
    AttributeError at [self.x_proj] (line 384) and leaves the
    state-space state as it was; and no step returns, whatever its
    input and buffers.  On an input of sequence length 2 the guard of
    line 355 raises the assertion error. *)
Theorem decode_step_applies_no_recurrence :
  __init__ 1 const_draws (tiny_args plain_config (Some 0%Z))
    = Ok (tiny_layer plain_config (Some 0%Z)) /\
  (exists σ',
     step_ref (tiny_layer plain_config (Some 0%Z)) [[[1]]] 0%nat 1%nat
              wide_store
       = (Err (AttributeError "x_proj"), σ') /\
     heap σ' !! 1%nat = Some [[[0]]] /\
     heap wide_store !! 1%nat = Some [[[0]]]) /\
  (forall hidden_states c s σ,
     exists e σ',
       step_ref (tiny_layer plain_config (Some 0%Z)) hidden_states c s σ
         = (Err e, σ')) /\
  step_ref (tiny_layer plain_config (Some 0%Z)) [[[1]]; [[2]]] 0%nat 1%nat
           wide_store
    = (Err AssertionError, wide_store).
Proof.
  split; [apply tiny_layer_init |]. split; [| split].
  - eexists. split; [reflexivity |]. split; reflexivity.
  - intros hs c s σ. apply step_fails.
  - reflexivity.
Qed.

(** With an explicit dtype the allocator never reads [dt_proj]: it
    returns buffers of shapes (batch, d_inner_local, d_conv) and
    (batch, d_inner_local, d_state), the heap of [prefilled_store]. *)
Lemma allocate_inference_cache_explicit_dtype :
  allocate_inference_cache (tiny_layer plain_config (Some 0%Z)) 1 8
                           (Some float32) empty_store
    = (Ok (0%nat, 1%nat),
       {| heap := heap prefilled_store; key_value_memory_dict := ∅ |}).
Proof. reflexivity. Qed.

(** C10 as stated fails at two calls of a constructed layer with an
    inference session.  With sequence-parallel partitioning on, the
    guard of line 192 raises an assertion error.  With the guards
    passed and the buffers of the allocator's shapes in the session, a
    single-step decode on the in-repo convolution path raises a shape
    error at [conv_state[:, :, -1] = x] (one channel row against the
    three entries of [x]) before [self.x_proj] is read.  Neither is an
    attribute error. *)
Lemma session_call_other_errors :
  __init__ 1 const_draws (tiny_args sp_config (Some 0%Z))
    = Ok (tiny_layer sp_config (Some 0%Z)) /\
  forward_ref (tiny_layer sp_config (Some 0%Z)) [[[1]]] (Some prefill)
              empty_store
    = (Err AssertionError, empty_store) /\
  __init__ 1 const_draws (tiny_args plain_config (Some 0%Z))
    = Ok (tiny_layer plain_config (Some 0%Z)) /\
  forward_ref (tiny_layer plain_config (Some 0%Z)) [[[1]]] (Some decode)
              prefilled_store
    = (Err RuntimeError, prefilled_store).
Proof.
  split; [apply tiny_layer_init |]. split; [reflexivity |].
  split; [apply tiny_layer_init |]. reflexivity.
Qed.

Lemma session_calls_fail_witness :
  getattr (tiny_layer plain_config (Some 0%Z)) "x_proj"
    = Err (AttributeError "x_proj") /\
  (exists σ',
     forward_ref (tiny_layer plain_config (Some 0%Z)) [[[1]]] (Some prefill)
                 empty_store
     = (Err (AttributeError "dt_proj"), σ')) /\
  (exists σ',
     forward_ref (tiny_layer plain_config (Some 0%Z)) [[[1]]] (Some decode)
                 wide_store
     = (Err (AttributeError "x_proj"), σ')) /\
  forward_ref (tiny_layer plain_config None) [[[1]]] (Some prefill) empty_store
    = (Err AssertionError, empty_store) /\
  forward_ref (tiny_layer plain_config (Some 0%Z)) [[[1]]; [[2]]] (Some decode)
              wide_store
    = (Err AssertionError, wide_store).
Proof.
  destruct (session_calls_fail None None no_scan no_norm single_shard
              single_shard single_shard single_shard no_projection
              1%Z const_draws (tiny_args plain_config (Some 0%Z))
              (tiny_layer plain_config (Some 0%Z))
              (tiny_layer_init plain_config (Some 0%Z)))
    as ((H1 & _ & _) & _ & H3 & H4 & _ & _ & H7).
  destruct (session_calls_fail None None no_scan no_norm single_shard
              single_shard single_shard single_shard no_projection
              1%Z const_draws (tiny_args plain_config None)
              (tiny_layer plain_config None)
              (tiny_layer_init plain_config None))
    as (_ & _ & _ & _ & _ & H6 & _).
  split; [exact H1 |]. unfold forward_ref. split; [| split; [| split]].
  - destruct (H3 [[[1]]] prefill empty_store 0%Z) as (σ' & H & _);
      [reflexivity | reflexivity | reflexivity |].
    exists σ'. exact H.
  - eexists.
    eapply (H4 [[[1]]] decode wide_store _ 0%Z 0%nat 1%nat);
      [reflexivity | reflexivity | reflexivity | reflexivity | reflexivity |].
    reflexivity.
  - apply H6; reflexivity.
  - apply (H7 [[[1]]; [[2]]] decode wide_store 0%Z 0%nat 1%nat);
      [reflexivity | reflexivity | reflexivity | reflexivity | simpl; lia].
Defined.

(** C7, at a prefill call.  With a session whose dictionary already
    holds the layer's buffers, the forward pass raises on the local [x],
    unbound at line 223, and leaves the store as it was; with a fresh
    session it raises earlier, at the cache lookup.  Either way the
    convolution-state buffer keeps its zeros. *)
Theorem forward_prefill_skips_conv_state :
  __init__ 1 const_draws (tiny_args plain_config (Some 0%Z))
    = Ok (tiny_layer plain_config (Some 0%Z)) /\
  forward_ref (tiny_layer plain_config (Some 0%Z)) [[[1]]] (Some prefill)
              prefilled_store
    = (Err (UnboundLocalError "x"), prefilled_store) /\
  forward_ref (tiny_layer plain_config (Some 0%Z)) [[[1]]] (Some prefill)
              empty_store
    = (Err (AttributeError "dt_proj"),
       {| heap := [[[[0; 0]]]]; key_value_memory_dict := ∅ |}).
Proof.
  split; [apply tiny_layer_init |]. split; reflexivity.
Qed.

(** * Further properties of the layer *)

(** ** What a construction checks and builds *)

Lemma assert_Ok_iff (b : bool) : assert b = Ok tt <-> b = true.
Proof. destruct b; simpl; split; congruence. Qed.

(** A successful construction has passed every check and returns
    [init_result]. *)
Lemma init_Ok_result (ws : Z) (draws : Draws) (a : MambaArgs) (self : Mamba) :
  __init__ ws draws a = Ok self ->
  self = init_result ws draws a /\
  arg_bias a = false /\ arg_conv_bias a = true /\
  0 < arg_dt_max a /\ 0 < arg_dt_min a /\
  0 < (arg_A_init_range a).1 <= (arg_A_init_range a).2.
Proof.
  unfold __init__. intros H.
  peel H r1 H1. apply py_mod_Ok in H1 as [Hh ->].
  peel H u1 A1. peel H nh H2. apply py_floordiv_Ok in H2 as [_ ->].
  cbv zeta in H.
  peel H r2 H3. apply py_mod_Ok in H3 as [Hw ->].
  peel H u2 A2. peel H r3 H4. peel H u3 A3. peel H r4 H5. peel H u4 A4.
  peel H u5 A5. apply assert_Ok in A5.
  peel H dil H6. apply py_floordiv_Ok in H6 as [_ ->].
  peel H ngl H7. apply py_floordiv_Ok in H7 as [_ ->].
  peel H nhl H8. apply py_floordiv_Ok in H8 as [_ ->].
  peel H po H9. apply py_floordiv_Ok in H9 as [_ ->].
  cbv zeta in H. peel H u6 A6.
  destruct (arg_conv_bias a) eqn:Hcb; [| discriminate].
  peel H lmax L1. apply math_log_Ok in L1 as [Hmax ->].
  peel H lmin L2. apply math_log_Ok in L2 as [Hmin ->].
  unfold init_result.
  destruct (arg_A_init_range a) as [lo hi].
  peel H u7 A7. apply assert_Ok, andb_true_iff in A7 as [B1 B2].
  apply bool_decide_eq_true in B1, B2.
  peel H opi H10. apply py_floordiv_Ok in H10 as [_ ->].
  injection H as <-.
  destruct (arg_bias a); [discriminate |].
  repeat split; auto.
Qed.

(** X1.  Whatever the other arguments, a construction with [bias=True],
    with [conv_bias=False], with a non-positive [dt_min] or [dt_max], or
    with an [A_init_range] that is not [0 < lo <= hi] returns no layer. *)
Theorem init_rejects (ws : Z) (draws : Draws) (a : MambaArgs) :
  arg_bias a = true \/ arg_conv_bias a = false \/
  arg_dt_min a <= 0 \/ arg_dt_max a <= 0 \/
  (arg_A_init_range a).1 <= 0 \/
  (arg_A_init_range a).2 < (arg_A_init_range a).1 ->
  exists e, __init__ ws draws a = Err e.
Proof.
  intros Hbad. destruct (__init__ ws draws a) as [self | e] eqn:E; [| eauto].
  exfalso. apply init_Ok_result in E as (_ & Hb & Hcb & Hmax & Hmin & HA).
  destruct Hbad as [H | [H | [H | [H | [H | H]]]]];
    try congruence; lra.
Qed.

Lemma init_rejects_witness :
  exists e, __init__ 1 const_draws (scenario_with_bias true true) = Err e.
Proof.
  apply (init_rejects 1 const_draws (scenario_with_bias true true)).
  left. reflexivity.
Defined.

(** X2.  Once the shard checks have passed, [bias=True] stops the
    construction at the assertion of line 97.  With [bias=False] and
    sizes that are all positive, so that the input projection and the
    convolution can be built, [conv_bias=False] stops it at line 127:
    the convolution then has no bias, and setting an attribute on
    [None] raises AttributeError. *)
Theorem init_bias_errors (ws : Z) (draws : Draws) (a : MambaArgs) :
  let di := (arg_expand a * arg_d_model a)%Z in
  (arg_headdim a <> 0 /\ ws <> 0 /\
   di mod arg_headdim a = 0 /\ di mod ws = 0 /\
   arg_ngroups a mod ws = 0 /\ (di / arg_headdim a) mod ws = 0)%Z ->
  (arg_bias a = true -> __init__ ws draws a = Err AssertionError) /\
  (arg_bias a = false -> arg_conv_bias a = false ->
   (0 < ws)%Z -> (0 < arg_d_model a)%Z -> (0 < arg_expand a)%Z ->
   (0 < arg_headdim a)%Z -> (0 < arg_ngroups a)%Z ->
   (0 < arg_d_state a)%Z -> (0 < arg_d_conv a)%Z ->
   __init__ ws draws a = Err (AttributeError "tensor_model_parallel")).
Proof.
  intros di (Hh & Hw & M1 & M2 & M3 & M4).
  split.
  - intros Hb. unfold __init__. fold di.
    unfold py_mod, py_floordiv.
    destruct (Z.eqb_spec (arg_headdim a) 0); [contradiction |].
    destruct (Z.eqb_spec ws 0); [contradiction |].
    cbn [mbind result_bind]. rewrite M1, M2, M3, M4, Hb. reflexivity.
  - intros Hb Hcb _ _ _ _ _ _ _. unfold __init__. fold di.
    unfold py_mod, py_floordiv.
    destruct (Z.eqb_spec (arg_headdim a) 0); [contradiction |].
    destruct (Z.eqb_spec ws 0); [contradiction |].
    cbn [mbind result_bind]. rewrite M1, M2, M3, M4, Hb, Hcb. reflexivity.
Qed.

Lemma init_bias_errors_witness :
  __init__ 1 const_draws (scenario_with_bias true false) = Err AssertionError /\
  __init__ 1 const_draws (scenario_with_bias false false)
    = Err (AttributeError "tensor_model_parallel").
Proof.
  split.
  - apply (init_bias_errors 1 const_draws (scenario_with_bias true false));
      [| reflexivity].
    repeat split; try discriminate; reflexivity.
  - apply (init_bias_errors 1 const_draws (scenario_with_bias false false));
      [| reflexivity | reflexivity | simpl; lia ..].
    repeat split; try discriminate; reflexivity.
Defined.

(** ** Shapes of the parameters *)

Lemma length_tabulate {A : Type} (n : Z) (f : nat -> A) :
  length (tabulate n f) = Z.to_nat n.
Proof. unfold tabulate. rewrite length_map, length_seq. reflexivity. Qed.

Lemma Forall_tabulate {A : Type} (P : A -> Prop) (n : Z) (f : nat -> A) :
  (forall i, P (f i)) -> Forall P (tabulate n f).
Proof.
  intros H. unfold tabulate. apply List.Forall_forall. intros x Hx.
  apply in_map_iff in Hx as (i & <- & _). apply H.
Qed.

(** The partition of the input projection is what the three streams of
    the forward pass add up to. *)
Lemma in_proj_partition (ws di ng ds nh : Z) :
  (ws <> 0 -> di mod ws = 0 -> ng mod ws = 0 -> nh mod ws = 0 ->
   (di * 2 + 2 * ng * ds + nh) / ws
   = di / ws + (di / ws + 2 * (ng / ws) * ds) + nh / ws)%Z.
Proof.
  intros Hw M1 M2 M3.
  apply Z.div_exact in M1, M2, M3; try assumption.
  rewrite M1, M2, M3 at 1.
  replace (ws * (di / ws) * 2 + 2 * (ws * (ng / ws)) * ds + ws * (nh / ws))%Z
    with ((di / ws + (di / ws + 2 * (ng / ws) * ds) + nh / ws) * ws)%Z by ring.
  apply Z.div_mul. assumption.
Qed.

(** X3.  In a constructed layer the input projection has one output row
    per entry of the three streams the forward pass splits off (gate,
    convolution input, timestep), each row as wide as the model; the
    convolution has one kernel and one bias entry per channel of the
    convolution input; [dt_bias] and [A_log] have one entry per local
    head; and the output projection maps the local inner width back to
    the model width. *)
Theorem init_shapes (ws : Z) (draws : Draws) (a : MambaArgs) (self : Mamba) :
  __init__ ws draws a = Ok self ->
  let w_z := d_inner_local self in
  let w_xBC := (d_inner_local self + 2 * ngroups_local self * d_state self)%Z in
  let w_dt := nheads_local self in
  length (weight (in_proj self)) = Z.to_nat (w_z + w_xBC + w_dt) /\
  Forall (fun r => length r = Z.to_nat (d_model self)) (weight (in_proj self)) /\
  length (conv_weight (conv1d self)) = Z.to_nat w_xBC /\
  Forall (fun r => length r = Z.to_nat (d_conv self)) (conv_weight (conv1d self)) /\
  (exists b, conv_bias (conv1d self) = Some b /\ length b = Z.to_nat w_xBC) /\
  length (dt_bias self) = Z.to_nat w_dt /\
  length (A_log self) = Z.to_nat w_dt /\
  length (weight (out_proj self)) = Z.to_nat (d_model self) /\
  Forall (fun r => length r = Z.to_nat w_z) (weight (out_proj self)).
Proof.
  intros E. pose proof (init_Ok _ _ _ _ E) as ((Hh & Hw & M1 & M2 & M3 & M4) & _).
  apply init_Ok_result in E as (-> & _). cbn.
  repeat split.
  - rewrite length_tabulate, in_proj_partition by assumption. reflexivity.
  - apply Forall_tabulate. intros i. apply length_tabulate.
  - destruct (arg_conv_init a); apply length_tabulate.
  - destruct (arg_conv_init a); apply Forall_tabulate; intros i;
      apply length_tabulate.
  - eexists. split; [reflexivity | apply length_tabulate].
  - rewrite length_map. apply length_tabulate.
  - rewrite length_map. apply length_tabulate.
  - apply length_tabulate.
  - apply Forall_tabulate. intros i. apply length_tabulate.
Qed.

Lemma init_shapes_witness :
  exists self,
    __init__ 1 const_draws scenario_args = Ok self /\
    length (weight (in_proj self)) = 84%nat /\
    length (conv_weight (conv1d self)) = 48%nat /\
    length (dt_bias self) = 4%nat.
Proof.
  destruct scenario_init as [self E]. exists self.
  destruct (init_shapes 1 const_draws scenario_args self E)
    as (H1 & _ & H3 & _ & _ & H6 & _).
  pose proof (init_Ok_result _ _ _ _ E) as (-> & _).
  split; [exact E | split; [exact H1 | split; [exact H3 | exact H6]]].
Defined.

(** ** The values a construction draws *)

Lemma uniform_range (lo hi u : R) :
  lo <= hi -> 0 <= u < 1 -> lo <= uniform lo hi u <= hi.
Proof. intros Hle [H0 H1]. unfold uniform. nra. Qed.

(** X4.  Right after construction every entry of [A = -exp(A_log)] lies
    between minus the upper and minus the lower end of [A_init_range]:
    the logarithm stored in [A_log] is undone by the exponential. *)
Theorem init_decay_range (ws : Z) (draws : Draws) (a : MambaArgs)
    (self : Mamba) (x : R) :
  __init__ ws draws a = Ok self ->
  (forall i, 0 <= rand_A draws i < 1) ->
  In x (decay (A_log self)) ->
  - (arg_A_init_range a).2 <= x <= - (arg_A_init_range a).1.
Proof.
  intros E Hr Hin.
  apply init_Ok_result in E as (-> & _ & _ & _ & _ & Hlo & Hle).
  unfold decay in Hin. cbn [A_log init_result] in Hin.
  apply in_map_iff in Hin as (y & <- & Hy).
  apply in_map_iff in Hy as (u & <- & Hu).
  unfold tabulate in Hu. apply in_map_iff in Hu as (i & <- & _).
  pose proof (uniform_range _ _ _ Hle (Hr i)) as [H1 H2].
  rewrite exp_ln by lra. lra.
Qed.

Lemma init_decay_range_witness :
  exists self,
    __init__ 1 const_draws scenario_args = Ok self /\
    forall x, In x (decay (A_log self)) -> - 16 <= x <= - 1.
Proof.
  destruct scenario_init as [self E]. exists self.
  split; [exact E |]. intros x Hx.
  apply (init_decay_range 1 const_draws scenario_args self x E);
    [intros i; simpl; lra | exact Hx].
Defined.

Lemma dt_sample_lower (dt_min dt_max dt_init_floor r : R) :
  0 < dt_min <= dt_max -> 0 <= r ->
  dt_min <= dt_sample (ln dt_min) (ln dt_max) dt_init_floor r.
Proof.
  intros [Hmin Hle] Hr. unfold dt_sample, clamp_min.
  pose proof (ln_mono dt_min dt_max Hmin Hle) as Hln.
  set (e := r * (ln dt_max - ln dt_min) + ln dt_min).
  assert (He : dt_min <= exp e).
  { apply Rle_trans with (exp (ln dt_min)).
    - rewrite exp_ln by lra. lra.
    - apply exp_mono. unfold e. nra. }
  pose proof (Rmax_l (exp e) dt_init_floor). simpl. lra.
Qed.

(** X5.  Right after construction the timestep the bias alone gives,
    [softplus(dt_bias)], lies between [dt_min] and [dt_max] for every
    head, provided the floor does not exceed [dt_max] and [dt_max] stays
    below the threshold above which softplus is linear. *)
Theorem init_dt_bias_range (ws : Z) (draws : Draws) (a : MambaArgs)
    (self : Mamba) (b : R) :
  __init__ ws draws a = Ok self ->
  arg_dt_min a <= arg_dt_max a ->
  arg_dt_init_floor a <= arg_dt_max a ->
  arg_dt_max a <= softplus_threshold ->
  (forall i, 0 <= rand_dt draws i < 1) ->
  In b (dt_bias self) ->
  arg_dt_min a <= softplus b <= arg_dt_max a.
Proof.
  intros E Hmm Hfm Hth Hr Hin.
  apply init_Ok_result in E as (-> & _ & _ & Hpmax & Hpmin & _).
  cbn [dt_bias init_result] in Hin.
  apply in_map_iff in Hin as (dt & <- & Hdt).
  unfold tabulate in Hdt. apply in_map_iff in Hdt as (i & <- & _).
  destruct (dt_sample_range (arg_dt_min a) (arg_dt_max a)
              (arg_dt_init_floor a) (rand_dt draws i)) as (Hp & _ & Hu);
    [lra | lra | apply Hr |].
  pose proof (dt_sample_lower (arg_dt_min a) (arg_dt_max a)
                (arg_dt_init_floor a) (rand_dt draws i)) as Hl.
  rewrite softplus_inv_softplus by lra.
  split; [apply Hl; [lra | apply Hr] | exact Hu].
Qed.

Lemma init_dt_bias_range_witness :
  exists self,
    __init__ 1 const_draws scenario_args = Ok self /\
    forall b, In b (dt_bias self) -> 1 / 1000 <= softplus b <= 1 / 10.
Proof.
  destruct scenario_init as [self E]. exists self.
  split; [exact E |]. intros b Hb.
  apply (init_dt_bias_range 1 const_draws scenario_args self b E);
    [simpl; lra | simpl; lra | unfold softplus_threshold; simpl; lra
    | intros i; simpl; lra | exact Hb].
Defined.

(** ** The inference cache on every path *)

Lemma map3_const_idem (v : R) (t : T3) :
  map3 (fun _ => v) (map3 (fun _ => v) t) = map3 (fun _ => v) t.
Proof.
  unfold map3, map2. rewrite map_map. apply map_ext. intros m.
  rewrite map_map. apply map_ext. intros row.
  rewrite map_map. reflexivity.
Qed.

Lemma lookup_insert_total (f : T3 -> T3) (h : list T3) (c l : nat) :
  <[c := f (h !!! c)]> h !! l
  = if bool_decide (l = c) then f <$> h !! l else h !! l.
Proof.
  case_bool_decide as Hl.
  - subst l. destruct (Nat.lt_ge_cases c (length h)) as [Hc | Hc].
    + rewrite list_lookup_insert_eq by assumption.
      rewrite (list_lookup_lookup_total_lt h c) by assumption. reflexivity.
    + rewrite list_insert_ge by assumption.
      rewrite (lookup_ge_None_2 h c) by assumption. reflexivity.
  - apply list_lookup_insert_ne. congruence.
Qed.

(** X6.  A request for the states of a layer never writes the session
    dictionary, on any path and for any layer, and it returns a pair of
    buffers exactly when the layer has an index under which the
    dictionary already holds that pair; a layer is never registered by
    the request itself. *)
Theorem get_states_never_registers (self : Mamba) (batch_size : nat)
    (initialize_states : bool) (σ : Store) :
  let out := _get_states_from_cache self batch_size initialize_states σ in
  key_value_memory_dict out.2 = key_value_memory_dict σ /\
  forall p, out.1 = Ok p <->
    exists idx, layer_idx self = Some idx /\
                key_value_memory_dict σ !! idx = Some p.
Proof.
  cbv zeta.
  destruct (layer_idx self) as [idx |] eqn:Hidx.
  - destruct (key_value_memory_dict σ !! idx) as [[c s] |] eqn:Hk.
    + destruct initialize_states.
      * destruct (get_states_hit_reinit self batch_size σ idx c s Hidx Hk)
          as (σ' & -> & Hd & _).
        split; [exact Hd |]. intros p. simpl. split.
        -- intros [= <-]. eauto.
        -- intros (i & [= <-] & Hp). congruence.
      * rewrite (get_states_hit self batch_size σ idx c s Hidx Hk).
        split; [reflexivity |]. intros p. simpl. split.
        -- intros [= <-]. eauto.
        -- intros (i & [= <-] & Hp). congruence.
    + rewrite (get_states_miss self batch_size _ σ idx Hidx Hk).
      split; [reflexivity |]. intros p. simpl. split; [discriminate |].
      intros (i & [= <-] & Hp). congruence.
  - rewrite (get_states_no_layer self batch_size _ σ Hidx).
    split; [reflexivity |]. intros p. simpl. split; [discriminate |].
    intros (i & Hi & _). discriminate.
Qed.

(** X7.  When the dictionary holds a pair for the layer, a request
    with [initialize_states] set returns that pair and zeroes the two
    buffers in place: both keep their shape, every other buffer keeps
    its contents, and no buffer is allocated. *)
Theorem get_states_reinit_zeroes (self : Mamba) (batch_size : nat)
    (σ : Store) (idx : Z) (c s : loc) :
  layer_idx self = Some idx ->
  key_value_memory_dict σ !! idx = Some (c, s) ->
  let out := _get_states_from_cache self batch_size true σ in
  out.1 = Ok (c, s) /\
  length (heap out.2) = length (heap σ) /\
  forall l,
    heap out.2 !! l
    = if bool_decide (l = c \/ l = s)
      then map3 (fun _ => 0) <$> heap σ !! l
      else heap σ !! l.
Proof.
  intros Hidx Hk. cbv zeta.
  destruct (get_states_hit_reinit self batch_size σ idx c s Hidx Hk)
    as (σ' & -> & _ & Hh).
  simpl. rewrite Hh. split; [reflexivity |]. split.
  - rewrite !length_insert. reflexivity.
  - intros l.
    rewrite (lookup_insert_total (map3 (fun _ => 0))).
    rewrite (lookup_insert_total (map3 (fun _ => 0))).
    repeat case_bool_decide; try reflexivity; try (exfalso; tauto).
    rewrite <- option_fmap_compose.
    apply option_fmap_ext. intros t. apply map3_const_idem.
Qed.

Lemma get_states_reinit_zeroes_witness :
  let σ := {| heap := [[[[1; 2]]]; [[[3]]]; [[[4]]]];
              key_value_memory_dict := <[0%Z := (0%nat, 1%nat)]> ∅ |} in
  let out := _get_states_from_cache (tiny_layer plain_config (Some 0%Z)) 1 true σ in
  out.1 = Ok (0%nat, 1%nat) /\
  heap out.2 !! 0%nat = Some [[[0; 0]]] /\
  heap out.2 !! 1%nat = Some [[[0]]] /\
  heap out.2 !! 2%nat = Some [[[4]]].
Proof.
  cbv zeta.
  destruct (get_states_reinit_zeroes (tiny_layer plain_config (Some 0%Z)) 1
              {| heap := [[[[1; 2]]]; [[[3]]]; [[[4]]]];
                 key_value_memory_dict := <[0%Z := (0%nat, 1%nat)]> ∅ |}
              0%Z 0%nat 1%nat) as (H1 & _ & H3);
    [reflexivity | reflexivity |].
  split; [exact H1 |].
  split; [exact (H3 0%nat) | split; [exact (H3 1%nat) | exact (H3 2%nat)]].
Defined.

Lemma rect3_zeros3 (n1 n2 n3 : nat) : rect3 n1 n2 n3 (zeros3 n1 n2 n3).
Proof.
  unfold rect3, zeros3, zeros2, zeros1. split; [apply repeat_length |].
  apply List.Forall_forall. intros m Hm. apply repeat_spec in Hm as ->.
  split; [apply repeat_length |].
  apply List.Forall_forall. intros row Hrow. apply repeat_spec in Hrow as ->.
  apply repeat_length.
Qed.

Lemma lookup_repeat {A : Type} (x y : A) (n i : nat) :
  repeat x n !! i = Some y -> y = x.
Proof.
  intros H. apply list_elem_of_lookup_2, list_elem_of_In, repeat_spec in H.
  exact H.
Qed.

Lemma at3_zeros3 (n1 n2 n3 i j k : nat) (v : R) :
  at3 (zeros3 n1 n2 n3) i j k = Some v -> v = 0.
Proof.
  unfold at3, zeros3, zeros2, zeros1. intros H.
  destruct (repeat _ n1 !! i) as [m |] eqn:Hm; [| discriminate].
  apply lookup_repeat in Hm as ->. simpl in H.
  destruct (repeat _ n2 !! j) as [row |] eqn:Hrow; [| discriminate].
  apply lookup_repeat in Hrow as ->. simpl in H.
  apply lookup_repeat in H. exact H.
Qed.

(** X8.  With an explicit dtype the allocator returns two distinct
    buffers that no earlier allocation uses: a convolution state of
    shape (batch, d_inner_local, d_conv) and a state-space state of
    shape (batch, d_inner_local, d_state), both zero.  Every buffer
    allocated before keeps its contents, the session dictionary is not
    written, and neither the shapes nor the outcome depend on
    [max_seqlen]. *)
Theorem allocate_inference_cache_fresh (self : Mamba) (batch_size : nat)
    (max_seqlen : nat) (dt : dtype) (σ : Store) :
  exists c s σ' tc ts,
    (forall n, allocate_inference_cache self batch_size n (Some dt) σ
               = (Ok (c, s), σ')) /\
    c <> s /\ (length (heap σ) <= c)%nat /\ (length (heap σ) <= s)%nat /\
    heap σ' !! c = Some tc /\ heap σ' !! s = Some ts /\
    rect3 batch_size (Z.to_nat (d_inner_local self)) (Z.to_nat (d_conv self)) tc /\
    rect3 batch_size (Z.to_nat (d_inner_local self)) (Z.to_nat (d_state self)) ts /\
    (forall i j k v, at3 tc i j k = Some v \/ at3 ts i j k = Some v -> v = 0) /\
    (forall l, (l < length (heap σ))%nat -> heap σ' !! l = heap σ !! l) /\
    key_value_memory_dict σ' = key_value_memory_dict σ.
Proof.
  exists (length (heap σ)), (S (length (heap σ))),
    {| heap := (heap σ ++ [zeros3 batch_size (Z.to_nat (d_inner_local self))
                                  (Z.to_nat (d_conv self))])
               ++ [zeros3 batch_size (Z.to_nat (d_inner_local self))
                          (Z.to_nat (d_state self))];
       key_value_memory_dict := key_value_memory_dict σ |},
    (zeros3 batch_size (Z.to_nat (d_inner_local self)) (Z.to_nat (d_conv self))),
    (zeros3 batch_size (Z.to_nat (d_inner_local self)) (Z.to_nat (d_state self))).
  split.
  { intros n. unfold allocate_inference_cache, mbind, M_bind, alloc, mret, M_ret.
    cbn [heap key_value_memory_dict]. rewrite length_app. simpl.
    rewrite Nat.add_1_r. reflexivity. }
  cbn [heap key_value_memory_dict].
  split; [lia |]. split; [lia |]. split; [lia |].
  split.
  { rewrite lookup_app_l by (rewrite length_app; simpl; lia).
    rewrite lookup_app_r by lia. rewrite Nat.sub_diag. reflexivity. }
  split.
  { rewrite lookup_app_r by (rewrite length_app; simpl; lia).
    rewrite length_app. simpl.
    replace (S (length (heap σ)) - (length (heap σ) + 1))%nat with 0%nat by lia.
    reflexivity. }
  split; [apply rect3_zeros3 |]. split; [apply rect3_zeros3 |].
  split.
  { intros i j k v [H | H]; apply at3_zeros3 in H; exact H. }
  split; [| reflexivity].
  intros l Hl. rewrite lookup_app_l by (rewrite length_app; simpl; lia).
  apply lookup_app_l. exact Hl.
Qed.

(** X9.  Called without a dtype, the allocator raises AttributeError on
    [self.dt_proj] for every layer, after it has allocated the
    convolution state and before it allocates the state-space state;
    the session dictionary is not written. *)
Theorem allocate_inference_cache_default_dtype (self : Mamba)
    (batch_size max_seqlen : nat) (σ : Store) :
  allocate_inference_cache self batch_size max_seqlen None σ
  = (Err (AttributeError "dt_proj"),
     {| heap := heap σ ++ [zeros3 batch_size (Z.to_nat (d_inner_local self))
                                  (Z.to_nat (d_conv self))];
        key_value_memory_dict := key_value_memory_dict σ |}).
Proof.
  unfold allocate_inference_cache, mbind, M_bind, alloc, liftR.
  rewrite (getattr_undefined self "dt_proj") by auto. reflexivity.
Qed.

(** X10.  Allocation, registration and lookup compose: once the pair
    the allocator returned is stored in the session dictionary under
    the layer's index, a request for the layer's states returns that
    pair, with or without [initialize_states], and leaves the store as
    the registration left it (the buffers are zero already). *)
Theorem allocate_register_get (self : Mamba) (batch_size max_seqlen : nat)
    (dt : dtype) (initialize_states : bool) (idx : Z) (σ : Store) :
  layer_idx self = Some idx ->
  exists p σ',
    (p ← allocate_inference_cache self batch_size max_seqlen (Some dt);
     _ ← dict_set idx p; mret p) σ = (Ok p, σ') /\
    key_value_memory_dict σ' !! idx = Some p /\
    forall batch_size',
      _get_states_from_cache self batch_size' initialize_states σ'
      = (Ok p, σ').
Proof.
  intros Hidx. eexists. eexists. split; [reflexivity |].
  cbn [key_value_memory_dict].
  split; [apply lookup_insert_eq |]. intros b'.
  unfold _get_states_from_cache. rewrite Hidx.
  unfold mbind, M_bind, dict_get. cbn [key_value_memory_dict].
  rewrite lookup_insert_eq.
  destruct initialize_states; [| reflexivity].
  unfold zero_, mbind, M_bind, load, store, mret, M_ret.
  cbn [heap key_value_memory_dict]. f_equal. f_equal. unfold loc.
  rewrite length_app. simpl. rewrite Nat.add_1_r.
  set (h := heap σ). set (n := length h).
  set (t1 := zeros3 _ _ (Z.to_nat (d_conv self))).
  set (t2 := zeros3 _ _ (Z.to_nat (d_state self))).
  assert (Z3 : forall a b c, map3 (fun _ => 0) (zeros3 a b c) = zeros3 a b c).
  { intros a b c. unfold map3, map2, zeros3, zeros2, zeros1.
    rewrite !map_repeat. reflexivity. }
  assert (H1 : ((h ++ [t1]) ++ [t2]) !!! n = t1).
  { apply list_lookup_total_correct.
    rewrite lookup_app_l by (rewrite length_app; simpl; lia).
    rewrite lookup_app_r by lia. unfold n. rewrite Nat.sub_diag. reflexivity. }
  assert (E1 : <[n := t1]> ((h ++ [t1]) ++ [t2]) = (h ++ [t1]) ++ [t2]).
  { apply list_insert_id.
    rewrite lookup_app_l by (rewrite length_app; simpl; lia).
    rewrite lookup_app_r by lia. unfold n. rewrite Nat.sub_diag. reflexivity. }
  assert (L2 : ((h ++ [t1]) ++ [t2]) !! S n = Some t2).
  { rewrite lookup_app_r by (rewrite length_app; simpl; lia).
    rewrite length_app. simpl.
    replace (S n - (length h + 1))%nat with 0%nat by (unfold n; lia).
    reflexivity. }
  rewrite H1, (Z3 _ _ _ : map3 _ t1 = t1), E1.
  rewrite (list_lookup_total_correct _ _ _ L2), (Z3 _ _ _ : map3 _ t2 = t2).
  apply list_insert_id. exact L2.
Qed.

Lemma allocate_register_get_witness :
  exists p σ',
    (p ← allocate_inference_cache (tiny_layer plain_config (Some 0%Z)) 1 8
           (Some float32);
     _ ← dict_set 0%Z p; mret p) empty_store = (Ok p, σ') /\
    key_value_memory_dict σ' !! 0%Z = Some p /\
    forall batch_size',
      _get_states_from_cache (tiny_layer plain_config (Some 0%Z)) batch_size'
                             true σ' = (Ok p, σ').
Proof.
  apply (allocate_register_get (tiny_layer plain_config (Some 0%Z)) 1 8
           float32 true 0%Z empty_store).
  reflexivity.
Defined.

(** ** What the forward pass and the decode step write *)

Lemma keeps_store_liftR {A : Type} (r : result A) : keeps_store (liftR r).
Proof. intros σ. reflexivity. Qed.

Lemma keeps_store_ret {A : Type} (a : A) : keeps_store (mret a : M A).
Proof. intros σ. reflexivity. Qed.

Lemma keeps_store_bind {A B : Type} (m : M A) (f : A -> M B) :
  keeps_store m -> (forall a, keeps_store (f a)) -> keeps_store (m ≫= f).
Proof.
  intros Hm Hf σ. unfold mbind, M_bind. specialize (Hm σ).
  destruct (m σ) as [[a | e] σ1]; simpl in Hm; subst σ1; [apply Hf | reflexivity].
Qed.

Lemma frame_refl (c : loc) (σ : Store) : frame c σ σ.
Proof. repeat split. Qed.

Lemma frame_trans (c : loc) (σ1 σ2 σ3 : Store) :
  frame c σ1 σ2 -> frame c σ2 σ3 -> frame c σ1 σ3.
Proof.
  intros (D1 & L1 & H1) (D2 & L2 & H2). repeat split; try congruence.
  intros l Hl. rewrite H2, H1 by assumption. reflexivity.
Qed.

Lemma writes_only_keeps {A : Type} (c : loc) (m : M A) :
  keeps_store m -> writes_only c m.
Proof. intros H σ. rewrite H. apply frame_refl. Qed.

Lemma writes_only_bind {A B : Type} (c : loc) (m : M A) (f : A -> M B) :
  writes_only c m -> (forall a, writes_only c (f a)) -> writes_only c (m ≫= f).
Proof.
  intros Hm Hf σ. unfold mbind, M_bind. specialize (Hm σ).
  destruct (m σ) as [[a | e] σ1]; simpl in Hm; [| exact Hm].
  eapply frame_trans; [exact Hm | apply Hf].
Qed.

Lemma writes_only_load (c l : loc) : writes_only c (load l).
Proof. intros σ. apply frame_refl. Qed.

Lemma writes_only_store (c : loc) (t : T3) : writes_only c (store c t).
Proof.
  intros σ. unfold store, frame. cbn [snd heap key_value_memory_dict].
  split; [reflexivity |]. split; [apply length_insert |].
  intros l Hl. apply list_lookup_insert_ne. congruence.
Qed.

Lemma writes_only_copy_ (c : loc) (t : T3) : writes_only c (copy_ c t).
Proof.
  unfold copy_. apply writes_only_bind; [apply writes_only_load |]. intros d.
  apply writes_only_bind; [apply writes_only_keeps, keeps_store_liftR |].
  intros t'. apply writes_only_store.
Qed.

Ltac split_pairs :=
  repeat match goal with
         | p : (_ * _)%type |- _ => destruct p
         end.

Ltac keeps_step :=
  first [ apply keeps_store_liftR
        | apply keeps_store_ret
        | apply keeps_store_bind; [| intros ?; split_pairs] ].

Section Frame.
Variable causal_conv1d_fn :
  option (T3 -> T2 -> option (list R) -> string -> result (list (list (list R)))).
Variable causal_conv1d_update :
  option (T2 -> loc -> T2 -> option (list R) -> string -> M (list (list R))).
Variable mamba_chunk_scan_fused :
  T4 -> T3 -> T1 -> T4 -> T4 -> Z -> list R + list (list R) ->
  option (list (list (list (list R)))) -> T1 -> bool -> bool ->
  result (list (list (list (list R))) * option (list (list (list R)))).
Variable RMSNormGated_forward : RMSNorm -> T3 -> T3 -> result (list (list (list R))).
Variable gather_from_sequence_parallel_region : T3 -> T3.
Variable copy_to_tensor_model_parallel_region : T3 -> T3.
Variable reduce_from_tensor_model_parallel_region : T3 -> T3.
Variable reduce_scatter_to_sequence_parallel_region : T3 -> T3.
Variable step_projection :
  Mamba -> pyval -> T2 -> T2 -> loc -> loc ->
  M (list (list (list R)) * loc * loc).

(** X11.  Called without an inference session, the forward pass ends in
    the store it started from, whether it returns or raises and whatever
    the imported kernels compute: it allocates no buffer, writes none,
    and does not touch the dictionary of any session. *)
Theorem forward_no_session_keeps_store (self : Mamba) (hidden_states : T3)
    (σ : Store) :
  (forward causal_conv1d_fn causal_conv1d_update mamba_chunk_scan_fused
     RMSNormGated_forward gather_from_sequence_parallel_region
     copy_to_tensor_model_parallel_region
     reduce_from_tensor_model_parallel_region
     reduce_scatter_to_sequence_parallel_region step_projection
     self hidden_states None σ).2 = σ.
Proof.
  revert σ. change (keeps_store
    (forward causal_conv1d_fn causal_conv1d_update mamba_chunk_scan_fused
       RMSNormGated_forward gather_from_sequence_parallel_region
       copy_to_tensor_model_parallel_region
       reduce_from_tensor_model_parallel_region
       reduce_scatter_to_sequence_parallel_region step_projection
       self hidden_states None)).
  unfold forward, forward_body. cbv zeta.
  repeat keeps_step.
Qed.

(** X12.  On the in-repo convolution path a decode step raises, and up
    to the exception it writes the convolution state only: the
    state-space state and every other buffer keep their contents, no
    buffer is allocated, and the session dictionary is not written,
    whatever the input and the rest of the step would do. *)
Theorem step_writes_conv_state_only (self : Mamba) (hidden_states : T3)
    (conv_state ssm_state : loc) (σ : Store) :
  let out := step None step_projection self hidden_states
                  conv_state ssm_state σ in
  (exists e, out.1 = Err e) /\
  key_value_memory_dict out.2 = key_value_memory_dict σ /\
  length (heap out.2) = length (heap σ) /\
  forall l, l <> conv_state -> heap out.2 !! l = heap σ !! l.
Proof.
  cbv zeta. split.
  - destruct (step_fails None step_projection self hidden_states
                conv_state ssm_state σ) as (e & σ' & ->). eauto.
  - revert σ. change (writes_only conv_state
      (step None step_projection self hidden_states conv_state ssm_state)).
    unfold step.
    apply writes_only_bind; [apply writes_only_keeps, keeps_store_liftR |].
    intros _. apply writes_only_bind.
    + unfold step_conv.
      apply writes_only_bind; [apply writes_only_keeps, keeps_store_liftR |].
      intros xz. apply writes_only_bind; [apply writes_only_keeps, keeps_store_liftR |].
      intros [x z]. apply writes_only_bind; [| intros ?; apply writes_only_keeps, keeps_store_ret].
      apply writes_only_bind; [apply writes_only_load |]. intros cs.
      apply writes_only_bind; [apply writes_only_copy_ |]. intros _.
      apply writes_only_bind; [apply writes_only_load |]. intros cs'.
      apply writes_only_bind; [apply writes_only_keeps, keeps_store_liftR |].
      intros cs''. apply writes_only_bind; [apply writes_only_store |].
      intros _. apply writes_only_bind; [apply writes_only_keeps, keeps_store_liftR |].
      intros prod. apply writes_only_bind; [| intros ?; apply writes_only_keeps, keeps_store_ret].
      destruct (conv_bias (conv1d self));
        apply writes_only_keeps; [apply keeps_store_liftR | apply keeps_store_ret].
    + intros [x z].
      rewrite (getattr_undefined self "x_proj") by auto.
      apply writes_only_keeps. intros σ. reflexivity.
Qed.

End Frame.

(** ** The reference scan on every input *)

Lemma mapR_ext_In {A B : Type} (f : A -> result B) (g : A -> B) (l : list A) :
  (forall a, In a l -> f a = Ok (g a)) -> mapR f l = Ok (map g l).
Proof.
  induction l as [| x l IH]; intros H; simpl; [reflexivity |].
  rewrite (H x) by (left; reflexivity). simpl.
  rewrite IH by (intros a Ha; apply H; right; exact Ha). reflexivity.
Qed.

Lemma map_zip_uncurry {A B C : Type} (g : A -> B -> C) (la : list A)
    (lb : list B) :
  map (fun ab => g ab.1 ab.2) (zip la lb) = zip_with g la lb.
Proof.
  revert lb. induction la as [| a la IH]; intros [| b lb]; simpl;
    [reflexivity .. |]. rewrite IH. reflexivity.
Qed.

(** Broadcasting two axes of one extent pairs them entry by entry. *)
Lemma bcast_same {A B C : Type} (f : A -> B -> result C) (g : A -> B -> C)
    (la : list A) (lb : list B) :
  length la = length lb ->
  (forall a b, In (a, b) (zip la lb) -> f a b = Ok (g a b)) ->
  bcast f la lb = Ok (zip_with g la lb).
Proof.
  intros Hlen H. unfold bcast. rewrite Hlen, Nat.eqb_refl.
  rewrite (mapR_ext_In _ (fun ab => g ab.1 ab.2)).
  - rewrite map_zip_uncurry. reflexivity.
  - intros [a b] Hab. apply H. exact Hab.
Qed.

(** Broadcasting against an axis of extent one repeats its entry. *)
Lemma bcast_singleton_r {A B C : Type} (f : A -> B -> result C)
    (la : list A) (b : B) :
  bcast f la [b] = mapR (fun a => f a b) la.
Proof.
  unfold bcast. destruct la as [| a [| a' la]]; reflexivity.
Qed.

Lemma bcast_Err {A B C : Type} (f : A -> B -> result C) (la : list A)
    (lb : list B) (e : exn) :
  (forall a b e', f a b = Err e' -> e' = RuntimeError) ->
  bcast f la lb = Err e -> e = RuntimeError.
Proof.
  intros Hf. unfold bcast. destruct (Nat.eqb _ _).
  - intros H. apply mapR_Err in H as ([a b] & _ & H). eapply Hf, H.
  - destruct la as [| a [| a' la]].
    + destruct lb as [| b [| b' lb]]; simpl; try discriminate; congruence.
    + intros H. apply mapR_Err in H as (b & _ & H). eapply Hf, H.
    + destruct lb as [| b [| b' lb]]; try congruence.
      intros H. apply mapR_Err in H as (x & _ & H). eapply Hf, H.
Qed.

Lemma bc3_Err (op : R -> R -> R) (a b : T3) (e : exn) :
  bc3 op a b = Err e -> e = RuntimeError.
Proof.
  apply bcast_Err. intros a2 b2 e2. apply bcast_Err. intros a1 b1 e1.
  apply bcast_Err. intros x y e0. discriminate.
Qed.

Lemma in_zip {A B : Type} (la : list A) (lb : list B) (a : A) (b : B) :
  In (a, b) (zip la lb) -> In a la /\ In b lb.
Proof.
  revert lb. induction la as [| x la IH]; intros [| y lb]; simpl; try tauto.
  intros [[= -> ->] | H]; [tauto |]. apply IH in H. tauto.
Qed.

Lemma rsum_zeros_mul (c : T1) (n : nat) :
  rsum (zip_with Rmult (zeros1 n) c) = 0.
Proof.
  unfold zeros1. revert c. induction n as [| n IH]; intros [| x c]; simpl;
    try reflexivity. rewrite IH. lra.
Qed.

Lemma zip_with_const {A B C : Type} (v : C) (la : list A) (lb : list B) :
  length la = length lb ->
  zip_with (fun _ _ => v) la lb = repeat v (length la).
Proof.
  revert lb. induction la as [| a la IH]; intros [| b lb] H; simpl in *;
    try discriminate; [reflexivity |]. rewrite IH by congruence. reflexivity.
Qed.

(** The contraction of the zero state with any [C[i]] of matching shape
    is the zero matrix. *)
Lemma einsum_zeros (nb nd nn : nat) (Ci : T2) :
  length Ci = nb -> Forall (fun cb => length cb = nn) Ci ->
  einsum_bdn_bn_bd (zeros3 nb nd nn) Ci = Ok (zeros2 nb nd).
Proof.
  intros Hlen HC. unfold einsum_bdn_bn_bd.
  rewrite (bcast_same _ (fun _ _ => zeros1 nd)).
  - f_equal. rewrite zip_with_const; unfold zeros3; rewrite repeat_length;
      [reflexivity | congruence].
  - unfold zeros3. rewrite repeat_length. congruence.
  - intros xb cb Hin. apply in_zip in Hin as [Hx Hc].
    unfold zeros3 in Hx. apply repeat_spec in Hx as ->.
    rewrite List.Forall_forall in HC. specialize (HC _ Hc).
    rewrite (mapR_ext_In _ (fun _ => 0)).
    + unfold zeros2, zeros1. f_equal. clear. induction nd; simpl; congruence.
    + intros xd Hxd. unfold zeros2 in Hxd. apply repeat_spec in Hxd as ->.
      unfold bc1. rewrite (bcast_same _ Rmult).
      * simpl. rewrite rsum_zeros_mul. reflexivity.
      * unfold zeros1. rewrite repeat_length. congruence.
      * reflexivity.
Qed.

(** From the zero state the loop appends one zero matrix per index. *)
Lemma scan_loop_zeros (nb nd nn L : nat) (C : T3) (idx : list nat)
    (ys : list T2) (ls : option T3) :
  rect3 (length C) nb nn C ->
  Forall (fun i => (i < length C)%nat) idx ->
  exists ls',
    scan_loop (zeros3 nb nd nn) C L idx ys ls
    = Ok (ys ++ repeat (zeros2 nb nd) (length idx), ls').
Proof.
  intros [_ HC] Hidx. revert ys ls.
  induction idx as [| i idx IH]; intros ys ls; simpl.
  - rewrite app_nil_r. eauto.
  - apply Forall_cons in Hidx as [Hi Hidx].
    destruct (lookup_lt_is_Some_2 C i Hi) as [Ci HCi].
    unfold index. rewrite HCi. simpl.
    rewrite Forall_lookup in HC. destruct (HC i Ci HCi) as [Hb Hn].
    rewrite (einsum_zeros nb nd nn Ci Hb Hn). simpl.
    destruct (IH Hidx (ys ++ [zeros2 nb nd])
                (if Nat.eqb i (L - 1) then Some (zeros3 nb nd nn) else ls))
      as [ls' ->].
    rewrite <- app_assoc. simpl. eauto.
Qed.

Lemma rect3_cons (n1 n2 n3 : nat) (t : T3) :
  rect3 n1 n2 n3 t -> (1 <= n1)%nat -> size1 t = n2.
Proof.
  intros [Hlen Ht] Hn. destruct t as [| m t]; [simpl in Hlen; lia |].
  apply Forall_cons in Ht as [[Hm _] _]. exact Hm.
Qed.

Lemma zip_with_snd {A B : Type} (la : list A) (lb : list B) :
  length la = length lb -> zip_with (fun _ b => b) la lb = lb.
Proof.
  revert lb. induction la as [| a la IH]; intros [| b lb] H; simpl in *;
    try discriminate; [reflexivity |]. rewrite IH by congruence. reflexivity.
Qed.

Lemma zip_with_zeros_plus (row : T1) :
  zip_with Rplus (zeros1 (length row)) row = row.
Proof.
  unfold zeros1. induction row as [| x row IH]; simpl; [reflexivity |].
  rewrite IH. f_equal. lra.
Qed.

(** Adding a tensor to the zero tensor of its shape gives it back. *)
Lemma bc3_zeros_plus (n1 n2 n3 : nat) (t : T3) :
  rect3 n1 n2 n3 t -> bc3 Rplus (zeros3 n1 n2 n3) t = Ok t.
Proof.
  intros [Hlen Ht]. unfold bc3, zeros3.
  rewrite (bcast_same _ (fun _ m => m)).
  - rewrite zip_with_snd; [reflexivity | rewrite repeat_length; congruence].
  - rewrite repeat_length. congruence.
  - intros z2 m Hin. apply in_zip in Hin as [Hz Hm].
    apply repeat_spec in Hz as ->.
    rewrite List.Forall_forall in Ht. destruct (Ht m Hm) as [Hm2 Hrows].
    unfold bc2, zeros2. rewrite (bcast_same _ (fun _ row => row)).
    + rewrite zip_with_snd; [reflexivity | rewrite repeat_length; congruence].
    + rewrite repeat_length. congruence.
    + intros z1 row Hin. apply in_zip in Hin as [Hz Hrow].
      apply repeat_spec in Hz as ->.
      rewrite List.Forall_forall in Hrows. specialize (Hrows row Hrow).
      unfold bc1. rewrite (bcast_same _ Rplus).
      * subst n3. rewrite zip_with_zeros_plus. reflexivity.
      * unfold zeros1. rewrite repeat_length. congruence.
      * reflexivity.
Qed.

(** [u * D] for [u] of shape (n1, n2, n3) and [D] of shape (n3). *)
Lemma bc3_mul_vector (n1 n2 n3 : nat) (u : T3) (D : T1) :
  rect3 n1 n2 n3 u -> length D = n3 ->
  bc3 Rmult u [[D]] = Ok (map (map (fun row => zip_with Rmult row D)) u).
Proof.
  intros [_ Hu] HD. unfold bc3. rewrite bcast_singleton_r.
  apply mapR_ext_In. intros m Hm.
  rewrite List.Forall_forall in Hu. destruct (Hu m Hm) as [_ Hrows].
  unfold bc2. rewrite bcast_singleton_r.
  apply mapR_ext_In. intros row Hrow.
  rewrite List.Forall_forall in Hrows. specialize (Hrows row Hrow).
  unfold bc1. apply bcast_same; [congruence | reflexivity].
Qed.

(** The entrywise product of two tensors of one shape. *)
Lemma bc3_mul_same (n1 n2 n3 : nat) (a b : T3) :
  rect3 n1 n2 n3 a -> rect3 n1 n2 n3 b ->
  bc3 Rmult a b = Ok (zip_with (zip_with (zip_with Rmult)) a b).
Proof.
  intros [La Ha] [Lb Hb]. unfold bc3.
  apply bcast_same; [congruence |]. intros ma mb Hin.
  apply in_zip in Hin as [Hma Hmb].
  rewrite List.Forall_forall in Ha, Hb.
  destruct (Ha ma Hma) as [La2 Ha2]. destruct (Hb mb Hmb) as [Lb2 Hb2].
  unfold bc2. apply bcast_same; [congruence |]. intros ra rb Hin.
  apply in_zip in Hin as [Hra Hrb].
  rewrite List.Forall_forall in Ha2, Hb2.
  specialize (Ha2 ra Hra). specialize (Hb2 rb Hrb).
  unfold bc1. apply bcast_same; [congruence | reflexivity].
Qed.

Lemma rect3_map (n1 n2 n3 : nat) (f : T1 -> T1) (t : T3) :
  (forall row, length row = n3 -> length (f row) = n3) ->
  rect3 n1 n2 n3 t -> rect3 n1 n2 n3 (map (map f) t).
Proof.
  intros Hf [Hlen Ht]. split; [rewrite length_map; exact Hlen |].
  apply List.Forall_forall. intros m' Hm'.
  apply in_map_iff in Hm' as (m & <- & Hm).
  rewrite List.Forall_forall in Ht. destruct (Ht m Hm) as [Hm2 Hrows].
  split; [rewrite length_map; exact Hm2 |].
  apply List.Forall_forall. intros r' Hr'.
  apply in_map_iff in Hr' as (r & <- & Hr).
  rewrite List.Forall_forall in Hrows. apply Hf, Hrows, Hr.
Qed.



(** X14.  On an empty sequence the reference scan raises a shape error
    whatever the other arguments are: its loop does not run, and
    [torch.stack] of the empty list of outputs fails. *)
Theorem selective_scan_ref_empty_sequence (delta : T3) (A : T2) (B C : T3)
    (D : option (list R)) (z : option (list (list (list R))))
    (delta_bias : option (list R)) (delta_softplus return_last_state : bool) :
  selective_scan_ref [] delta A B C D z delta_bias
                     delta_softplus return_last_state
  = Err RuntimeError.
Proof.
  unfold selective_scan_ref.
  destruct delta_bias as [b |]; [| reflexivity].
  destruct (bc3 Rplus delta [[b]]) as [d | e] eqn:Hd; [reflexivity |].
  apply bc3_Err in Hd as ->. reflexivity.
Qed.

(** ** The input projection and its split (lines 209-213) *)

Lemma rect3_map_rows (n1 n2 n3 n3' : nat) (f : T1 -> T1) (t : T3) :
  (forall row, length row = n3 -> length (f row) = n3') ->
  rect3 n1 n2 n3 t -> rect3 n1 n2 n3' (map (map f) t).
Proof.
  intros Hf [Hlen Ht]. split; [rewrite length_map; exact Hlen |].
  apply List.Forall_forall. intros m' Hm'.
  apply in_map_iff in Hm' as (m & <- & Hm).
  rewrite List.Forall_forall in Ht. destruct (Ht m Hm) as [Hm2 Hrows].
  split; [rewrite length_map; exact Hm2 |].
  apply List.Forall_forall. intros r' Hr'.
  apply in_map_iff in Hr' as (r & <- & Hr).
  rewrite List.Forall_forall in Hrows. apply Hf, Hrows, Hr.
Qed.

Lemma mapR_rows {A B : Type} (f : A -> result B) (g : A -> B) (P : A -> Prop)
    (t : list (list (list A))) :
  (forall a, P a -> f a = Ok (g a)) ->
  Forall (Forall (Forall P)) t ->
  mapR (mapR (mapR f)) t = Ok (map (map (map g)) t).
Proof.
  intros Hf Ht. rewrite List.Forall_forall in Ht.
  apply mapR_ext_In. intros m Hm. specialize (Ht m Hm).
  rewrite List.Forall_forall in Ht.
  apply mapR_ext_In. intros row Hrow. specialize (Ht row Hrow).
  rewrite List.Forall_forall in Ht.
  apply mapR_ext_In. intros a Ha. apply Hf, Ht, Ha.
Qed.

(** The product with a weight of matching inner width. *)
Lemma matmul3_t_rect (n1 n2 n3 : nat) (x : T3) (w : T2) :
  rect3 n1 n2 n3 x -> Forall (fun wr => length wr = n3) w ->
  matmul3_t x w
  = Ok (map (map (fun row => map (fun wr => rsum (zip_with Rmult row wr)) w)) x).
Proof.
  intros [_ Hx] Hw. unfold matmul3_t, matmul_t.
  rewrite List.Forall_forall in Hx, Hw.
  apply mapR_ext_In. intros m Hm. destruct (Hx m Hm) as [_ Hrows].
  rewrite List.Forall_forall in Hrows.
  apply mapR_ext_In. intros row Hrow. specialize (Hrows row Hrow).
  apply mapR_ext_In. intros wr Hwr. unfold dot.
  rewrite Hrows, (Hw wr Hwr), Nat.eqb_refl. reflexivity.
Qed.

(** A row whose extent is the sum of three non-negative sizes splits
    into its three consecutive blocks. *)
Lemma split_row_three (s1 s2 s3 : Z) (row : T1) :
  (0 <= s1)%Z -> (0 <= s2)%Z -> (0 <= s3)%Z ->
  length row = (Z.to_nat s1 + Z.to_nat s2 + Z.to_nat s3)%nat ->
  split_row [s1; s2; s3] row
  = Ok [take (Z.to_nat s1) row;
        take (Z.to_nat s2) (drop (Z.to_nat s1) row);
        take (Z.to_nat s3) (drop (Z.to_nat s2) (drop (Z.to_nat s1) row))].
Proof.
  intros H1 H2 H3 Hlen. simpl.
  rewrite !length_drop, Hlen.
  repeat match goal with
         | |- context [(?s <? 0)%Z || (?n <? ?s)%Z] =>
             replace ((s <? 0)%Z || (n <? s)%Z) with false
               by (symmetry; apply orb_false_intro;
                   [apply Z.ltb_ge; assumption | apply Z.ltb_ge; lia])
         end.
  replace (_ =? 0)%nat with true by (symmetry; apply Nat.eqb_eq; lia).
  reflexivity.
Qed.

Lemma split3_rect (n1 n2 : nat) (s1 s2 s3 : Z) (t : T3) :
  (0 <= s1)%Z -> (0 <= s2)%Z -> (0 <= s3)%Z ->
  rect3 n1 n2 (Z.to_nat s1 + Z.to_nat s2 + Z.to_nat s3) t ->
  exists a b c,
    split3 s1 s2 s3 t = Ok (a, b, c) /\
    rect3 n1 n2 (Z.to_nat s1) a /\
    rect3 n1 n2 (Z.to_nat s2) b /\
    rect3 n1 n2 (Z.to_nat s3) c /\
    forall i j row, t !! i ≫= (.!! j) = Some row ->
      exists ra rb rc,
        a !! i ≫= (.!! j) = Some ra /\ b !! i ≫= (.!! j) = Some rb /\
        c !! i ≫= (.!! j) = Some rc /\ row = ra ++ rb ++ rc.
Proof.
  intros H1 H2 H3 Ht. unfold split3.
  set (g := fun row : T1 =>
    [take (Z.to_nat s1) row;
     take (Z.to_nat s2) (drop (Z.to_nat s1) row);
     take (Z.to_nat s3) (drop (Z.to_nat s2) (drop (Z.to_nat s1) row))]).
  assert (E : mapR (mapR (split_row [s1; s2; s3])) t = Ok (map (map g) t)).
  { destruct Ht as [_ Ht]. rewrite List.Forall_forall in Ht.
    apply mapR_ext_In. intros m Hm. destruct (Ht m Hm) as [_ Hrows].
    rewrite List.Forall_forall in Hrows.
    apply mapR_ext_In. intros row Hrow.
    apply split_row_three; auto. }
  rewrite E. cbn [mbind result_bind].
  do 3 eexists. split; [reflexivity |].
  rewrite !map_map.
  split; [| split; [| split]].
  - erewrite map_ext; [| intros m; rewrite map_map; reflexivity].
    eapply rect3_map_rows; [| exact Ht]. intros row Hrow. simpl.
    rewrite length_take. lia.
  - erewrite map_ext; [| intros m; rewrite map_map; reflexivity].
    eapply rect3_map_rows; [| exact Ht]. intros row Hrow. simpl.
    rewrite length_take, length_drop. lia.
  - erewrite map_ext; [| intros m; rewrite map_map; reflexivity].
    eapply rect3_map_rows; [| exact Ht]. intros row Hrow. simpl.
    rewrite length_take, !length_drop. lia.
  - intros i j row Hrow.
    destruct (t !! i) as [m |] eqn:Hm; [| discriminate]. simpl in Hrow.
    rewrite !map_fmap, !list_lookup_fmap, Hm. simpl.
    rewrite !map_fmap, !list_lookup_fmap, Hrow. simpl.
    do 3 eexists. repeat (split; [reflexivity |]).
    destruct Ht as [_ Ht]. rewrite Forall_lookup in Ht.
    destruct (Ht i m Hm) as [_ Hrows]. rewrite Forall_lookup in Hrows.
    specialize (Hrows j row Hrow).
    rewrite (take_ge (drop _ (drop _ row)))
      by (rewrite !length_drop; lia).
    rewrite !take_drop. reflexivity.
Qed.

Lemma init_in_proj_shape (ws : Z) (draws : Draws) (a : MambaArgs)
    (self : Mamba) :
  __init__ ws draws a = Ok self ->
  length (weight (in_proj self))
  = Z.to_nat (d_inner_local self
              + (d_inner_local self + 2 * ngroups_local self * d_state self)
              + nheads_local self) /\
  Forall (fun wr => length wr = Z.to_nat (d_model self)) (weight (in_proj self)).
Proof.
  intros E. pose proof (init_Ok _ _ _ _ E) as ((Hh & Hw & M1 & M2 & M3 & M4) & _).
  apply init_Ok_result in E as (-> & _). cbn. split.
  - rewrite length_tabulate, in_proj_partition by assumption. reflexivity.
  - apply Forall_tabulate. intros i. apply length_tabulate.
Qed.

(** X15.  The constructor and the forward pass agree on the widths of
    the input projection: in a layer constructed from non-negative
    sizes, on an input of shape (L, B, d_model), the projection of line
    209 and the split of lines 211-213 raise no shape error, and give a
    gate of width [d_inner_local], a convolution input of width
    [d_inner_local + 2 * ngroups_local * d_state] and a timestep of
    width [nheads_local]; every projected row is the concatenation of
    its three parts. *)
Theorem forward_split_widths (ws : Z) (draws : Draws) (a : MambaArgs)
    (self : Mamba) (nl nb : nat) (hidden_states : T3) :
  __init__ ws draws a = Ok self ->
  (0 < ws)%Z -> (0 < arg_headdim a)%Z ->
  (0 <= arg_expand a * arg_d_model a)%Z ->
  (0 <= arg_ngroups a)%Z -> (0 <= arg_d_state a)%Z ->
  rect3 nl nb (Z.to_nat (d_model self)) hidden_states ->
  exists xz z xBC dt,
    matmul3_t hidden_states (weight (in_proj self)) = Ok xz /\
    split3 (d_inner_local self)
           (d_inner_local self + 2 * ngroups_local self * d_state self)
           (nheads_local self) xz = Ok (z, xBC, dt) /\
    rect3 nl nb (Z.to_nat (d_inner_local self)) z /\
    rect3 nl nb (Z.to_nat (d_inner_local self
                           + 2 * ngroups_local self * d_state self)) xBC /\
    rect3 nl nb (Z.to_nat (nheads_local self)) dt /\
    forall i j row, xz !! i ≫= (.!! j) = Some row ->
      exists rz rx rd,
        z !! i ≫= (.!! j) = Some rz /\ xBC !! i ≫= (.!! j) = Some rx /\
        dt !! i ≫= (.!! j) = Some rd /\ row = rz ++ rx ++ rd.
Proof.
  intros E Hws Hhd Hdi Hng Hds Hx.
  destruct (init_in_proj_shape ws draws a self E) as (Hrows & Hw).
  pose proof (init_Ok _ _ _ _ E)
    as (_ & _ & _ & _ & _ & _ & _ & Hdil & Hngl & Hnhl & _).
  pose proof (init_conv _ _ _ _ E) as (_ & Hst & _).
  assert (P1 : (0 <= d_inner_local self)%Z).
  { rewrite Hdil. apply Z.div_pos; lia. }
  assert (P2 : (0 <= ngroups_local self)%Z).
  { rewrite Hngl. apply Z.div_pos; lia. }
  assert (P3 : (0 <= nheads_local self)%Z).
  { rewrite Hnhl. apply Z.div_pos; [apply Z.div_pos; lia | lia]. }
  assert (P4 : (0 <= d_inner_local self + 2 * ngroups_local self * d_state self)%Z).
  { rewrite Hst. nia. }
  rewrite (matmul3_t_rect nl nb (Z.to_nat (d_model self)) _ _ Hx Hw).
  destruct (split3_rect nl nb (d_inner_local self)
              (d_inner_local self + 2 * ngroups_local self * d_state self)
              (nheads_local self)
              (map (map (fun row => map (fun wr => rsum (zip_with Rmult row wr))
                                        (weight (in_proj self)))) hidden_states))
    as (z & xBC & dt & Hs & Rz & Rx & Rd & Hcat); try assumption.
  { eapply rect3_map_rows; [| exact Hx]. intros row _.
    rewrite length_map, Hrows. lia. }
  eexists. exists z, xBC, dt. split; [reflexivity |]. auto 10.
Qed.

Lemma forward_split_widths_witness :
  let self := tiny_layer plain_config None in
  exists xz z xBC dt,
    matmul3_t [[[2]]] (weight (in_proj self)) = Ok xz /\
    split3 (d_inner_local self)
           (d_inner_local self + 2 * ngroups_local self * d_state self)
           (nheads_local self) xz = Ok (z, xBC, dt) /\
    rect3 1 1 (Z.to_nat (d_inner_local self)) z /\
    rect3 1 1 (Z.to_nat (d_inner_local self
                         + 2 * ngroups_local self * d_state self)) xBC /\
    rect3 1 1 (Z.to_nat (nheads_local self)) dt /\
    forall i j row, xz !! i ≫= (.!! j) = Some row ->
      exists rz rx rd,
        z !! i ≫= (.!! j) = Some rz /\ xBC !! i ≫= (.!! j) = Some rx /\
        dt !! i ≫= (.!! j) = Some rd /\ row = rz ++ rx ++ rd.
Proof.
  cbv zeta.
  apply (forward_split_widths 1 const_draws (tiny_args plain_config None)
           (tiny_layer plain_config None) 1 1 [[[2]]]);
    [apply tiny_layer_init | simpl; lia .. | repeat constructor].
Defined.

(** ** Shapes through the forward pass *)

Lemma Forall_zip_with_cons {A : Type} (P : A -> Prop)
    (Q Q' : list A -> Prop) (r : list A) (T : list (list A)) :
  Forall P r -> Forall Q T ->
  (forall a c, P a -> Q c -> Q' (a :: c)) ->
  Forall Q' (zip_with cons r T).
Proof.
  intros Hr. revert T. induction Hr as [| a r Ha Hr IH]; intros T HT H;
    [constructor |].
  destruct HT as [| c T Hc HT]; simpl; constructor; auto.
Qed.

(** The transpose of an (n, m) matrix with n >= 1 is an (m, n) matrix
    of the same entries. *)
Lemma transpose_shape {A : Type} (P : A -> Prop) (n m : nat)
    (M : list (list A)) :
  (1 <= n)%nat -> length M = n ->
  Forall (fun r => length r = m /\ Forall P r) M ->
  length (transpose M) = m /\
  Forall (fun c => length c = n /\ Forall P c) (transpose M).
Proof.
  revert n. induction M as [| r M IH]; intros n Hn Hlen HM;
    [simpl in Hlen; lia |].
  apply Forall_cons in HM as [[Hr HPr] HM].
  destruct M as [| r' M].
  - simpl in *. subst n. split; [rewrite length_map; exact Hr |].
    apply List.Forall_forall. intros c Hc.
    apply in_map_iff in Hc as (a & <- & Ha).
    split; [reflexivity |]. constructor; [| constructor].
    rewrite List.Forall_forall in HPr. apply HPr, Ha.
  - change (transpose (r :: r' :: M))
      with (zip_with cons r (transpose (r' :: M))).
    destruct (IH (length (r' :: M))) as [IHl IHc];
      [simpl; lia | reflexivity | exact HM |].
    split; [rewrite length_zip_with; lia |].
    apply (Forall_zip_with_cons P
             (fun c => length c = length (r' :: M) /\ Forall P c));
      [exact HPr | exact IHc |].
    intros a c Ha [Hc HPc]. simpl in *. split; [lia | constructor; assumption].
Qed.

(** "l b d -> b l d". *)
Lemma transpose_rect3 (n1 n2 n3 : nat) (t : T3) :
  (1 <= n1)%nat -> rect3 n1 n2 n3 t -> rect3 n2 n1 n3 (transpose t).
Proof.
  intros Hn [Hlen Ht].
  apply (transpose_shape (fun row : T1 => length row = n3) n1 n2 t Hn Hlen Ht).
Qed.

(** "l b d -> b d l". *)
Lemma rearrange_lbd_bdl_rect (nl nb nd : nat) (t : T3) :
  (1 <= nl)%nat -> rect3 nl nb nd t -> rect3 nb nd nl (rearrange_lbd_bdl t).
Proof.
  intros Hl Ht. apply transpose_rect3 in Ht as [Hlen Ht]; [| exact Hl].
  unfold rearrange_lbd_bdl. split; [rewrite length_map; exact Hlen |].
  apply List.Forall_forall. intros m' Hm'.
  apply in_map_iff in Hm' as (m & <- & Hm).
  rewrite List.Forall_forall in Ht. destruct (Ht m Hm) as [Hm1 Hrows].
  destruct (transpose_shape (fun _ : R => True) nl nd m Hl Hm1) as [H1 H2].
  { eapply Forall_impl; [exact Hrows |]. intros row Hrow. simpl.
    split; [exact Hrow |]. apply List.Forall_forall. auto. }
  split; [exact H1 |]. eapply Forall_impl; [exact H2 |].
  intros c [Hc _]. exact Hc.
Qed.

(** "b d l -> l b d". *)
Lemma rearrange_bdl_lbd_rect (nb nd nl : nat) (t : T3) :
  (1 <= nb)%nat -> (1 <= nd)%nat ->
  rect3 nb nd nl t -> rect3 nl nb nd (rearrange_bdl_lbd t).
Proof.
  intros Hb Hd [Hlen Ht]. unfold rearrange_bdl_lbd.
  apply transpose_rect3; [exact Hb |].
  split; [rewrite length_map; exact Hlen |].
  apply List.Forall_forall. intros m' Hm'.
  apply in_map_iff in Hm' as (m & <- & Hm).
  rewrite List.Forall_forall in Ht. destruct (Ht m Hm) as [Hm1 Hrows].
  destruct (transpose_shape (fun _ : R => True) nd nl m Hd Hm1) as [H1 H2].
  { eapply Forall_impl; [exact Hrows |]. intros row Hrow. simpl.
    split; [exact Hrow |]. apply List.Forall_forall. auto. }
  split; [exact H1 |]. eapply Forall_impl; [exact H2 |].
  intros c [Hc _]. exact Hc.
Qed.

Lemma mapR_Forall2 {A B : Type} (f : A -> result B) (l : list A) (l' : list B) :
  mapR f l = Ok l' -> Forall2 (fun a b => f a = Ok b) l l'.
Proof.
  revert l'. induction l as [| x l IH]; intros l' H; simpl in H.
  - injection H as <-. constructor.
  - peel H b Hb. peel H bs Hbs. injection H as <-. constructor; auto.
Qed.

Lemma conv1d_channel_length (pad : nat) (w : T1) (b : R) (x y : T1) :
  conv1d_channel pad w b x = Ok y ->
  length y = (length x + 2 * pad + 1 - length w)%nat.
Proof.
  unfold conv1d_channel. destruct (Nat.ltb _ _); [discriminate |].
  intros [= <-]. rewrite length_map, length_seq, !length_app, !length_zeros1.
  lia.
Qed.

Lemma rect3_size2_pos (n1 n2 n3 : nat) (t : T3) :
  (1 <= n1)%nat -> (1 <= n2)%nat -> rect3 n1 n2 n3 t -> size2 t = n3.
Proof.
  intros H1 H2 Ht.
  destruct (rect3_lookup n1 n2 n3 t 0 0 Ht) as (m & row & Hm & Hrow & _);
    [lia | lia |].
  eapply rect3_size2; eauto.
Qed.

(** The convolution stage keeps the shape (B, channels, L) of its
    input. *)
Lemma conv_act_rect (self : Mamba) (K n1 n3 : nat) (x : T3) :
  (1 <= K)%nat ->
  conv_padding (conv1d self) = (Z.of_nat K - 1)%Z ->
  Forall (fun w => length w = K) (conv_weight (conv1d self)) ->
  rect3 n1 (length (conv_weight (conv1d self))) n3 x ->
  (1 <= n1)%nat -> (1 <= length (conv_weight (conv1d self)))%nat ->
  (1 <= n3)%nat ->
  exists y, conv_act self x = Ok y /\
            rect3 n1 (length (conv_weight (conv1d self))) n3 y.
Proof.
  intros HK Hpad HW Hx Hn1 HC Hn3.
  destruct (conv_act_at self K n1 n3 x HK Hpad HW Hx Hn3) as (y & Hy & _).
  exists y. split; [exact Hy |].
  unfold conv_act in Hy. peel Hy y0 Hy0. injection Hy as <-.
  rewrite (rect3_size2_pos n1 _ n3 x Hn1 HC Hx).
  unfold Conv1d_forward in Hy0. apply mapR_Forall2 in Hy0.
  destruct Hx as [Hlen Hx].
  unfold map3, map2. rewrite !map_map.
  split; [rewrite length_map, <- (Forall2_length _ _ _ Hy0); exact Hlen |].
  apply List.Forall_forall. intros m' Hm'.
  apply in_map_iff in Hm' as (yb & <- & Hyb).
  apply list_elem_of_In, list_elem_of_lookup in Hyb as [i Hi].
  destruct (Forall2_lookup_r _ _ _ _ _ Hy0 Hi) as (m & Hm & Hmb).
  rewrite Forall_lookup in Hx. destruct (Hx i m Hm) as [Hm1 Hrows].
  rewrite Hm1, Nat.eqb_refl in Hmb. apply mapR_Forall2 in Hmb.
  split.
  - rewrite !length_map, <- (Forall2_length _ _ _ Hmb), length_imap.
    exact Hm1.
  - rewrite map_map. apply List.Forall_forall. intros r' Hr'.
    apply in_map_iff in Hr' as (yc & <- & Hyc).
    apply list_elem_of_In, list_elem_of_lookup in Hyc as [j Hj].
    destruct (Forall2_lookup_r _ _ _ _ _ Hmb Hj) as ([j' xc] & Hxc & Hc).
    rewrite list_lookup_imap in Hxc.
    destruct (m !! j) as [row |] eqn:Hrow; [| discriminate].
    injection Hxc as <- <-.
    apply conv1d_channel_length in Hc.
    rewrite Forall_lookup in Hrows. rewrite (Hrows j row Hrow) in Hc.
    assert (Hw : length (nth j (conv_weight (conv1d self)) []) = K).
    { rewrite List.Forall_forall in HW. apply HW, nth_In.
      apply lookup_lt_Some in Hrow. lia. }
    rewrite Hw in Hc. rewrite length_map, length_take. lia.
Qed.

(** Splitting "(h p)" into "h p" gives [h] groups of [p] entries. *)
Lemma groups_fuel_shape (p h fuel : nat) (row : T1) :
  (1 <= p)%nat -> length row = (h * p)%nat -> (length row <= fuel)%nat ->
  length (groups_fuel fuel p row) = h /\
  Forall (fun g => length g = p) (groups_fuel fuel p row).
Proof.
  intros Hp. revert fuel row. induction h as [| h IH]; intros fuel row Hlen Hfuel.
  - destruct row; [| simpl in Hlen; lia].
    destruct fuel; simpl; split; auto.
  - destruct row as [| x row]; [simpl in Hlen; lia |].
    destruct fuel as [| fuel]; [simpl in Hfuel; lia |].
    cbn [groups_fuel].
    destruct (IH fuel (drop p (x :: row))) as [IH1 IH2].
    + rewrite length_drop. lia.
    + rewrite length_drop. simpl in *. lia.
    + split; [simpl; rewrite IH1; reflexivity |].
      constructor; [rewrite length_take; lia | exact IH2].
Qed.

Lemma unflatten_shape (p : Z) (h : nat) (row : T1) :
  (0 < p)%Z -> length row = (h * Z.to_nat p)%nat ->
  exists g, unflatten p row = Ok g /\
            length g = h /\ Forall (fun r => length r = Z.to_nat p) g.
Proof.
  intros Hp Hlen. unfold unflatten.
  destruct (Z.leb_spec p 0); [lia |].
  rewrite Hlen, Nat.Div0.mod_mul, Nat.eqb_refl.
  eexists. split; [reflexivity |].
  rewrite <- Hlen. apply groups_fuel_shape; [lia | exact Hlen | lia].
Qed.

(** "l b (h p) -> b l h p". *)
Lemma rearrange_lbhp_blhp_rect (p : Z) (nl nb h : nat) (t : T3) :
  (0 < p)%Z -> (1 <= nl)%nat ->
  rect3 nl nb (h * Z.to_nat p) t ->
  exists t4, rearrange_lbhp_blhp p t = Ok t4 /\
             rect4 nb nl h (Z.to_nat p) t4.
Proof.
  intros Hp Hl Ht. apply transpose_rect3 in Ht as [Hlen Ht]; [| exact Hl].
  unfold rearrange_lbhp_blhp.
  destruct (mapR (mapR (unflatten p)) (transpose t)) as [t4 | e] eqn:E.
  - exists t4. split; [reflexivity |]. apply mapR_Forall2 in E.
    split; [rewrite <- (Forall2_length _ _ _ E); exact Hlen |].
    apply Forall_lookup. intros i m4 Hm4.
    destruct (Forall2_lookup_r _ _ _ _ _ E Hm4) as (m & Hm & Hmm).
    rewrite Forall_lookup in Ht. destruct (Ht i m Hm) as [Hm1 Hrows].
    apply mapR_Forall2 in Hmm.
    split; [rewrite <- (Forall2_length _ _ _ Hmm); exact Hm1 |].
    apply Forall_lookup. intros j g Hg.
    destruct (Forall2_lookup_r _ _ _ _ _ Hmm Hg) as (row & Hrow & Hu).
    rewrite Forall_lookup in Hrows. specialize (Hrows j row Hrow).
    destruct (unflatten_shape p h row Hp Hrows) as (g' & Hg' & Hs).
    rewrite Hg' in Hu. injection Hu as <-. exact Hs.
  - exfalso. apply mapR_Err in E as (m & Hm & E).
    apply mapR_Err in E as (row & Hrow & E).
    rewrite List.Forall_forall in Ht. destruct (Ht m Hm) as [_ Hrows].
    rewrite List.Forall_forall in Hrows. specialize (Hrows row Hrow).
    destruct (unflatten_shape p h row Hp Hrows) as (g & Hg & _). congruence.
Qed.

Lemma length_concat_rect {A : Type} (p : nat) (g : list (list A)) :
  Forall (fun r => length r = p) g -> length (concat g) = (length g * p)%nat.
Proof.
  induction 1 as [| r g Hr _ IH]; simpl; [reflexivity |].
  rewrite length_app, IH, Hr. reflexivity.
Qed.

(** "b l h p -> b l (h p)". *)
Lemma rearrange_blhp_bld_rect (nb nl h p : nat) (t : T4) :
  rect4 nb nl h p t -> rect3 nb nl (h * p) (rearrange_blhp_bld t).
Proof.
  intros [Hlen Ht]. unfold rearrange_blhp_bld.
  split; [rewrite length_map; exact Hlen |].
  apply List.Forall_forall. intros m' Hm'.
  apply in_map_iff in Hm' as (m & <- & Hm).
  rewrite List.Forall_forall in Ht. destruct (Ht m Hm) as [Hm1 Hrows].
  split; [rewrite length_map; exact Hm1 |].
  apply List.Forall_forall. intros r' Hr'.
  apply in_map_iff in Hr' as (g & <- & Hg).
  rewrite List.Forall_forall in Hrows. destruct (Hrows g Hg) as [Hg1 Hg2].
  rewrite (length_concat_rect p g Hg2), Hg1. reflexivity.
Qed.

(** What the forward pass reads of a layer constructed from positive
    sizes. *)
Lemma init_forward_facts (ws : Z) (draws : Draws) (a : MambaArgs)
    (self : Mamba) :
  __init__ ws draws a = Ok self ->
  (0 < ws)%Z -> (0 < arg_headdim a)%Z -> (0 < arg_expand a * arg_d_model a)%Z ->
  (0 < arg_ngroups a)%Z ->
  config self = arg_config a /\
  headdim self = arg_headdim a /\
  (0 < nheads_local self)%Z /\ (0 < ngroups_local self)%Z /\
  d_inner_local self = (nheads_local self * headdim self)%Z /\
  length (D self)
  = Z.to_nat (if D_has_hdim self then d_inner_local self else nheads_local self) /\
  (rmsnorm self = true ->
   exists n, norm self = Some n /\
             length (norm_weight n) = Z.to_nat (d_inner_local self)) /\
  length (weight (out_proj self)) = Z.to_nat (d_model self) /\
  Forall (fun wr => length wr = Z.to_nat (d_inner_local self))
         (weight (out_proj self)) /\
  length (dt_bias self) = Z.to_nat (nheads_local self) /\
  length (A_log self) = Z.to_nat (nheads_local self).
Proof.
  intros E Hws Hhd Hdi Hng.
  pose proof (init_Ok _ _ _ _ E) as ((_ & _ & M1 & M2 & M3 & M4) & _).
  apply init_Ok_result in E as (-> & _). cbn.
  set (di := (arg_expand a * arg_d_model a)%Z) in *.
  apply Z.div_exact in M1, M2, M3, M4; try lia.
  assert (Hnh : (0 < di / arg_headdim a)%Z) by nia.
  assert (Hnhl : (0 < di / arg_headdim a / ws)%Z) by nia.
  assert (Hngl : (0 < arg_ngroups a / ws)%Z) by nia.
  split; [reflexivity |]. split; [reflexivity |].
  split; [exact Hnhl |]. split; [exact Hngl |].
  split.
  { apply Z.mul_cancel_l with (p := ws); [lia |].
    rewrite <- M2. rewrite M1 at 1. rewrite M4 at 1. ring. }
  split; [unfold ones1; apply repeat_length |].
  split.
  { intros ->. eexists. split; [reflexivity |]. cbn.
    unfold ones1. apply repeat_length. }
  split; [apply length_tabulate |].
  split; [apply Forall_tabulate; intros i; apply length_tabulate |].
  split; rewrite length_map; apply length_tabulate.
Qed.

Section ForwardShape.
Variable causal_conv1d_update :
  option (T2 -> loc -> T2 -> option (list R) -> string -> M (list (list R))).
Variable mamba_chunk_scan_fused :
  T4 -> T3 -> T1 -> T4 -> T4 -> Z -> list R + list (list R) ->
  option (list (list (list (list R)))) -> T1 -> bool -> bool ->
  result (list (list (list (list R))) * option (list (list (list R)))).
Variable RMSNormGated_forward : RMSNorm -> T3 -> T3 -> result (list (list (list R))).
Variable gather_from_sequence_parallel_region : T3 -> T3.
Variable copy_to_tensor_model_parallel_region : T3 -> T3.
Variable reduce_from_tensor_model_parallel_region : T3 -> T3.
Variable reduce_scatter_to_sequence_parallel_region : T3 -> T3.
Variable step_projection :
  Mamba -> pyval -> T2 -> T2 -> loc -> loc ->
  M (list (list (list R)) * loc * loc).

(** The contracts of the imported kernels: on arguments of the shapes
    the fused scan documents it returns an output of the shape of [x];
    the gated norm returns an output of the shape of its input; the two
    collectives of the path without sequence parallelism keep the
    shape. *)
Hypothesis scan_shape :
  forall x dt A B C cs D z dtb sp rf nb nl nh p ng n,
    rect4 nb nl nh p x -> rect3 nb nl nh dt -> length A = nh ->
    rect4 nb nl ng n B -> rect4 nb nl ng n C ->
    match D with
    | inl d => length d = nh
    | inr d => length d = nh /\ Forall (fun r => length r = p) d
    end ->
    match z with
    | None => True
    | Some z => rect4 nb nl nh p z
    end ->
    length dtb = nh ->
    exists y ls, mamba_chunk_scan_fused x dt A B C cs D z dtb sp rf = Ok (y, ls) /\
                 rect4 nb nl nh p y.
Hypothesis norm_shape :
  forall n y z nb nl d,
    rect3 nb nl d y -> rect3 nb nl d z -> length (norm_weight n) = d ->
    exists o, RMSNormGated_forward n y z = Ok o /\ rect3 nb nl d o.
Hypothesis copy_shape :
  forall t n1 n2 n3,
    rect3 n1 n2 n3 t -> rect3 n1 n2 n3 (copy_to_tensor_model_parallel_region t).
Hypothesis reduce_shape :
  forall t n1 n2 n3,
    rect3 n1 n2 n3 t -> rect3 n1 n2 n3 (reduce_from_tensor_model_parallel_region t).

(** X16.  "Returns: same shape as hidden_states" (line 185): in a layer
    constructed from positive sizes, without sequence parallelism and
    without an inference session, on the in-repo convolution path and
    with kernels that keep their contracts, the forward pass raises no
    error on an input of shape (L, B, d_model) with L, B >= 1, returns
    an output of that shape, and leaves the store as it was. *)
Theorem forward_keeps_shape (ws : Z) (draws : Draws) (a : MambaArgs)
    (self : Mamba) (nl nb : nat) (hidden_states : T3) (σ : Store) :
  __init__ ws draws a = Ok self ->
  (0 < ws)%Z -> (0 < arg_headdim a)%Z ->
  (0 < arg_expand a * arg_d_model a)%Z ->
  (0 < arg_ngroups a)%Z -> (0 < arg_d_state a)%Z -> (0 < arg_d_conv a)%Z ->
  sequence_parallel (arg_config a) = false ->
  (1 <= nl)%nat -> (1 <= nb)%nat ->
  rect3 nl nb (Z.to_nat (d_model self)) hidden_states ->
  exists out,
    forward None causal_conv1d_update mamba_chunk_scan_fused
            RMSNormGated_forward gather_from_sequence_parallel_region
            copy_to_tensor_model_parallel_region
            reduce_from_tensor_model_parallel_region
            reduce_scatter_to_sequence_parallel_region step_projection
            self hidden_states None σ = (Ok out, σ) /\
    rect3 nl nb (Z.to_nat (d_model self)) out.
Proof.
  intros E Hws Hhd Hdi Hng Hds Hdc Hsp Hl Hb Hx.
  destruct (init_forward_facts ws draws a self E Hws Hhd Hdi Hng)
    as (Hcfg & Hhead & Hnhl & Hngl & Hdil & HD & Hnorm & Hout & Houtw & Hdtb & HAl).
  destruct (init_in_proj_shape ws draws a self E) as (Hrows & Hw).
  destruct (init_conv ws draws a self E) as (Hconv & Hst & Hpad & HCl & HCw).
  set (P := Z.to_nat (headdim self)).
  set (H := Z.to_nat (nheads_local self)).
  set (G := Z.to_nat (ngroups_local self)).
  set (N := Z.to_nat (d_state self)).
  assert (EP : Z.to_nat (d_inner_local self) = (H * P)%nat).
  { rewrite Hdil. unfold H, P. rewrite Z2Nat.inj_mul by lia. reflexivity. }
  assert (EG : Z.to_nat (ngroups_local self * d_state self) = (G * N)%nat).
  { unfold G, N. rewrite Z2Nat.inj_mul by lia. reflexivity. }
  assert (EC : Z.to_nat (d_inner_local self
                         + 2 * ngroups_local self * d_state self)
               = (Z.to_nat (d_inner_local self)
                  + Z.to_nat (ngroups_local self * d_state self)
                  + Z.to_nat (ngroups_local self * d_state self))%nat).
  { rewrite <- !Z2Nat.inj_add by nia. f_equal. ring. }
  assert (HP : (1 <= P)%nat) by (unfold P; lia).
  assert (HH : (1 <= H)%nat) by (unfold H; lia).
  unfold forward, forward_body. cbv zeta.
  rewrite Hcfg, Hsp.
  (* the input projection and its split *)
  pose proof (copy_shape _ _ _ _ Hx) as Hx'.
  unfold mbind at 1, M_bind at 1, liftR at 1.
  rewrite (matmul3_t_rect nl nb _ _ _ Hx' Hw).
  destruct (split3_rect nl nb (d_inner_local self)
              (d_inner_local self + 2 * ngroups_local self * d_state self)
              (nheads_local self)
              (map (map (fun row => map (fun wr => rsum (zip_with Rmult row wr))
                                        (weight (in_proj self))))
                   (copy_to_tensor_model_parallel_region hidden_states)))
    as (z & xBC & dt & Hs & Rz & Rx & Rd & _); try nia.
  { eapply rect3_map_rows; [| exact Hx']. intros row _.
    rewrite length_map, Hrows. lia. }
  unfold mbind at 1, M_bind at 1, liftR at 1. rewrite Hs.
  unfold mbind at 1, M_bind at 1, mret at 1, M_ret at 1.
  (* the convolution *)
  pose proof (rearrange_lbd_bdl_rect nl nb _ xBC Hl Rx) as Rx1.
  rewrite <- HCl in Rx1.
  destruct (conv_act_rect self (Z.to_nat (arg_d_conv a)) nb nl
              (rearrange_lbd_bdl xBC)) as (xc & Hxc & Rxc);
    try assumption; try lia.
  unfold mbind at 1, M_bind at 1, liftR at 1. rewrite Hxc.
  assert (HC1 : (1 <= length (conv_weight (conv1d self)))%nat).
  { rewrite HCl, EC, EP. nia. }
  pose proof (rearrange_bdl_lbd_rect nb _ nl xc Hb HC1 Rxc) as Rxc1.
  rewrite HCl, EC in Rxc1.
  destruct (split3_rect nl nb (d_inner_local self)
              (ngroups_local self * d_state self)
              (ngroups_local self * d_state self)
              (rearrange_bdl_lbd xc))
    as (x & Bm & Cm & Hs2 & Rx2 & RB & RC & _); try nia; [exact Rxc1 |].
  unfold mbind at 1, M_bind at 1, liftR at 1. rewrite Hs2.
  (* the rearrangements before the scan *)
  rewrite EP in Rx2, Rz. rewrite EG in RB, RC.
  destruct (rearrange_lbhp_blhp_rect (headdim self) nl nb H x)
    as (x4 & Hx4 & Rx4); [lia | exact Hl | exact Rx2 |].
  unfold mbind at 1, M_bind at 1, liftR at 1. rewrite Hx4.
  destruct (rearrange_lbhp_blhp_rect (d_state self) nl nb G Bm)
    as (B4 & HB4 & RB4); [lia | exact Hl | exact RB |].
  unfold mbind at 1, M_bind at 1, liftR at 1. rewrite HB4.
  destruct (rearrange_lbhp_blhp_rect (d_state self) nl nb G Cm)
    as (C4 & HC4 & RC4); [lia | exact Hl | exact RC |].
  unfold mbind at 1, M_bind at 1, liftR at 1. rewrite HC4.
  destruct (rearrange_lbhp_blhp_rect (headdim self) nl nb H z)
    as (z4 & Hz4 & Rz4); [lia | exact Hl | exact Rz |].
  unfold mbind at 1, M_bind at 1, liftR at 1. rewrite Hz4.
  pose proof (transpose_rect3 nl nb _ dt Hl Rd) as Rdt. fold H in Rdt.
  assert (HDarg : exists Darg,
    (if D_has_hdim self then inr <$> unflatten (headdim self) (D self)
     else Ok (inl (D self))) = Ok Darg /\
    match Darg with
    | inl d => length d = H
    | inr d => length d = H /\ Forall (fun r => length r = P) d
    end).
  { destruct (D_has_hdim self).
    - destruct (unflatten_shape (headdim self) H (D self)) as (g & Hg & Hsg);
        [lia | rewrite HD; exact EP |].
      rewrite Hg. simpl. eauto.
    - eexists. split; [reflexivity |]. exact HD. }
  destruct HDarg as (Darg & HDarg & RD).
  unfold mbind at 1, M_bind at 1, liftR at 1. rewrite HDarg.
  (* the scan *)
  destruct (scan_shape x4 (transpose dt) (decay (A_log self)) B4 C4
              (chunk_size self) Darg
              (if rmsnorm self then None else Some z4) (dt_bias self)
              true (bool_decide (is_Some (@None (loc * loc)))) nb nl H P G N)
    as (y & ls & Hy & Ry); try assumption.
  { unfold decay. rewrite length_map. exact HAl. }
  { destruct (rmsnorm self); [exact I | exact Rz4]. }
  unfold mbind at 1, M_bind at 1, liftR at 1. rewrite Hy.
  unfold mbind at 1, M_bind at 1, mret at 1, M_ret at 1.
  (* the norm and the output projection *)
  pose proof (rearrange_blhp_bld_rect nb nl H P y Ry) as Ry3.
  pose proof (rearrange_blhp_bld_rect nb nl H P z4 Rz4) as Rz3.
  assert (Hy3 : exists y3,
    (if rmsnorm self then
       n ← match norm self with
           | Some n => Ok n
           | None => Err (AttributeError "norm")
           end;
       y0 ← RMSNormGated_forward n (rearrange_blhp_bld y)
                                 (rearrange_blhp_bld z4);
       Ok (transpose y0)
     else Ok (transpose (rearrange_blhp_bld y))) = Ok y3 /\
    rect3 nl nb (H * P) y3).
  { destruct (rmsnorm self).
    - destruct (Hnorm eq_refl) as (n & Hn & Hnw). rewrite Hn.
      destruct (norm_shape n _ _ nb nl (H * P)%nat Ry3 Rz3) as (o & Ho & Ro);
        [rewrite Hnw; exact EP |].
      cbn [mbind result_bind]. rewrite Ho. cbn [mbind result_bind].
      eexists. split; [reflexivity |]. apply transpose_rect3; assumption.
    - eexists. split; [reflexivity |]. apply transpose_rect3; assumption. }
  destruct Hy3 as (y3 & Hy3 & Ry3').
  unfold mbind at 1, M_bind at 1, liftR at 1. rewrite Hy3.
  rewrite EP in Houtw.
  unfold mbind at 1, M_bind at 1, liftR at 1.
  rewrite (matmul3_t_rect nl nb _ _ _ Ry3' Houtw).
  eexists. split; [reflexivity |].
  apply reduce_shape.
  eapply rect3_map_rows; [| exact Ry3']. intros row _.
  rewrite length_map. exact Hout.
Qed.

End ForwardShape.

Lemma forward_keeps_shape_witness :
  exists out,
    forward None None scan_like_x norm_like_y single_shard single_shard
            single_shard single_shard no_projection
            (tiny_layer plain_config None) [[[1]]; [[2]]] None empty_store
    = (Ok out, empty_store) /\
    rect3 2 1 (Z.to_nat (d_model (tiny_layer plain_config None))) out.
Proof.
  apply (forward_keeps_shape None scan_like_x norm_like_y single_shard
           single_shard single_shard single_shard no_projection)
    with (ws := 1%Z) (draws := const_draws) (a := tiny_args plain_config None).
  - intros. do 2 eexists. split; [reflexivity | assumption].
  - intros. eexists. split; [reflexivity | assumption].
  - intros. assumption.
  - intros. assumption.
  - apply tiny_layer_init.
  - lia.
  - simpl. lia.
  - simpl. lia.
  - simpl. lia.
  - simpl. lia.
  - simpl. lia.
  - reflexivity.
  - lia.
  - lia.
  - repeat constructor.
Defined.

(** ** Round trips of the rearrangements *)

Lemma transpose_cons_zip {A : Type} (r : list A) (T : list (list A)) :
  T <> [] -> length r = length T ->
  transpose (zip_with cons r T) = r :: transpose T.
Proof.
  revert T. induction r as [| a r IH]; intros [| c T] HT Hlen;
    try congruence; try discriminate.
  destruct T as [| c' T].
  - destruct r; [| discriminate]. reflexivity.
  - destruct r as [| a' r]; [discriminate |].
    change (zip_with cons (a :: a' :: r) (c :: c' :: T))
      with ((a :: c) :: zip_with cons (a' :: r) (c' :: T)).
    remember (zip_with cons (a' :: r) (c' :: T)) as Z eqn:HZ.
    destruct Z as [| z0 Z]; [discriminate |].
    change (transpose ((a :: c) :: z0 :: Z))
      with (zip_with cons (a :: c) (transpose (z0 :: Z))).
    rewrite HZ, IH; [| discriminate | simpl in *; lia]. reflexivity.
Qed.

Lemma transpose_singletons {A : Type} (r : list A) :
  r <> [] -> transpose (map (fun a => [a]) r) = [r].
Proof.
  induction r as [| a r IH]; intros Hr; [congruence |].
  destruct r as [| a' r]; [reflexivity |].
  change (transpose (map (fun a => [a]) (a :: a' :: r)))
    with (zip_with cons [a] (transpose (map (fun a => [a]) (a' :: r)))).
  rewrite IH by discriminate. reflexivity.
Qed.

(** Transposing twice gives back an (n, m) matrix with n, m >= 1. *)
Lemma transpose_involutive {A : Type} (n m : nat) (M : list (list A)) :
  (1 <= n)%nat -> (1 <= m)%nat -> length M = n ->
  Forall (fun r => length r = m) M ->
  transpose (transpose M) = M.
Proof.
  intros Hn Hm. revert n Hn. induction M as [| r M IH]; intros n Hn Hlen HM;
    [simpl in Hlen; lia |].
  apply Forall_cons in HM as [Hr HM].
  destruct M as [| r' M].
  - simpl. apply transpose_singletons. destruct r; [simpl in Hr; lia | discriminate].
  - change (transpose (r :: r' :: M))
      with (zip_with cons r (transpose (r' :: M))).
    destruct (transpose_shape (fun _ : A => True) (length (r' :: M)) m (r' :: M))
      as [Hl _]; [simpl; lia | reflexivity | |].
    { eapply Forall_impl; [exact HM |]. intros x Hx. simpl.
      split; [exact Hx | apply List.Forall_forall; auto]. }
    rewrite transpose_cons_zip.
    + rewrite (IH (length (r' :: M))); [reflexivity | simpl; lia | reflexivity | exact HM].
    + intros HT. rewrite HT in Hl. simpl in Hl. lia.
    + congruence.
Qed.

Lemma map_id_In {A : Type} (f : A -> A) (l : list A) :
  (forall a, In a l -> f a = a) -> map f l = l.
Proof.
  induction l as [| x l IH]; intros H; simpl; [reflexivity |].
  rewrite H by (left; reflexivity).
  rewrite IH by (intros a Ha; apply H; right; exact Ha). reflexivity.
Qed.

(** X17.  The rearrangement after the convolution ("b d l -> l b d",
    line 238) undoes the one before it ("l b d -> b d l", line 216), and
    the other way round, on tensors without an empty axis: the
    convolution stage hands back the layout it was given. *)
Theorem rearrange_round_trip (n1 n2 n3 : nat) (t : T3) :
  (1 <= n1)%nat -> (1 <= n2)%nat -> (1 <= n3)%nat ->
  rect3 n1 n2 n3 t ->
  rearrange_bdl_lbd (rearrange_lbd_bdl t) = t /\
  rearrange_lbd_bdl (rearrange_bdl_lbd t) = t.
Proof.
  intros H1 H2 H3 Ht. unfold rearrange_bdl_lbd, rearrange_lbd_bdl. split.
  - rewrite map_map.
    pose proof (transpose_rect3 n1 n2 n3 t H1 Ht) as [Hl Hm].
    rewrite map_id_In.
    + destruct Ht as [Hlen Ht].
      apply (transpose_involutive n1 n2); try assumption.
      eapply Forall_impl; [exact Ht |]. intros m [Hm1 _]. exact Hm1.
    + intros m Hin. rewrite List.Forall_forall in Hm.
      destruct (Hm m Hin) as [Hm1 Hrows].
      apply (transpose_involutive n1 n3); assumption.
  - assert (Ht' : rect3 n1 n3 n2 (map transpose t)).
    { destruct Ht as [Hlen Ht]. split; [rewrite length_map; exact Hlen |].
      apply List.Forall_forall. intros m' Hm'.
      apply in_map_iff in Hm' as (m & <- & Hm).
      rewrite List.Forall_forall in Ht. destruct (Ht m Hm) as [Hm1 Hrows].
      destruct (transpose_shape (fun _ : R => True) n2 n3 m H2 Hm1) as [E1 E2].
      { eapply Forall_impl; [exact Hrows |]. intros row Hrow. simpl.
        split; [exact Hrow | apply List.Forall_forall; auto]. }
      split; [exact E1 |]. eapply Forall_impl; [exact E2 |].
      intros c [Hc _]. exact Hc. }
    rewrite (transpose_involutive n1 n3 (map transpose t)); try assumption;
      [| apply Ht' | destruct Ht' as [_ Ht']; eapply Forall_impl; [exact Ht' |];
         intros m [Hm1 _]; exact Hm1].
    rewrite map_map. apply map_id_In.
    intros m Hin. destruct Ht as [_ Ht]. rewrite List.Forall_forall in Ht.
    destruct (Ht m Hin) as [Hm1 Hrows].
    apply (transpose_involutive n2 n3); assumption.
Qed.

Lemma rearrange_round_trip_witness :
  rearrange_bdl_lbd (rearrange_lbd_bdl [[[1; 2]]; [[3; 4]]; [[5; 6]]])
    = [[[1; 2]]; [[3; 4]]; [[5; 6]]] /\
  rearrange_lbd_bdl (rearrange_bdl_lbd [[[1; 2]]; [[3; 4]]; [[5; 6]]])
    = [[[1; 2]]; [[3; 4]]; [[5; 6]]].
Proof.
  apply (rearrange_round_trip 3 1 2); try lia. repeat constructor.
Defined.

Lemma concat_groups_fuel (p fuel : nat) (row : T1) :
  (1 <= p)%nat -> (length row <= fuel)%nat ->
  concat (groups_fuel fuel p row) = row.
Proof.
  intros Hp. revert row. induction fuel as [| fuel IH]; intros row Hfuel.
  - destruct row; [reflexivity | simpl in Hfuel; lia].
  - destruct row as [| x row]; [reflexivity |].
    cbn [groups_fuel concat]. rewrite IH.
    + apply take_drop.
    + rewrite length_drop. simpl in *. lia.
Qed.

(** X18.  Merging "(h p)" back (line 269) undoes the split of line 245:
    whenever [rearrange(t, "l b (h p) -> b l h p")] returns, merging the
    two last axes of its result gives [t] with its first two axes
    exchanged, entry for entry. *)
Theorem unflatten_merge_round_trip (p : Z) (t : T3) (t4 : T4) :
  rearrange_lbhp_blhp p t = Ok t4 ->
  rearrange_blhp_bld t4 = transpose t.
Proof.
  unfold rearrange_lbhp_blhp, rearrange_blhp_bld. intros E.
  apply mapR_Forall2 in E. apply list_eq. intros i.
  rewrite map_fmap, list_lookup_fmap.
  destruct (transpose t !! i) as [m |] eqn:Hm.
  - destruct (Forall2_lookup_l _ _ _ _ _ E Hm) as (m4 & Hm4 & Hmm).
    rewrite Hm4. simpl. f_equal. apply mapR_Forall2 in Hmm.
    apply list_eq. intros j. rewrite map_fmap, list_lookup_fmap.
    destruct (m !! j) as [row |] eqn:Hrow.
    + destruct (Forall2_lookup_l _ _ _ _ _ Hmm Hrow) as (g & Hg & Hu).
      rewrite Hg. simpl. f_equal. unfold unflatten in Hu.
      destruct (Z.leb_spec p 0); [discriminate |].
      destruct (Nat.eqb _ _); [| discriminate]. injection Hu as <-.
      apply concat_groups_fuel; lia.
    + destruct (m4 !! j) as [g |] eqn:Hg; [| reflexivity].
      destruct (Forall2_lookup_r _ _ _ _ _ Hmm Hg) as (row & Hrow' & _).
      congruence.
  - destruct (t4 !! i) as [m4 |] eqn:Hm4; [| reflexivity].
    destruct (Forall2_lookup_r _ _ _ _ _ E Hm4) as (m & Hm' & _). congruence.
Qed.

Lemma unflatten_merge_round_trip_witness :
  rearrange_blhp_bld [[[[1; 2]; [3; 4]]; [[5; 6]; [7; 8]]]]
  = transpose [[[1; 2; 3; 4]]; [[5; 6; 7; 8]]].
Proof.
  apply (unflatten_merge_round_trip 2). reflexivity.
Defined.

(** ** The decode step on the cache the layer allocates *)

Lemma matmul_t_rows (n : nat) (x w : T2) :
  Forall (fun row => length row = n) x ->
  Forall (fun wr => length wr = n) w ->
  matmul_t x w
  = Ok (map (fun row => map (fun wr => rsum (zip_with Rmult row wr)) w) x).
Proof.
  intros Hx Hw. unfold matmul_t. rewrite List.Forall_forall in Hx, Hw.
  apply mapR_ext_In. intros row Hrow.
  apply mapR_ext_In. intros wr Hwr. unfold dot.
  rewrite (Hx row Hrow), (Hw wr Hwr), Nat.eqb_refl. reflexivity.
Qed.

Lemma bcast_to_same {A B C : Type} (f : A -> B -> result C) (g : A -> B -> C)
    (dst : list A) (src : list B) :
  length dst = length src ->
  (forall a b, In (a, b) (zip dst src) -> f a b = Ok (g a b)) ->
  bcast_to f dst src = Ok (zip_with g dst src).
Proof.
  intros Hlen H. unfold bcast_to. rewrite Hlen, Nat.eqb_refl.
  rewrite (mapR_ext_In _ (fun ab => g ab.1 ab.2)).
  - rewrite map_zip_uncurry. reflexivity.
  - intros [a b] Hab. apply H. exact Hab.
Qed.

(** Copying a tensor into a buffer of its own shape stores the tensor. *)
Lemma expand_as3_same (n1 n2 n3 : nat) (d s : T3) :
  rect3 n1 n2 n3 d -> rect3 n1 n2 n3 s -> expand_as3 d s = Ok s.
Proof.
  intros [Ld Hd] [Ls Hs]. unfold expand_as3.
  rewrite (bcast_to_same _ (fun _ m => m)).
  - rewrite zip_with_snd by congruence. reflexivity.
  - congruence.
  - intros md ms Hin. apply in_zip in Hin as [Hmd Hms].
    rewrite List.Forall_forall in Hd, Hs.
    destruct (Hd md Hmd) as [Ld2 Hd2]. destruct (Hs ms Hms) as [Ls2 Hs2].
    rewrite (bcast_to_same _ (fun _ r => r)).
    + rewrite zip_with_snd by congruence. reflexivity.
    + congruence.
    + intros rd rs Hin. apply in_zip in Hin as [Hrd Hrs].
      rewrite List.Forall_forall in Hd2, Hs2.
      specialize (Hd2 rd Hrd). specialize (Hs2 rs Hrs).
      rewrite (bcast_to_same _ (fun _ v => v)).
      * rewrite zip_with_snd by congruence. reflexivity.
      * congruence.
      * reflexivity.
Qed.

Lemma roll_last_rect (n1 n2 n3 : nat) (t : T3) :
  rect3 n1 n2 n3 t -> rect3 n1 n2 n3 (roll_last t).
Proof.
  intros Ht. unfold roll_last. eapply rect3_map_rows; [| exact Ht].
  intros row Hrow. rewrite length_app, length_drop, length_take. lia.
Qed.

Section DecodeOnCache.
Variable step_projection :
  Mamba -> pyval -> T2 -> T2 -> loc -> loc ->
  M (list (list (list R)) * loc * loc).

(** X19.  With the convolution state the layer itself allocates, of
    shape (batch, d_inner_local, d_conv), the in-repo convolution path of
    a decode step cannot run: in every layer constructed from positive
    sizes, on one token of shape (1, B, d_model), the step raises a shape
    error at [conv_state[:, :, -1] = x] (line 369), because [x], the
    first half of the input projection, is wider than the buffer has
    channels.  By then the state has been rotated in place (line 368),
    and it stays rotated. *)
Theorem step_on_allocated_cache (ws : Z) (draws : Draws) (a : MambaArgs)
    (self : Mamba) (nb : nat) (hidden_states : T3) (cs : T3)
    (conv_state ssm_state : loc) (σ : Store) :
  __init__ ws draws a = Ok self ->
  (0 < ws)%Z -> (0 < arg_headdim a)%Z ->
  (0 < arg_expand a * arg_d_model a)%Z ->
  (0 < arg_ngroups a)%Z -> (0 < arg_d_state a)%Z -> (0 < arg_d_conv a)%Z ->
  (1 <= nb)%nat ->
  rect3 1 nb (Z.to_nat (d_model self)) hidden_states ->
  heap σ !! conv_state = Some cs ->
  rect3 nb (Z.to_nat (d_inner_local self)) (Z.to_nat (d_conv self)) cs ->
  step None step_projection self hidden_states conv_state ssm_state σ
  = (Err RuntimeError,
     {| heap := <[conv_state := roll_last cs]> (heap σ);
        key_value_memory_dict := key_value_memory_dict σ |}).
Proof.
  intros E Hws Hhd Hdi Hng Hds _ Hb Hx Hcs Rcs.
  destruct (init_forward_facts ws draws a self E Hws Hhd Hdi Hng)
    as (_ & Hhead & Hnhl & Hngl & Hdil & _).
  destruct (init_in_proj_shape ws draws a self E) as (Hrows & Hw).
  destruct (init_conv ws draws a self E) as (_ & Hst & _).
  destruct Hx as [Hlen Hx].
  destruct hidden_states as [| m [| m' hs]]; try discriminate.
  apply Forall_cons in Hx as [[Hm Hmrows] _].
  unfold step, step_conv. cbn [length Nat.eqb assert hd].
  unfold mbind at 1, M_bind at 1, liftR at 1.
  unfold mbind at 1, M_bind at 1.
  unfold mbind at 1, M_bind at 1, liftR at 1.
  rewrite (matmul_t_rows _ _ _ Hmrows Hw).
  set (xz := map (fun row => map (fun wr => rsum (zip_with Rmult row wr))
                               (weight (in_proj self))) m).
  set (W := length (weight (in_proj self))).
  assert (HW : (2 * Z.to_nat (d_inner_local self) + 3 <= W)%nat).
  { unfold W. rewrite Hrows, Hst. nia. }
  assert (Hsz : size1 xz = W).
  { unfold xz, size1. destruct m as [| row m]; [simpl in Hm; lia |].
    simpl. apply length_map. }
  unfold mbind at 1, M_bind at 1, liftR at 1.
  unfold chunk2. rewrite Hsz.
  destruct (Nat.eqb_spec W 1) as [HW1 | _]; [lia |].
  unfold mbind at 1, M_bind at 1.
  (* the rotation of line 368 *)
  unfold mbind at 1, M_bind at 1, load at 1.
  rewrite (list_lookup_total_correct _ _ _ Hcs).
  unfold mbind at 1, M_bind at 1. unfold copy_ at 1.
  unfold mbind at 1, M_bind at 1, load at 1.
  rewrite (list_lookup_total_correct _ _ _ Hcs).
  unfold mbind at 1, M_bind at 1, liftR at 1.
  rewrite (expand_as3_same _ _ _ cs (roll_last cs) Rcs (roll_last_rect _ _ _ _ Rcs)).
  unfold store at 1.
  (* the assignment of line 369 *)
  unfold mbind at 1, M_bind at 1, load at 1. cbn [heap].
  rewrite (list_lookup_total_correct _ _ (roll_last cs))
    by (apply list_lookup_insert_eq; eapply lookup_lt_Some; exact Hcs).
  unfold mbind at 1, M_bind at 1, liftR at 1.
  assert (Hset : setitem_last (roll_last cs) (map (take ((W + 1) / 2)) xz)
                 = Err RuntimeError).
  { pose proof (roll_last_rect _ _ _ _ Rcs) as [Lr Hr].
    unfold setitem_last, bcast_to at 1.
    rewrite length_map. unfold xz at 1. rewrite length_map, Lr, Hm, Nat.eqb_refl.
    destruct (roll_last cs) as [| d0 ds]; [simpl in Lr; lia |].
    apply Forall_cons in Hr as [[Ld0 _] _].
    destruct xz as [| x0 xs] eqn:Exz; [unfold xz in Exz; destruct m; [simpl in Hm; lia | discriminate] |].
    assert (Lx0 : length x0 = W).
    { unfold size1 in Hsz. simpl in Hsz. exact Hsz. }
    cbn [map zip zip_with mapR fst snd].
    assert (Hrow : bcast_to set_last d0 (take ((W + 1) / 2) x0)
                   = Err RuntimeError).
    { unfold bcast_to. rewrite length_take, Lx0, Ld0.
      assert (Hh : ((W + 1) / 2 <= W)%nat)
        by (apply Nat.Div0.div_le_upper_bound; lia).
      assert (Hh2 : (Z.to_nat (d_inner_local self) + 2 <= (W + 1) / 2)%nat)
        by (apply Nat.div_le_lower_bound; lia).
      destruct (Nat.eqb_spec (Z.to_nat (d_inner_local self))
                  (Nat.min ((W + 1) / 2) W)); [lia |].
      destruct (take ((W + 1) / 2) x0) as [| v0 [| v1 vs]] eqn:Et;
        try reflexivity.
      apply (f_equal length) in Et. rewrite length_take, Lx0 in Et.
      cbn [length] in Et. lia. }
    rewrite Hrow. reflexivity. }
  rewrite Hset. reflexivity.
Qed.

End DecodeOnCache.

Lemma step_on_allocated_cache_witness :
  step None no_projection (tiny_layer plain_config (Some 0%Z)) [[[1]]]
       0%nat 1%nat
       {| heap := [[[[5; 7]]]; [[[0]]]]; key_value_memory_dict := ∅ |}
  = (Err RuntimeError,
     {| heap := <[0%nat := roll_last [[[5; 7]]]]> [[[[5; 7]]]; [[[0]]]];
        key_value_memory_dict := ∅ |}).
Proof.
  apply (step_on_allocated_cache no_projection 1 const_draws
           (tiny_args plain_config (Some 0%Z))
           (tiny_layer plain_config (Some 0%Z)) 1 [[[1]]] [[[5; 7]]]
           0%nat 1%nat
           {| heap := [[[[5; 7]]]; [[[0]]]]; key_value_memory_dict := ∅ |});
    [apply tiny_layer_init | simpl; lia .. | lia | repeat constructor
    | reflexivity | repeat constructor].
Defined.

(** ** An input of the wrong width *)

Section WrongWidth.
Variable causal_conv1d_fn :
  option (T3 -> T2 -> option (list R) -> string -> result (list (list (list R)))).
Variable causal_conv1d_update :
  option (T2 -> loc -> T2 -> option (list R) -> string -> M (list (list R))).
Variable mamba_chunk_scan_fused :
  T4 -> T3 -> T1 -> T4 -> T4 -> Z -> list R + list (list R) ->
  option (list (list (list (list R)))) -> T1 -> bool -> bool ->
  result (list (list (list (list R))) * option (list (list (list R)))).
Variable RMSNormGated_forward : RMSNorm -> T3 -> T3 -> result (list (list (list R))).
Variable gather_from_sequence_parallel_region : T3 -> T3.
Variable copy_to_tensor_model_parallel_region : T3 -> T3.
Variable reduce_from_tensor_model_parallel_region : T3 -> T3.
Variable reduce_scatter_to_sequence_parallel_region : T3 -> T3.
Variable step_projection :
  Mamba -> pyval -> T2 -> T2 -> loc -> loc ->
  M (list (list (list R)) * loc * loc).

Hypothesis copy_shape :
  forall t n1 n2 n3,
    rect3 n1 n2 n3 t -> rect3 n1 n2 n3 (copy_to_tensor_model_parallel_region t).

(** X20.  Without sequence parallelism and without a session, a layer
    constructed from positive sizes rejects an input whose last axis is
    not [d_model] wide: the forward pass raises a shape error at the
    input projection (line 209), before the convolution or any imported
    kernel runs, and leaves the store as it was. *)
Theorem forward_rejects_wrong_width (ws : Z) (draws : Draws) (a : MambaArgs)
    (self : Mamba) (nl nb d : nat) (hidden_states : T3) (σ : Store) :
  __init__ ws draws a = Ok self ->
  (0 < ws)%Z -> (0 < arg_headdim a)%Z ->
  (0 < arg_expand a * arg_d_model a)%Z -> (0 < arg_ngroups a)%Z ->
  (0 < arg_d_state a)%Z ->
  sequence_parallel (arg_config a) = false ->
  (1 <= nl)%nat -> (1 <= nb)%nat ->
  rect3 nl nb d hidden_states ->
  d <> Z.to_nat (d_model self) ->
  forward causal_conv1d_fn causal_conv1d_update mamba_chunk_scan_fused
          RMSNormGated_forward gather_from_sequence_parallel_region
          copy_to_tensor_model_parallel_region
          reduce_from_tensor_model_parallel_region
          reduce_scatter_to_sequence_parallel_region step_projection
          self hidden_states None σ
  = (Err RuntimeError, σ).
Proof.
  intros E Hws Hhd Hdi Hng Hds Hsp Hl Hb Hx Hd.
  destruct (init_forward_facts ws draws a self E Hws Hhd Hdi Hng)
    as (Hcfg & Hhead & Hnhl & Hngl & Hdil & _).
  destruct (init_in_proj_shape ws draws a self E) as (Hrows & Hw).
  destruct (init_conv ws draws a self E) as (_ & Hst & _).
  unfold forward, forward_body. cbv zeta. rewrite Hcfg, Hsp.
  pose proof (copy_shape _ _ _ _ Hx) as Hx'.
  set (hs := copy_to_tensor_model_parallel_region hidden_states) in *.
  unfold mbind at 1, M_bind at 1, liftR at 1.
  destruct (matmul3_t hs (weight (in_proj self))) as [xz | e] eqn:Hm.
  - exfalso. unfold matmul3_t in Hm. apply mapR_Forall2 in Hm.
    destruct (rect3_lookup nl nb d hs 0 0 Hx') as (m & row & Hm0 & Hrow & _);
      [lia | lia |].
    destruct (Forall2_lookup_l _ _ _ _ _ Hm Hm0) as (y & _ & Hy).
    unfold matmul_t in Hy. apply mapR_Forall2 in Hy.
    destruct (Forall2_lookup_l _ _ _ _ _ Hy Hrow) as (yr & _ & Hyr).
    apply mapR_Forall2 in Hyr.
    destruct (weight (in_proj self)) as [| wr W] eqn:EW.
    { simpl in Hrows. nia. }
    apply Forall_cons in Hw as [Hwr _].
    inversion Hyr as [| ? v ? ? Hdot _]; subst.
    unfold dot in Hdot.
    destruct (Nat.eqb_spec (length row) (length wr)) as [Heq |];
      [| discriminate].
    destruct Hx' as [_ Hx']. rewrite Forall_lookup in Hx'.
    destruct (Hx' 0%nat m Hm0) as [_ Hrows']. rewrite Forall_lookup in Hrows'.
    specialize (Hrows' 0%nat row Hrow). congruence.
  - apply matmul3_t_Err in Hm as ->. reflexivity.
Qed.

End WrongWidth.

Lemma forward_rejects_wrong_width_witness :
  forward_ref (tiny_layer plain_config None) [[[1; 2]]] None empty_store
  = (Err RuntimeError, empty_store).
Proof.
  apply (forward_rejects_wrong_width None None no_scan no_norm single_shard
           single_shard single_shard single_shard no_projection)
    with (ws := 1%Z) (draws := const_draws) (a := tiny_args plain_config None)
         (nl := 1%nat) (nb := 1%nat) (d := 2%nat).
  - intros. assumption.
  - apply tiny_layer_init.
  - lia.
  - simpl. lia.
  - simpl. lia.
  - simpl. lia.
  - simpl. lia.
  - reflexivity.
  - lia.
  - lia.
  - repeat constructor.
  - simpl. lia.
Defined.

(** ** The convolution kernel a construction draws *)

(** X21.  When [conv_init] is given, every entry of the convolution
    kernel of a constructed layer lies in [-conv_init, conv_init]
    (lines 129-130). *)
Theorem init_conv_weight_range (ws : Z) (draws : Draws) (a : MambaArgs)
    (self : Mamba) (c v : R) (w : T1) :
  __init__ ws draws a = Ok self ->
  arg_conv_init a = Some c -> 0 <= c ->
  (forall i j, 0 <= rand_conv draws i j < 1) ->
  In w (conv_weight (conv1d self)) -> In v w ->
  - c <= v <= c.
Proof.
  intros E Hc Hc0 Hr Hw Hv.
  apply init_Ok_result in E as (-> & _).
  cbn [conv1d conv_weight init_result] in Hw. rewrite Hc in Hw.
  unfold tabulate in Hw. apply in_map_iff in Hw as (i & <- & _).
  apply in_map_iff in Hv as (j & <- & _).
  apply uniform_range; [lra | apply Hr].
Qed.

Lemma init_conv_weight_range_witness :
  exists self,
    __init__ 1 const_draws
      (args_with_conv_init (tiny_args plain_config None) (Some 3)) = Ok self /\
    forall w v, In w (conv_weight (conv1d self)) -> In v w -> - 3 <= v <= 3.
Proof.
  destruct (init_succeeds 1 const_draws
              (args_with_conv_init (tiny_args plain_config None) (Some 3)))
    as [self E]; try reflexivity; simpl; try lra.
  { repeat split; try discriminate; reflexivity. }
  exists self. split; [exact E |]. intros w v Hw Hv.
  apply (init_conv_weight_range 1 const_draws
           (args_with_conv_init (tiny_args plain_config None) (Some 3))
           self 3 v w E); [reflexivity | lra | intros i j; simpl; lra
                          | exact Hw | exact Hv].
Defined.
